(** * pkg/project/create.go: the project scaffolding engine

    A shallow embedding of [Create] and of the four step executors it
    dispatches to.  The operating system, the embedded template store, the
    package registry and the JSON / HuJSON / regexp / text-template
    libraries are outside the repository: the file system is an explicit
    state, the libraries are the fields of a record the model is
    parameterised by. *)

From Stdlib Require Import Ascii String.
From stdpp Require Import base strings list gmap.

#[local] Set Warnings "-register-all".
#[local] Open Scope string_scope.
#[local] Open Scope list_scope.

(** ** Go's [strings] package, on Rocq strings *)

Fixpoint strings_HasPrefix (s prefix : string) : bool :=
  match prefix, s with
  | EmptyString, _ => true
  | String c p', String d s' => if Ascii.eqb c d then strings_HasPrefix s' p' else false
  | String _ _, EmptyString => false
  end.

Fixpoint strings_Contains (s substr : string) : bool :=
  if strings_HasPrefix s substr then true
  else match s with
       | EmptyString => false
       | String _ s' => strings_Contains s' substr
       end.

Fixpoint strings_HasSuffix (s suffix : string) : bool :=
  if String.eqb s suffix then true
  else match s with
       | EmptyString => false
       | String _ s' => strings_HasSuffix s' suffix
       end.

Fixpoint string_drop (n : nat) (s : string) : string :=
  match n, s with
  | S n', String _ s' => string_drop n' s'
  | _, _ => s
  end.

Definition strings_TrimPrefix (s prefix : string) : string :=
  if strings_HasPrefix s prefix then string_drop (String.length prefix) s else s.

(** The newline character, Go's ["\n"]. *)
Definition LF : string := String "010"%char EmptyString.

(** Number of positions of [s] at which [substr] starts. *)
Fixpoint occurrences (substr s : string) : nat :=
  (if strings_HasPrefix s substr then 1 else 0) +
  match s with
  | EmptyString => 0
  | String _ s' => occurrences substr s'
  end.

(** [filepath.Join(".", rel)] for the suffixes [rel] the template walk
    produces: either empty (the root of the walk) or ["/a/b"], a slash
    followed by clean components.  [Join] drops the empty element and
    cleans the result, so the root gives ["."] and ["/a/b"] gives ["a/b"]. *)
Fixpoint strip_slashes (s : string) : string :=
  match s with
  | String "/"%char s' => strip_slashes s'
  | _ => s
  end.

Definition filepath_Join_dot (rel : string) : string :=
  match strip_slashes rel with
  | EmptyString => "."
  | s => s
  end.

(** [filepath.Join("templates", templateName, leaf)] for a plain name. *)
Definition filepath_Join3 (a b c : string) : string := a +:+ "/" +:+ b +:+ "/" +:+ c.

(** ** Data of create.go *)

Definition RawMessage := string.

(** [type step struct] *)
Record step := { step_Type : string; step_Properties : RawMessage }.

(** [type npmStep struct] *)
Record npmStep := {
  npm_Package : string;
  npm_Version : string;
  npm_File : string;
  npm_Dev : bool }.

(** [type patchStep struct]; [Regex] is a slice of (Find, Replace). *)
Record patchStep := {
  patch_Patch : RawMessage;
  patch_File : string;
  patch_Regex : list (string * string) }.

(** [type gitignoreStep struct] *)
Record gitignoreStep := { gi_Name : string; gi_Path : string }.

(** What [interface{}] holds after a JSON decode.  A
    [map[string]interface{}] is a [JObject]. *)
Inductive jvalue :=
| JNull
| JBool (b : bool)
| JNumber (repr : string)
| JString (s : string)
| JArray (items : list jvalue)
| JObject (fields : gmap string jvalue).

(** [gokvpairs.KeyValuePairs[interface{}]]: a slice of key/value pairs in
    document order.  The nil slice is the empty list. *)
Abbreviation KeyValuePairs := (list (string * jvalue)).

(** ** Errors and results *)

Inductive oserr := ENOENT | EEXIST | EISDIR | ENOTDIR | ENOSPC | EBADF.

Definition os_IsExist (err : option oserr) : bool :=
  match err with Some EEXIST => true | _ => false end.

Definition os_IsNotExist (err : option oserr) : bool :=
  match err with Some ENOENT => true | _ => false end.

Inductive error :=
| ErrConfigExists
| ErrReadPreset (e : oserr)
| ErrJSON
| ErrOS (e : oserr)
| ErrHTTP
| ErrHuJSON
| ErrTemplate.

(** A call returns a value, returns a non-nil [error], or panics. *)
Inductive result (A : Type) :=
| Val (a : A)
| Err (e : error)
| Panic.
Arguments Val {A} a.
Arguments Err {A} e.
Arguments Panic {A}.

(** ** The libraries create.go calls *)

Record Libs := {
  hujson_Value : Type;
  regexp_Regexp : Type;
  template_Template : Type;
  (* encoding/json *)
  json_Unmarshal_preset : string → option (list step);
  json_Unmarshal_npm : RawMessage → option npmStep;
  json_Unmarshal_patch : RawMessage → option patchStep;
  json_Unmarshal_gitignore : RawMessage → option gitignoreStep;
  json_Decode_KeyValuePairs : string → option KeyValuePairs;
  json_Decode_version : string → option string;
  json_MarshalIndent : KeyValuePairs → string → string → option string;
  (* tailscale/hujson *)
  hujson_Parse : string → option hujson_Value;
  hujson_Patch : hujson_Value → RawMessage → option hujson_Value;
  hujson_Pack : hujson_Value → string;
  (* regexp: [None] is a pattern that does not compile *)
  regexp_Compile : string → option regexp_Regexp;
  regexp_ReplaceAllString : regexp_Regexp → string → string → string;
  (* text/template: [Execute] gives the text emitted and whether it
     ran to the end *)
  template_Parse : string → string → option template_Template;
  template_Execute : template_Template → string → string → string * bool;
  (* strings, path/filepath *)
  strings_ToLower : string → string;
  filepath_Base : string → string }.

(** ** The world *)

Inductive node := RegularFile (data : string) | Directory.

(** A tree of the embedded template store. *)
Inductive etree :=
| EFile (data : string)
| EDir (entries : list (string * etree)).

(** What the store holds under [templates/<name>/]: the bytes of
    [preset.json] and the tree under [files], either of which may be
    missing.  The store is addressed by template name. *)
Record Template := { preset_json : option string; files : option etree }.

(** What a run cannot change: the working directory ([None] when it
    cannot be determined), the embedded store, the registry (URL to
    response body; no entry when the request fails) and the paths on
    which a write fails although the file could be opened. *)
Record Env := {
  cwd : option string;
  Templates : gmap string Template;
  registry : gmap string string;
  wfault : gset string }.

Inductive event :=
| EvStat (path : string)
| EvGetwd
| EvTemplatesReadFile (path : string)
| EvOpen (path : string)
| EvRead (path : string)
| EvHttpGet (url : string)
| EvReadFile (path : string)
| EvCreate (path : string)
| EvWriteString (path data : string)
| EvWalkDir (root : string)
| EvMkdirAll (path : string)
| EvWriteFile (path data : string)
| EvOpenFile (path : string)
| EvReadAll (path : string).

(** The file system and the calls made so far, oldest first. *)
Record World := { fs : gmap string node; trace : list event }.

Definition M (A : Type) : Type := World → result A * World.

Definition ret {A} (a : A) : M A := λ w, (Val a, w).
Definition fail {A} (e : error) : M A := λ w, (Err e, w).
Definition panic {A} : M A := λ w, (Panic, w).

Definition bind {A B} (m : M A) (k : A → M B) : M B :=
  λ w, match m w with
       | (Val a, w') => k a w'
       | (Err e, w') => (Err e, w')
       | (Panic, w') => (Panic, w')
       end.

Notation "'let*' x ':=' m 'in' k" := (bind m (λ x, k))
  (at level 10, x pattern, m at level 200, k at level 200).

Definition emit (e : event) : M unit :=
  λ w, (Val tt, {| fs := fs w; trace := (trace w ++ [e])%list |}).

Definition get_fs : M (gmap string node) := λ w, (Val (fs w), w).

Definition put_fs (f : gmap string node) : M unit :=
  λ w, (Val tt, {| fs := f; trace := trace w |}).

(** ** The operating system

    Every call is recorded in the trace.  A file handle is the path it
    was opened on: create.go writes a handle only at the end of its file
    (right after [os.Create], or after [io.ReadAll] has read to the end),
    so a write through a handle appends. *)

Definition Handle := string.

(** The node at a path.  ["."] is the working directory, which is there
    without an entry of its own. *)
Definition node_at (f : gmap string node) (path : string) : option node :=
  if decide (path = ".") then Some Directory else f !! path.

(** The proper prefixes of a path that end before a slash: the names
    the path uses as directories.  [prefix] is what has been read. *)
Fixpoint path_ancestors (prefix rest : string) : list string :=
  match rest with
  | EmptyString => []
  | String c rest' =>
      (if Ascii.eqb c "/" then [prefix] else [])
      ++ path_ancestors (prefix +:+ String c EmptyString) rest'
  end.

(** Whether the path goes through a regular file. *)
Definition below_file (f : gmap string node) (path : string) : bool :=
  existsb (λ dir, match node_at f dir with
                  | Some (RegularFile _) => true
                  | _ => false
                  end)
          (path_ancestors "" path).

(** The error for a path with no entry: ENOTDIR when the path goes
    through a regular file, the not-exist error otherwise. *)
Definition missing_error (f : gmap string node) (path : string) : oserr :=
  if below_file f path then ENOTDIR else ENOENT.

(** [os.Stat]: the error is nil exactly when the path exists. *)
Definition os_Stat (path : string) : M (option oserr) :=
  let* _ := emit (EvStat path) in
  let* f := get_fs in
  match node_at f path with
  | Some _ => ret None
  | None => ret (Some (missing_error f path))
  end.

(** [os.Open]: a directory can be opened, reading it fails. *)
Definition os_Open (path : string) : M (oserr + Handle) :=
  let* _ := emit (EvOpen path) in
  let* f := get_fs in
  match node_at f path with
  | Some _ => ret (inr path)
  | None => ret (inl (missing_error f path))
  end.

(** Reading an open file to its end. *)
Definition File_read (ev : string → event) (h : Handle) : M (oserr + string) :=
  let* _ := emit (ev h) in
  let* f := get_fs in
  match node_at f h with
  | Some (RegularFile data) => ret (inr data)
  | Some Directory => ret (inl EISDIR)
  | None => ret (inl EBADF)
  end.

(** [os.ReadFile]: a regular file gives its content. *)
Definition os_ReadFile (path : string) : M (oserr + string) :=
  let* _ := emit (EvReadFile path) in
  let* f := get_fs in
  match node_at f path with
  | Some (RegularFile data) => ret (inr data)
  | Some Directory => ret (inl EISDIR)
  | None => ret (inl (missing_error f path))
  end.

(** [os.Create]: creates the file or truncates the one that is there. *)
Definition os_Create (path : string) : M (oserr + Handle) :=
  let* _ := emit (EvCreate path) in
  let* f := get_fs in
  match node_at f path with
  | Some Directory => ret (inl EISDIR)
  | _ => let* _ := put_fs (<[path := RegularFile ""]> f) in ret (inr path)
  end.

(** [os.OpenFile(path, os.O_RDWR|os.O_CREATE, 0666)]: no truncation. *)
Definition os_OpenFile_RDWR_CREATE (path : string) : M (oserr + Handle) :=
  let* _ := emit (EvOpenFile path) in
  let* f := get_fs in
  match node_at f path with
  | Some Directory => ret (inl EISDIR)
  | Some (RegularFile _) => ret (inr path)
  | None => let* _ := put_fs (<[path := RegularFile ""]> f) in ret (inr path)
  end.

(** [os.MkdirAll]: nothing to do on a directory, fails on a file.  The
    walk of the copy step visits a directory before its entries, so the
    parents of the path are there when it is called. *)
Definition os_MkdirAll (path : string) : M (option oserr) :=
  let* _ := emit (EvMkdirAll path) in
  let* f := get_fs in
  match node_at f path with
  | Some (RegularFile _) => ret (Some ENOTDIR)
  | Some Directory => ret None
  | None => let* _ := put_fs (<[path := Directory]> f) in ret None
  end.

Section Model.
Context (L : Libs) (env : Env).

(** [file.WriteString] on an open [os.File], at the end of the file. *)
Definition File_WriteString (h : Handle) (data : string) : M (option oserr) :=
  let* _ := emit (EvWriteString h data) in
  let* f := get_fs in
  if decide (h ∈ wfault env) then ret (Some ENOSPC)
  else match node_at f h with
       | Some (RegularFile old) =>
           let* _ := put_fs (<[h := RegularFile (old +:+ data)]> f) in ret None
       | _ => ret (Some EBADF)
       end.

(** [os.WriteFile]: open with truncation, then one write. *)
Definition os_WriteFile (path data : string) : M (option oserr) :=
  let* _ := emit (EvWriteFile path data) in
  let* f := get_fs in
  match node_at f path with
  | Some Directory => ret (Some EISDIR)
  | _ =>
      if decide (path ∈ wfault env)
      then let* _ := put_fs (<[path := RegularFile ""]> f) in ret (Some ENOSPC)
      else let* _ := put_fs (<[path := RegularFile data]> f) in ret None
  end.

Definition os_Getwd : M (option string) :=
  let* _ := emit EvGetwd in ret (cwd env).

(** [platform.Templates.ReadFile(filepath.Join("templates", name, "preset.json"))] *)
Definition Templates_ReadFile_preset (templateName : string) : M (oserr + string) :=
  let* _ := emit (EvTemplatesReadFile (filepath_Join3 "templates" templateName "preset.json")) in
  match Templates env !! templateName with
  | Some {| preset_json := Some data |} => ret (inr data)
  | _ => ret (inl ENOENT)
  end.

(** [http.Get(url)] and the body of the response. *)
Definition http_Get (url : string) : M (option string) :=
  let* _ := emit (EvHttpGet url) in ret (registry env !! url).

(** ** The step executors (the cases of the [switch] in [Create]) *)

Definition lift {A} (r : result A) : M A := λ w, (r, w).

(** The mutable state of the loop over the steps. *)
Record LoopState := {
  packageJsons : gmap string KeyValuePairs;
  gitignoreSteps : list gitignoreStep }.

(** Lines 116-121.  [target] is a Go map, a reference to the value held
    by one pair of the slice; the model keeps the index of that pair.
    The loop has no [break], so the last pair with the key wins; the
    type assertion panics on a value that is not a JSON object. *)
Fixpoint find_target (field : string) (packageJson : KeyValuePairs) (i : nat)
    (target : option nat) : result (option nat) :=
  match packageJson with
  | [] => Val target
  | (key, value) :: rest =>
      if decide (key = field)
      then match value with
           | JObject _ => find_target field rest (S i) (Some i)
           | _ => Panic
           end
      else find_target field rest (S i) target
  end.

(** [target[key] = value] through the reference [target]. *)
Definition map_assign (packageJson : KeyValuePairs) (target : nat)
    (key : string) (value : jvalue) : KeyValuePairs :=
  match packageJson !! target with
  | Some (k, JObject m) => <[target := (k, JObject (<[key := value]> m))]> packageJson
  | _ => packageJson
  end.

(** Lines 98-110: the document of the file, read on first use. *)
Definition load_packageJson (file : string) (pjs : gmap string KeyValuePairs)
    : M (KeyValuePairs * gmap string KeyValuePairs) :=
  match default [] (pjs !! file) with
  | [] =>
      let* f := os_Open file in
      match f with
      | inl e => fail (ErrOS e)
      | inr f =>
          let* data := File_read EvRead f in
          match data with
          | inl e => fail (ErrOS e)
          | inr data =>
              match json_Decode_KeyValuePairs L data with
              | None => fail ErrJSON
              | Some packageJson => ret (packageJson, <[file := packageJson]> pjs)
              end
          end
      end
  | packageJson => ret (packageJson, pjs)
  end.

(** Lines 128-147: the explicit version, or the registry's latest. *)
Definition resolve_version (npm : npmStep) : M string :=
  if decide (npm_Version npm = "")
  then
    let* resp := http_Get ("https://registry.npmjs.org/" +:+ npm_Package npm +:+ "/latest") in
    match resp with
    | None => fail ErrHTTP
    | Some body =>
        match json_Decode_version L body with
        | None => fail ErrJSON
        | Some version => ret version
        end
    end
  else ret (npm_Version npm).

Definition npm_field (npm : npmStep) : string :=
  if npm_Dev npm then "devDependencies" else "dependencies".

(** [case "npm"], lines 91-148. *)
Definition exec_npm (properties : RawMessage) (st : LoopState) : M LoopState :=
  match json_Unmarshal_npm L properties with
  | None => fail ErrJSON
  | Some npm =>
      let file := npm_File npm in
      let* loaded := load_packageJson file (packageJsons st) in
      let packageJson := loaded.1 in
      let pjs := loaded.2 in
      let field := npm_field npm in
      let* found := lift (find_target field packageJson 0 None) in
      let appended :=
        match found with
        | Some i => (packageJson, i, pjs)
        | None =>
            let packageJson' := packageJson ++ [(field, JObject ∅)] in
            (packageJson', length packageJson, <[file := packageJson']> pjs)
        end in
      let packageJson := appended.1.1 in
      let target := appended.1.2 in
      let pjs := appended.2 in
      let* version := resolve_version npm in
      ret {| packageJsons :=
               <[file := map_assign packageJson target (npm_Package npm) (JString version)]> pjs;
             gitignoreSteps := gitignoreSteps st |}
  end.

(** Lines 176-180: [regexp.MustCompile] panics on a bad pattern. *)
Fixpoint apply_regex (patterns : list (string * string)) (packed : string) : result string :=
  match patterns with
  | [] => Val packed
  | (find, replace) :: rest =>
      match regexp_Compile L find with
      | None => Panic
      | Some re => apply_regex rest (regexp_ReplaceAllString L re packed replace)
      end
  end.

(** [case "patch"], lines 150-189.  A missing file ends the step
    ([continue]); the result of the final [WriteString] is dropped. *)
Definition exec_patch (properties : RawMessage) : M unit :=
  match json_Unmarshal_patch L properties with
  | None => fail ErrJSON
  | Some patch =>
      let* b := os_ReadFile (patch_File patch) in
      match b with
      | inl e => if os_IsNotExist (Some e) then ret tt else fail (ErrOS e)
      | inr b =>
          match hujson_Parse L b with
          | None => fail ErrHuJSON
          | Some value =>
              match hujson_Patch L value (patch_Patch patch) with
              | None => fail ErrHuJSON
              | Some value =>
                  let* packed := lift (apply_regex (patch_Regex patch) (hujson_Pack L value)) in
                  let* file := os_Create (patch_File patch) in
                  match file with
                  | inl e => fail (ErrOS e)
                  | inr file =>
                      let* _ := File_WriteString file packed in
                      ret tt
                  end
              end
          end
      end
  end.

(** The callback given to [fs.WalkDir], lines 193-239.  The file the
    walk is at is in the store, so reading it succeeds.  The error of
    [template.Parse] is dropped, and [Execute] on the nil template it
    leaves panics; the test on the result of [os.Stat] is [os.IsExist].
    What [Execute] emits reaches the file as one write. *)
Definition copy_visit (templateFilesPath directoryName home : string)
    (path : string) (d : etree) : M unit :=
  match d with
  | EDir _ =>
      let dir := filepath_Join_dot (strings_TrimPrefix path templateFilesPath) in
      if decide (dir = "") then ret tt
      else
        let* err := os_MkdirAll dir in
        match err with
        | Some e => fail (ErrOS e)
        | None => ret tt
        end
  | EFile src =>
      let* _ := emit (EvTemplatesReadFile path) in
      let name := filepath_Join_dot (strings_TrimPrefix path templateFilesPath) in
      let tmpl := template_Parse L path src in
      let* err := os_Stat name in
      if os_IsExist err then ret tt
      else
        let* output := os_Create name in
        match output with
        | inl e => fail (ErrOS e)
        | inr output =>
            match tmpl with
            | None => panic
            | Some tmpl =>
                let out := template_Execute L tmpl directoryName home in
                let* err := File_WriteString output out.1 in
                match err with
                | Some e => fail (ErrOS e)
                | None => if out.2 then ret tt else fail ErrTemplate
                end
            end
        end
  end.

(** [fs.WalkDir] below an existing root: the callback on the node, then
    the entries of a directory in order; the first error ends the walk. *)
Fixpoint walkDir (fn : string → etree → M unit) (path : string) (d : etree) : M unit :=
  let* _ := fn path d in
  match d with
  | EFile _ => ret tt
  | EDir entries =>
      (fix walkEntries (es : list (string * etree)) : M unit :=
         match es with
         | [] => ret tt
         | (name, child) :: es' =>
             let* _ := walkDir fn (path +:+ "/" +:+ name) child in
             walkEntries es'
         end) entries
  end.

(** [case "copy"], lines 191-243.  When the root is missing [WalkDir]
    calls back with a nil entry, and [d.IsDir()] panics. *)
Definition exec_copy (templateName directoryName home : string) : M unit :=
  let templateFilesPath := filepath_Join3 "templates" templateName "files" in
  let* _ := emit (EvWalkDir templateFilesPath) in
  match Templates env !! templateName with
  | Some {| files := Some root |} =>
      walkDir (copy_visit templateFilesPath directoryName home) templateFilesPath root
  | _ => panic
  end.

(** [case "gitignore"], lines 245-252. *)
Definition exec_gitignore (properties : RawMessage) (st : LoopState) : M LoopState :=
  match json_Unmarshal_gitignore L properties with
  | None => fail ErrJSON
  | Some gitignoreStep =>
      ret {| packageJsons := packageJsons st;
             gitignoreSteps := gitignoreSteps st ++ [gitignoreStep] |}
  end.

(** One iteration of the loop, lines 88-254: the [switch] has no default. *)
Definition exec_step (templateName directoryName home : string)
    (s : step) (st : LoopState) : M LoopState :=
  if decide (step_Type s = "npm") then exec_npm (step_Properties s) st
  else if decide (step_Type s = "patch") then
    let* _ := exec_patch (step_Properties s) in ret st
  else if decide (step_Type s = "copy") then
    let* _ := exec_copy templateName directoryName home in ret st
  else if decide (step_Type s = "gitignore") then exec_gitignore (step_Properties s) st
  else ret st.

Fixpoint run_steps (templateName directoryName home : string)
    (steps : list step) (st : LoopState) : M LoopState :=
  match steps with
  | [] => ret st
  | s :: rest =>
      let* st' := exec_step templateName directoryName home s st in
      run_steps templateName directoryName home rest st'
  end.

(** ** The two flushes, lines 256-290 *)

(** Go ranges over the map in an unspecified order; the model takes the
    order of [map_to_list]. *)
Fixpoint write_packageJsons (docs : list (string * KeyValuePairs)) : M unit :=
  match docs with
  | [] => ret tt
  | (file, content) :: rest =>
      match json_MarshalIndent L content "" "  " with
      | None => fail ErrJSON
      | Some bytes =>
          let* err := os_WriteFile file bytes in
          match err with
          | Some e => fail (ErrOS e)
          | None => write_packageJsons rest
          end
      end
  end.

Definition flush_packageJsons (pjs : gmap string KeyValuePairs) : M unit :=
  write_packageJsons (map_to_list pjs).

(** Lines 280-290.  [content] is what was read before the loop. *)
Fixpoint write_gitignore (file : Handle) (content : string)
    (steps : list gitignoreStep) : M unit :=
  match steps with
  | [] => ret tt
  | step :: rest =>
      if negb (strings_Contains content (gi_Path step))
      then
        let* _ :=
          (if negb (String.eqb content "") && negb (strings_HasSuffix content LF)
           then let* _ := File_WriteString file LF in ret tt
           else ret tt) in
        let* err := File_WriteString file (LF +:+ gi_Name step +:+ LF +:+ gi_Path step +:+ LF) in
        match err with
        | Some e => fail (ErrOS e)
        | None => write_gitignore file content rest
        end
      else write_gitignore file content rest
  end.

Definition flush_gitignore (steps : list gitignoreStep) : M unit :=
  let gitignoreFilename := ".gitignore" in
  let* file := os_OpenFile_RDWR_CREATE gitignoreFilename in
  match file with
  | inl e => fail (ErrOS e)
  | inr file =>
      let* bytes := File_read EvReadAll file in
      match bytes with
      | inl e => fail (ErrOS e)
      | inr content => write_gitignore file content steps
      end
  end.

(** ** [Create], lines 57-293.  [Val tt] is the nil error. *)

Definition initial_gitignoreSteps : list gitignoreStep :=
  [ {| gi_Name := "# sst"; gi_Path := ".sst" |} ].

Definition Create (templateName home : string) : M unit :=
  let gitignoreSteps0 := initial_gitignoreSteps in
  let* err := os_Stat "sst.config.ts" in
  match err with
  | None => fail ErrConfigExists
  | Some _ =>
      let* currentDirectory := os_Getwd in
      match currentDirectory with
      | None => ret tt
      | Some currentDirectory =>
          let directoryName := strings_ToLower L (filepath_Base L currentDirectory) in
          let* presetBytes := Templates_ReadFile_preset templateName in
          match presetBytes with
          | inl e => fail (ErrReadPreset e)
          | inr presetBytes =>
              match json_Unmarshal_preset L presetBytes with
              | None => fail ErrJSON
              | Some steps =>
                  let* st := run_steps templateName directoryName home steps
                               {| packageJsons := ∅; gitignoreSteps := gitignoreSteps0 |} in
                  let* _ := flush_packageJsons (packageJsons st) in
                  flush_gitignore (gitignoreSteps st)
              end
          end
      end
  end.

End Model.

(** ** Executable stand-ins for the libraries and a few concrete runs

    The stand-in decoders are tables from the raw text to the decoded
    value; HuJSON values, compiled patterns and parsed templates are
    their source text, a patch and a substitution change nothing, a
    template renders as its text, and the registry answers with the bare
    version. *)

Definition stub_render_field (kv : string * jvalue) : string :=
  kv.1 +:+ "=" +:+ (match kv.2 with JString s => s | _ => "?" end) +:+ ";".

Definition stub_render_pair (indent : string) (kv : string * jvalue) : string :=
  indent +:+ kv.1 +:+ ":" +:+
  (match kv.2 with
   | JString s => s
   | JObject m => "{" +:+ String.concat "" (stub_render_field <$> map_to_list m) +:+ "}"
   | _ => "?"
   end) +:+ LF.

Definition stub_libs (presets : gmap string (list step))
    (npms : gmap string npmStep) (patches : gmap string patchStep)
    (gitignores : gmap string gitignoreStep)
    (documents : gmap string KeyValuePairs) : Libs :=
  {| hujson_Value := string;
     regexp_Regexp := string;
     template_Template := string;
     json_Unmarshal_preset := λ b, presets !! b;
     json_Unmarshal_npm := λ b, npms !! b;
     json_Unmarshal_patch := λ b, patches !! b;
     json_Unmarshal_gitignore := λ b, gitignores !! b;
     json_Decode_KeyValuePairs := λ b, documents !! b;
     json_Decode_version := λ b, Some b;
     json_MarshalIndent := λ kv prefix indent,
       Some (String.concat "" (stub_render_pair (prefix +:+ indent) <$> kv));
     hujson_Parse := λ b, Some b;
     hujson_Patch := λ v patch, Some v;
     hujson_Pack := λ v, v;
     regexp_Compile := λ find, Some find;
     regexp_ReplaceAllString := λ re src repl, src;
     template_Parse := λ name src, Some src;
     template_Execute := λ tmpl app home, (tmpl, true);
     strings_ToLower := λ s, s;
     filepath_Base := λ s, s |}.

Definition stub_env (presetBytes : string) (tree : option etree)
    (faulty : gset string) : Env :=
  {| cwd := Some "/work/app";
     Templates := {[ "t" := {| preset_json := Some presetBytes; files := tree |} ]};
     registry := {[ "https://registry.npmjs.org/sst/latest" := "3.0.1" ]};
     wfault := faulty |}.

Definition world_of (files : gmap string node) : World :=
  {| fs := files; trace := [] |}.

(** A template with one file, copied over a file the user already has. *)
Definition copy_libs : Libs :=
  stub_libs {[ "preset" := [ {| step_Type := "copy"; step_Properties := "{}" |} ] ]} ∅ ∅ ∅ ∅.

Definition copy_env : Env :=
  stub_env "preset" (Some (EDir [("a.txt", EFile "from the template")])) ∅.

Definition copy_world : World :=
  world_of {[ "a.txt" := RegularFile "written by the user" ]}.

(** Two ignore steps with one path and two headers, no ignore file yet. *)
Definition twice_libs : Libs :=
  stub_libs
    {[ "preset" := [ {| step_Type := "gitignore"; step_Properties := "g1" |};
                     {| step_Type := "gitignore"; step_Properties := "g2" |} ] ]}
    ∅ ∅
    {[ "g1" := {| gi_Name := "# packages"; gi_Path := "node_modules" |};
       "g2" := {| gi_Name := "# modules"; gi_Path := "node_modules" |} ]}
    ∅.

Definition twice_env : Env := stub_env "preset" None ∅.

(** A patch step on a file that can be truncated but not written. *)
Definition patch_libs : Libs :=
  stub_libs {[ "preset" := [ {| step_Type := "patch"; step_Properties := "p" |} ] ]}
    ∅
    {[ "p" := {| patch_Patch := "[]"; patch_File := "tsconfig.json"; patch_Regex := [] |} ]}
    ∅ ∅.

Definition patch_env : Env := stub_env "preset" None {[ "tsconfig.json" ]}.

Definition patch_world : World :=
  world_of {[ "tsconfig.json" := RegularFile "{ }";
              ".gitignore" := RegularFile ".sst" ]}.

(** A preset with no steps, in an empty directory. *)
Definition empty_libs : Libs := stub_libs {[ "preset" := [] ]} ∅ ∅ ∅ ∅.

Definition empty_env : Env := stub_env "preset" None ∅.

(** Two dependency steps on one file and one field. *)
Definition deps_libs : Libs :=
  stub_libs
    {[ "preset" := [ {| step_Type := "npm"; step_Properties := "n1" |};
                     {| step_Type := "npm"; step_Properties := "n2" |} ] ]}
    {[ "n1" := {| npm_Package := "sst"; npm_Version := "1.0.0";
                  npm_File := "package.json"; npm_Dev := false |};
       "n2" := {| npm_Package := "sst"; npm_Version := "";
                  npm_File := "package.json"; npm_Dev := false |} ]}
    ∅ ∅
    {[ "{ name: app }" := [("name", JString "app")] ]}.

Definition deps_env : Env := stub_env "preset" None ∅.

Definition deps_world : World :=
  world_of {[ "package.json" := RegularFile "{ name: app }" ]}.

(** A patch step whose file is missing, then a step of an unknown type. *)
Definition skip_libs : Libs :=
  stub_libs
    {[ "preset" := [ {| step_Type := "patch"; step_Properties := "p" |};
                     {| step_Type := "yarn"; step_Properties := "not json" |} ] ]}
    ∅
    {[ "p" := {| patch_Patch := "[]"; patch_File := "tsconfig.json"; patch_Regex := [] |} ]}
    ∅ ∅.

Definition skip_env : Env := stub_env "preset" None ∅.

(** A directory that is already initialised, and an environment whose
    working directory cannot be determined. *)
Definition initialised_world : World :=
  world_of {[ "sst.config.ts" := RegularFile "export default {}" ]}.

Definition lost_env : Env :=
  {| cwd := None; Templates := ∅; registry := ∅; wfault := ∅ |}.

Definition yarn_step : step := {| step_Type := "yarn"; step_Properties := "not json" |}.

Definition tsconfig_patch : patchStep :=
  {| patch_Patch := "[]"; patch_File := "tsconfig.json"; patch_Regex := [] |}.

Definition tsconfig_step : step := {| step_Type := "patch"; step_Properties := "p" |}.

(** A patch step whose path goes through a regular file. *)
Definition below_patch : patchStep :=
  {| patch_Patch := "[]"; patch_File := "a.txt/tsconfig.json"; patch_Regex := [] |}.

Definition below_libs : Libs :=
  stub_libs {[ "preset" := [ tsconfig_step ] ]} ∅ {[ "p" := below_patch ]} ∅ ∅.

Definition below_world : World :=
  world_of {[ "a.txt" := RegularFile "notes" ]}.

Definition initial_state : LoopState :=
  {| packageJsons := ∅; gitignoreSteps := initial_gitignoreSteps |}.

(** What [io.ReadAll] finds in the ignore file once it is open: nothing
    when the file had to be created. *)
Definition gitignore_content (w : World) : option string :=
  match fs w !! ".gitignore" with
  | None => Some ""
  | Some (RegularFile content) => Some content
  | Some Directory => None
  end.

(** The texts a trace writes through a handle on the ignore file. *)
Definition gitignore_writes (T : list event) : list string :=
  omap (λ e, match e with
             | EvWriteString path data =>
                 if decide (path = ".gitignore") then Some data else None
             | _ => None
             end) T.

(** A directory whose ignore file already lists [.sst]. *)
Definition ignored_world : World :=
  world_of {[ ".gitignore" := RegularFile ".sst" ]}.

(** The text written for the default section. *)
Definition default_section : string := LF +:+ "# sst" +:+ LF +:+ ".sst" +:+ LF.

(** The ignore file after the flush of the default section alone. *)
Definition with_default_section (content : string) : string :=
  if strings_Contains content ".sst" then content
  else content
       +:+ (if negb (String.eqb content "") && negb (strings_HasSuffix content LF)
            then LF else "")
       +:+ default_section.

(** [emits P m]: whatever [m] returns, the world it leaves has the
    trace it was given followed by events that all satisfy [P]. *)
Definition emits {A} (P : event → Prop) (m : M A) : Prop :=
  ∀ w r w', m w = (r, w') → ∃ evs, trace w' = trace w ++ evs ∧ Forall P evs.

(** The events of the steps: every call but the three the flushes make. *)
Definition is_step_event (e : event) : Prop :=
  match e with
  | EvWriteFile _ _ | EvOpenFile _ | EvReadAll _ => False
  | _ => True
  end.

(** The write of one accumulated document, indented by two spaces. *)
Definition is_config_write (L : Libs) (doc : string * KeyValuePairs) (e : event) : Prop :=
  ∃ bytes, json_MarshalIndent L doc.2 "" "  " = Some bytes ∧ e = EvWriteFile doc.1 bytes.

Definition is_gitignore_write (e : event) : Prop :=
  ∃ data, e = EvWriteString ".gitignore" data.

(** The version a dependency step ends up with: the one it names, or
    the one the registry answers. *)
Definition version_of (L : Libs) (env : Env) (npm : npmStep) : option string :=
  if decide (npm_Version npm = "")
  then registry env !! ("https://registry.npmjs.org/" +:+ npm_Package npm +:+ "/latest")
         ≫= json_Decode_version L
  else Some (npm_Version npm).

(** The dependencies a document holds under a field, read the way
    [Create] finds its target. *)
Definition field_map (field : string) (doc : KeyValuePairs) : option (gmap string jvalue) :=
  match find_target field doc 0 None with
  | Val (Some i) =>
      match doc !! i with
      | Some (_, JObject m) => Some m
      | _ => None
      end
  | _ => None
  end.

(** How a dependency step changes a document: under the field, the
    old mapping with the package set to the version; as pairs, the old
    keys, followed by the field when it was not there; under any other
    field, what was there. *)
Definition dep_set (field package version : string) (doc0 doc : KeyValuePairs) : Prop :=
  field_map field doc
    = Some (<[package := JString version]> (default ∅ (field_map field doc0)))
  ∧ doc.*1 = doc0.*1 ++ match field_map field doc0 with Some _ => [] | None => [field] end
  ∧ ∀ field', field' ≠ field → field_map field' doc = field_map field' doc0.

(** The value registered for a package, under a field of the document
    accumulated for a file. *)
Definition dep_at (pjs : gmap string KeyValuePairs) (file field package : string)
    : option jvalue :=
  match pjs !! file with
  | Some doc =>
      match field_map field doc with
      | Some m => m !! package
      | None => None
      end
  | None => None
  end.

(** A step that registers that package, under that field of that file. *)
Definition targets (L : Libs) (s : step) (file field package : string) : Prop :=
  step_Type s = "npm"
  ∧ ∃ npm, json_Unmarshal_npm L (step_Properties s) = Some npm
           ∧ npm_File npm = file ∧ npm_field npm = field ∧ npm_Package npm = package.

(** The conclusion of C7 for a run from [w] to [w']. *)
Definition flushes_in_order (L : Libs) (env : Env) (templateName home : string)
    (w w' : World) : Prop :=
  (cwd env = None ∧ trace w' = trace w ++ [EvStat "sst.config.ts"; EvGetwd])
  ∨ ∃ d presetBytes steps st w1 T_steps T_config T_ignore,
      cwd env = Some d
      ∧ json_Unmarshal_preset L presetBytes = Some steps
      ∧ run_steps L env templateName (strings_ToLower L (filepath_Base L d)) home steps
          initial_state
          {| fs := fs w;
             trace := trace w ++ [EvStat "sst.config.ts"; EvGetwd;
                        EvTemplatesReadFile (filepath_Join3 "templates" templateName "preset.json")] |}
        = (Val st, w1)
      ∧ trace w1 = trace w ++ [EvStat "sst.config.ts"; EvGetwd;
                      EvTemplatesReadFile (filepath_Join3 "templates" templateName "preset.json")]
                    ++ T_steps
      ∧ trace w' = trace w1 ++ T_config
                    ++ EvOpenFile ".gitignore" :: EvReadAll ".gitignore" :: T_ignore
      ∧ Forall is_step_event T_steps
      ∧ Forall2 (is_config_write L) (map_to_list (packageJsons st)) T_config
      ∧ Forall is_gitignore_write T_ignore.

(** The writes of that flush. *)
Definition default_section_events (content : string) : list event :=
  if strings_Contains content ".sst" then []
  else (if negb (String.eqb content "") && negb (strings_HasSuffix content LF)
        then [EvWriteString ".gitignore" LF] else [])
       ++ [EvWriteString ".gitignore" default_section].

(** ** Notions used to state further properties of [Create] *)

(** [keeps_fs m]: whatever [m] returns, the file system is as it was. *)
Definition keeps_fs {A} (m : M A) : Prop :=
  ∀ w r w', m w = (r, w') → fs w' = fs w.

(** The text of one ignore section, as line 285 writes it. *)
Definition gitignore_section (step : gitignoreStep) : string :=
  LF +:+ gi_Name step +:+ LF +:+ gi_Path step +:+ LF.

(** The newline of line 283, decided on the content read before the loop. *)
Definition gitignore_separator (content : string) : string :=
  if negb (String.eqb content "") && negb (strings_HasSuffix content LF) then LF else "".

(** Everything the loop of lines 280-290 appends when no write fails. *)
Fixpoint gitignore_appended (content : string) (steps : list gitignoreStep) : string :=
  match steps with
  | [] => ""
  | step :: rest =>
      if strings_Contains content (gi_Path step)
      then gitignore_appended content rest
      else gitignore_separator content +:+ gitignore_section step
           +:+ gitignore_appended content rest
  end.

(** The ignore sections a pipeline registers, in order: the payloads
    of its gitignore steps. *)
Definition registered_sections (L : Libs) (steps : list step) : list gitignoreStep :=
  omap (λ s, if decide (step_Type s = "gitignore")
             then json_Unmarshal_gitignore L (step_Properties s)
             else None) steps.

(** Two sections with one path, as the ignore steps of [twice_libs]
    register them after the default one. *)
Definition twice_sections : list gitignoreStep :=
  initial_gitignoreSteps
  ++ [ {| gi_Name := "# packages"; gi_Path := "node_modules" |};
       {| gi_Name := "# modules"; gi_Path := "node_modules" |} ].

(** A directory whose ignore file ends without a newline. *)
Definition unterminated_world : World :=
  world_of {[ ".gitignore" := RegularFile "dist" ]}.

(** The state a loop leaves, for a loop that returned. *)
Definition state_of (r : result LoopState * World) : LoopState :=
  match r.1 with
  | Val st => st
  | _ => initial_state
  end.

Definition is_object (v : jvalue) : bool :=
  match v with
  | JObject _ => true
  | _ => false
  end.

(** The two dependency steps of [deps_libs], and a third library record
    in which [package.json] holds a [dependencies] that is not an
    object. *)
Definition deps_step1 : step := {| step_Type := "npm"; step_Properties := "n1" |}.
Definition deps_step2 : step := {| step_Type := "npm"; step_Properties := "n2" |}.

Definition deps_npm1 : npmStep :=
  {| npm_Package := "sst"; npm_Version := "1.0.0";
     npm_File := "package.json"; npm_Dev := false |}.

Definition deps_npm2 : npmStep :=
  {| npm_Package := "sst"; npm_Version := "";
     npm_File := "package.json"; npm_Dev := false |}.

Definition badfield_libs : Libs :=
  stub_libs
    {[ "preset" := [ deps_step1 ] ]}
    {[ "n1" := deps_npm1 ]}
    ∅ ∅
    {[ "{ name: app }" := [("name", JString "app"); ("dependencies", JString "none")] ]}.

(** A registry that cannot be reached. *)
Definition offline_env : Env :=
  {| cwd := Some "/work/app";
     Templates := {[ "t" := {| preset_json := Some "preset"; files := None |} ]};
     registry := ∅;
     wfault := ∅ |}.

(** The files a trace opens with [os.Open]. *)
Definition opened (T : list event) : list string :=
  omap (λ e, match e with EvOpen path => Some path | _ => None end) T.

Definition is_not_open (e : event) : Prop :=
  match e with
  | EvOpen _ => False
  | _ => True
  end.

(** No accumulated document is the empty slice. *)
Definition docs_nonempty (pjs : gmap string KeyValuePairs) : Prop :=
  ∀ file doc, pjs !! file = Some doc → doc ≠ [].

(** The world after the three calls [Create] makes before the loop. *)
Definition after_prelude (templateName : string) (w : World) : World :=
  {| fs := fs w;
     trace := trace w ++ [EvStat "sst.config.ts"; EvGetwd;
                EvTemplatesReadFile (filepath_Join3 "templates" templateName "preset.json")] |}.

Definition is_not_request (e : event) : Prop :=
  match e with
  | EvHttpGet _ => False
  | _ => True
  end.

(** A step that, as a dependency step, names its version. *)
Definition pinned (L : Libs) (s : step) : Prop :=
  step_Type s = "npm" →
  ∀ npm, json_Unmarshal_npm L (step_Properties s) = Some npm → npm_Version npm ≠ "".

Definition is_WriteFile (e : event) : Prop :=
  match e with
  | EvWriteFile _ _ => True
  | _ => False
  end.

(** A preset whose bytes do not decode, and one that is not in the store. *)
Definition malformed_libs : Libs := stub_libs ∅ ∅ ∅ ∅ ∅.

(** A directory in which [package.json] cannot be written. *)
Definition readonly_deps_env : Env := stub_env "preset" None {[ "package.json" ]}.

(** The preset of [deps_libs] with the pinned step only. *)
Definition pinned_libs : Libs :=
  stub_libs {[ "preset" := [ deps_step1 ] ]} {[ "n1" := deps_npm1 ]} ∅ ∅
    {[ "{ name: app }" := [("name", JString "app")] ]}.

(** The destination of a template path: lines 196 and 212. *)
Definition copy_dest (templateFilesPath path : string) : string :=
  filepath_Join_dot (strings_TrimPrefix path templateFilesPath).

(** A patch step with two substitutions, the second of which does not
    compile in [badregex_libs]. *)
Definition regex_patch : patchStep :=
  {| patch_Patch := "[]"; patch_File := "tsconfig.json";
     patch_Regex := [("strict", "loose"); ("(", "")] |}.

Definition regex_libs : Libs :=
  stub_libs {[ "preset" := [ tsconfig_step ] ]} ∅ {[ "p" := regex_patch ]} ∅ ∅.

Definition badregex_libs : Libs :=
  {| hujson_Value := string;
     regexp_Regexp := string;
     template_Template := string;
     json_Unmarshal_preset := json_Unmarshal_preset regex_libs;
     json_Unmarshal_npm := json_Unmarshal_npm regex_libs;
     json_Unmarshal_patch := json_Unmarshal_patch regex_libs;
     json_Unmarshal_gitignore := json_Unmarshal_gitignore regex_libs;
     json_Decode_KeyValuePairs := json_Decode_KeyValuePairs regex_libs;
     json_Decode_version := json_Decode_version regex_libs;
     json_MarshalIndent := json_MarshalIndent regex_libs;
     hujson_Parse := λ b, Some b;
     hujson_Patch := λ v patch, Some v;
     hujson_Pack := λ v, v;
     regexp_Compile := λ find, if String.eqb find "(" then None else Some find;
     regexp_ReplaceAllString := λ re src repl, src;
     template_Parse := λ name src, if String.eqb src "{{" then None else Some src;
     template_Execute := λ tmpl app home, (tmpl, true);
     strings_ToLower := λ s, s;
     filepath_Base := λ s, s |}.

Definition tsconfig_world : World :=
  world_of {[ "tsconfig.json" := RegularFile "{ strict }" ]}.

(** The entries of a directory, as [fs.WalkDir] goes through them. *)
Fixpoint walkEntries (fn : string → etree → M unit) (path : string)
    (entries : list (string * etree)) : M unit :=
  match entries with
  | [] => ret tt
  | (name, child) :: rest =>
      let* _ := walkDir fn (path +:+ "/" +:+ name) child in
      walkEntries fn path rest
  end.

(** The files of a template tree with the paths the walk gives them,
    in the order of the walk. *)
Fixpoint tree_files (path : string) (d : etree) : list (string * string) :=
  match d with
  | EFile src => [(path, src)]
  | EDir entries =>
      (fix entries_files (es : list (string * etree)) : list (string * string) :=
         match es with
         | [] => []
         | (name, child) :: es' =>
             tree_files (path +:+ "/" +:+ name) child ++ entries_files es'
         end) entries
  end.

Fixpoint entries_files (path : string) (entries : list (string * etree))
    : list (string * string) :=
  match entries with
  | [] => []
  | (name, child) :: rest =>
      tree_files (path +:+ "/" +:+ name) child ++ entries_files path rest
  end.

(** The destinations of a list of template files. *)
Definition copy_dests (templateFilesPath : string) (files : list (string * string))
    : list string :=
  (λ f, copy_dest templateFilesPath f.1) <$> files.

(** A template tree with a nested directory. *)
Definition nested_tree : etree :=
  EDir [ ("sst.config.ts", EFile "config for the app");
         ("src", EDir [ ("index.ts", EFile "entry point") ]) ].

Definition nested_env : Env := stub_env "preset" (Some nested_tree) ∅.

(** A document that holds [dependencies] twice. *)
Definition twice_dependencies : KeyValuePairs :=
  [ ("dependencies", JObject {[ "old" := JString "0.1.0" ]});
    ("name", JString "app");
    ("dependencies", JObject {[ "sst" := JString "1.0.0" ]});
    ("version", JString "1") ].

(** The pairs of a document after a dependency step, from the pairs
    before it.  Either the last pair with the field as its key holds an
    object, and that object takes the entry while every other pair
    stays the pair it was; or no pair has that key, and one pair is
    appended, the field with the one entry. *)
Definition dep_pairs (field package version : string) (doc0 doc : KeyValuePairs) : Prop :=
  (∃ i m, doc0 !! i = Some (field, JObject m)
          ∧ (∀ j kv, (i < j)%nat → doc0 !! j = Some kv → kv.1 ≠ field)
          ∧ doc = <[i := (field, JObject (<[package := JString version]> m))]> doc0)
  ∨ (Forall (λ kv, kv.1 ≠ field) doc0
     ∧ doc = doc0 ++ [(field, JObject (<[package := JString version]> ∅))]).

(** What a dependency step that returned did to the accumulated
    documents: it took the document of its file (the accumulated one,
    or the one decoded from the file when there was none), set the
    package to the version it resolved, and stored the result. *)
Definition npm_registered (L : Libs) (env : Env) (npm : npmStep)
    (st st' : LoopState) (w : World) : Prop :=
  ∃ doc0 doc v,
    ((packageJsons st !! npm_File npm = Some doc0 ∧ doc0 ≠ [])
     ∨ (default [] (packageJsons st !! npm_File npm) = []
        ∧ ∃ data, node_at (fs w) (npm_File npm) = Some (RegularFile data)
                  ∧ json_Decode_KeyValuePairs L data = Some doc0))
    ∧ version_of L env npm = Some v
    ∧ dep_pairs (npm_field npm) (npm_Package npm) v doc0 doc
    ∧ dep_set (npm_field npm) (npm_Package npm) v doc0 doc
    ∧ packageJsons st' = <[npm_File npm := doc]> (packageJsons st).

(** The conclusion of C4 for a run from [w] to [w'] over the steps
    [pre ++ s1 :: mid ++ s2 :: post], where [s1] and [s2] are the
    dependency steps [n1] and [n2] on one file and one field.

    The loop returned, and each of the two steps set its package in the
    document of the file.  The second step found the mapping the first
    had assigned into, assigned into it, and added no pair.  The
    document [doc] the loop ended with is the one written to the file;
    under the field it has an entry for both packages; the entry of the
    second package is the version of [s2] unless a later step registers
    that package again, and with two package names the entry of the
    first is the version of [s1] unless a later step registers it
    again. *)
Definition two_deps_flushed (L : Libs) (env : Env) (templateName home d : string)
    (pre mid post : list step) (s1 s2 : step) (n1 n2 : npmStep) (w w' : World) : Prop :=
  let file := npm_File n1 in
  let field := npm_field n1 in
  let dir := strings_ToLower L (filepath_Base L d) in
  ∃ st0 w0 st1 w1 st2 w2 st3 w3 st w4,
    run_steps L env templateName dir home pre initial_state (after_prelude templateName w)
      = (Val st0, w0)
    ∧ exec_step L env templateName dir home s1 st0 w0 = (Val st1, w1)
    ∧ run_steps L env templateName dir home mid st1 w1 = (Val st2, w2)
    ∧ exec_step L env templateName dir home s2 st2 w2 = (Val st3, w3)
    ∧ run_steps L env templateName dir home post st3 w3 = (Val st, w4)
    ∧ npm_registered L env n1 st0 st1 w0
    ∧ npm_registered L env n2 st2 st3 w2
    ∧ ∃ v1 v2 doc2 m2 doc3 doc bytes m,
        version_of L env n1 = Some v1
        ∧ version_of L env n2 = Some v2
        ∧ packageJsons st2 !! file = Some doc2
        ∧ field_map field doc2 = Some m2
        ∧ is_Some (m2 !! npm_Package n1)
        ∧ packageJsons st3 !! file = Some doc3
        ∧ field_map field doc3 = Some (<[npm_Package n2 := JString v2]> m2)
        ∧ doc3.*1 = doc2.*1
        ∧ packageJsons st !! file = Some doc
        ∧ json_MarshalIndent L doc "" "  " = Some bytes
        ∧ EvWriteFile file bytes ∈ trace w'
        ∧ (file ≠ ".gitignore" → fs w' !! file = Some (RegularFile bytes))
        ∧ field_map field doc = Some m
        ∧ is_Some (m !! npm_Package n1)
        ∧ is_Some (m !! npm_Package n2)
        ∧ (Forall (λ s, ¬ targets L s file field (npm_Package n2)) post →
           m !! npm_Package n2 = Some (JString v2))
        ∧ (npm_Package n1 ≠ npm_Package n2 →
           Forall (λ s, ¬ targets L s file field (npm_Package n1)) (mid ++ post) →
           m !! npm_Package n1 = Some (JString v1)).

(** Two dependency steps on one package among steps of other kinds:
    a step of an unknown type, a patch of a missing file, and a
    dependency step for another package. *)
Definition mixed_step3 : step := {| step_Type := "npm"; step_Properties := "n3" |}.

Definition mixed_libs : Libs :=
  stub_libs
    {[ "preset" := [ yarn_step; deps_step1; tsconfig_step; deps_step2; mixed_step3 ] ]}
    {[ "n1" := deps_npm1; "n2" := deps_npm2;
       "n3" := {| npm_Package := "typescript"; npm_Version := "5.0.0";
                  npm_File := "package.json"; npm_Dev := false |} ]}
    {[ "p" := tsconfig_patch ]}
    ∅
    {[ "{ name: app }" := [("name", JString "app")] ]}.

(** ** Basic facts *)

Lemma node_at_marker (f : gmap string node) :
  node_at f "sst.config.ts" = f !! "sst.config.ts".
Proof. reflexivity. Qed.

Lemma node_at_gitignore (f : gmap string node) :
  node_at f ".gitignore" = f !! ".gitignore".
Proof. reflexivity. Qed.

#[global] Arguments node_at : simpl never.

(** Unfold the monad and reduce the record projections it exposes. *)
Ltac munfold :=
  cbv [bind ret fail panic lift emit get_fs put_fs];
  cbn [fst snd fs trace packageJsons gitignoreSteps].

(** The error for a path with no entry is not the exists error. *)
Lemma os_IsExist_missing (f : gmap string node) (path : string) :
  os_IsExist (Some (missing_error f path)) = false.
Proof. unfold missing_error. destruct (below_file f path); reflexivity. Qed.

(** [os.Stat] never yields an error [os.IsExist] accepts. *)
Lemma os_Stat_never_IsExist (path : string) (w w' : World) (r : result (option oserr)) :
  os_Stat path w = (r, w') →
  ∃ err, r = Val err ∧ os_IsExist err = false.
Proof.
  unfold os_Stat. munfold.
  destruct (node_at (fs w) path); intros [= <- _]; eexists; (split; [reflexivity |]);
    [reflexivity | apply os_IsExist_missing].
Qed.

Ltac munfold_in H :=
  cbv [bind ret fail panic lift emit get_fs put_fs] in H;
  cbn [fst snd fs trace packageJsons gitignoreSteps] in H.

Lemma bind_Val_inv {A B} (m : M A) (k : A → M B) (w w' : World) (b : B) :
  bind m k w = (Val b, w') →
  ∃ a w1, m w = (Val a, w1) ∧ k a w1 = (Val b, w').
Proof.
  unfold bind. destruct (m w) as [[a|e|] w1]; intros H; try discriminate.
  exists a, w1. split; [reflexivity | exact H].
Qed.

Lemma bind_eq {A B} (m : M A) (k : A → M B) (w w1 : World) (a : A) :
  m w = (Val a, w1) → bind m k w = k a w1.
Proof. intros H. unfold bind. rewrite H. reflexivity. Qed.

Lemma run_steps_cons L env t d h s rest st w :
  run_steps L env t d h (s :: rest) st w =
  match exec_step L env t d h s st w with
  | (Val st', w') => run_steps L env t d h rest st' w'
  | (Err e, w') => (Err e, w')
  | (Panic, w') => (Panic, w')
  end.
Proof. reflexivity. Qed.

(** ** The marker file *)

(** C3. When [sst.config.ts] exists, [Create] returns [ErrConfigExists];
    the file system is unchanged and the only call made is the [os.Stat]
    on the marker: the preset is not read and no request is sent.  In
    particular a run in the directory any earlier run left initialised
    fails this way and leaves every file as it was. *)
Theorem Create_marker_exists (L : Libs) (env : Env) (templateName home : string) (w : World) :
  is_Some (fs w !! "sst.config.ts") →
  Create L env templateName home w =
    (Err ErrConfigExists, {| fs := fs w; trace := trace w ++ [EvStat "sst.config.ts"] |})
  ∧ (∀ w0 r t0 h0, Create L env t0 h0 w0 = (r, w) →
       (Create L env templateName home w).1 = Err ErrConfigExists
       ∧ fs (Create L env templateName home w).2 = fs w).
Proof.
  intros [n Hn].
  assert (Create L env templateName home w =
    (Err ErrConfigExists, {| fs := fs w; trace := trace w ++ [EvStat "sst.config.ts"] |})) as E.
  { unfold Create, os_Stat. munfold.
    rewrite node_at_marker, Hn. reflexivity. }
  split; [exact E |].
  intros w0 r t0 h0 _. rewrite E. split; reflexivity.
Qed.

(** The run that does not find its working directory. *)
Lemma Create_no_cwd (L : Libs) (env : Env) (templateName home : string) (w : World) :
  fs w !! "sst.config.ts" = None →
  cwd env = None →
  Create L env templateName home w =
    (Val tt, {| fs := fs w; trace := trace w ++ [EvStat "sst.config.ts"; EvGetwd] |}).
Proof.
  intros Hm Hc.
  unfold Create, os_Stat, os_Getwd. munfold.
  rewrite node_at_marker, Hm, Hc. cbn [fs trace].
  rewrite <- app_assoc. reflexivity.
Qed.

(** C9. When the marker is absent and the working directory cannot be
    determined, [Create] returns nil at once: the calls made are the
    [os.Stat] and the [os.Getwd], nothing is read and nothing written. *)
Theorem Create_getwd_fails (L : Libs) (env : Env) (templateName home : string) (w : World) :
  fs w !! "sst.config.ts" = None →
  cwd env = None →
  Create L env templateName home w =
    (Val tt, {| fs := fs w; trace := trace w ++ [EvStat "sst.config.ts"; EvGetwd] |}).
Proof. apply Create_no_cwd. Qed.

Lemma Create_marker_exists_witness :
  is_Some (fs initialised_world !! "sst.config.ts")
  ∧ Create empty_libs empty_env "t" "home" initialised_world =
      (Err ErrConfigExists,
       {| fs := fs initialised_world; trace := [EvStat "sst.config.ts"] |}).
Proof.
  assert (is_Some (fs initialised_world !! "sst.config.ts")) as H
    by (vm_compute; eexists; reflexivity).
  split; [exact H |].
  exact (proj1 (Create_marker_exists empty_libs empty_env "t" "home" initialised_world H)).
Defined.

Lemma Create_getwd_fails_witness :
  Create empty_libs lost_env "t" "home" (world_of ∅) =
    (Val tt, {| fs := ∅; trace := [EvStat "sst.config.ts"; EvGetwd] |}).
Proof.
  apply (Create_getwd_fails empty_libs lost_env "t" "home" (world_of ∅)); reflexivity.
Defined.

(** ** Steps that are skipped *)

(** C10. A step whose type is none of npm, patch, copy, gitignore does
    nothing: whatever the decoders of the JSON library would make of its
    properties, the loop state and the world are unchanged and no error
    is returned, so a pipeline with the step runs as the pipeline
    without it. *)
Theorem unknown_step_skipped (L : Libs) (env : Env) (templateName directoryName home : string)
    (s : step) (st : LoopState) (w : World) :
  step_Type s ∉ ["npm"; "patch"; "copy"; "gitignore"] →
  exec_step L env templateName directoryName home s st w = (Val st, w)
  ∧ ∀ pre post st0 w0,
      run_steps L env templateName directoryName home (pre ++ s :: post) st0 w0 =
      run_steps L env templateName directoryName home (pre ++ post) st0 w0.
Proof.
  intros Hty.
  assert (∀ st1 w1, exec_step L env templateName directoryName home s st1 w1 = (Val st1, w1)) as E.
  { intros st1 w1. unfold exec_step.
    repeat case_decide; try reflexivity; exfalso; apply Hty;
      match goal with H : step_Type s = _ |- _ => rewrite H end;
      repeat constructor. }
  split; [apply E |].
  induction pre as [|a pre IH]; intros post st0 w0.
  - rewrite app_nil_l, run_steps_cons, E. reflexivity.
  - rewrite <- !app_comm_cons, !run_steps_cons.
    destruct (exec_step L env templateName directoryName home a st0 w0) as [[st1| |] w1];
      [apply IH | reflexivity | reflexivity].
Qed.

Lemma unknown_step_skipped_witness :
  exec_step skip_libs skip_env "t" "app" "home" yarn_step initial_state (world_of ∅) =
    (Val initial_state, world_of ∅).
Proof.
  apply (unknown_step_skipped skip_libs skip_env "t" "app" "home" yarn_step).
  apply (bool_decide_unpack _). vm_compute. exact I.
Defined.

(** A target with no entry whose path goes through a regular file:
    [os.ReadFile] fails with ENOTDIR, which [os.IsNotExist] does not
    accept, so the step returns the error and [Create] returns it
    too, with nothing written. *)
Lemma patch_below_file_counterexample :
  node_at (fs below_world) (patch_File below_patch) = None
  ∧ exec_step below_libs skip_env "t" "app" "home" tsconfig_step initial_state below_world
    = (Err (ErrOS ENOTDIR),
       {| fs := fs below_world; trace := [EvReadFile "a.txt/tsconfig.json"] |})
  ∧ (Create below_libs skip_env "t" "home" below_world).1 = Err (ErrOS ENOTDIR)
  ∧ fs (Create below_libs skip_env "t" "home" below_world).2 = fs below_world.
Proof. repeat split; vm_compute; reflexivity. Qed.

(** C6. A patch step whose file has no entry makes one call, the
    failed [os.ReadFile], and leaves the file system as it was.  When
    no name on the path is a regular file the error is the not-exist
    one: the step returns no error and the loop goes on with the steps
    after it.  When the path goes through a regular file the error is
    ENOTDIR and the step returns it. *)
Theorem patch_missing_file_skipped (L : Libs) (env : Env)
    (templateName directoryName home : string)
    (s : step) (patch : patchStep) (rest : list step) (st : LoopState) (w : World) :
  step_Type s = "patch" →
  json_Unmarshal_patch L (step_Properties s) = Some patch →
  node_at (fs w) (patch_File patch) = None →
  let w1 := {| fs := fs w; trace := trace w ++ [EvReadFile (patch_File patch)] |} in
  (below_file (fs w) (patch_File patch) = false →
   exec_step L env templateName directoryName home s st w = (Val st, w1)
   ∧ run_steps L env templateName directoryName home (s :: rest) st w =
     run_steps L env templateName directoryName home rest st w1)
  ∧ (below_file (fs w) (patch_File patch) = true →
     exec_step L env templateName directoryName home s st w = (Err (ErrOS ENOTDIR), w1)
     ∧ run_steps L env templateName directoryName home (s :: rest) st w =
       (Err (ErrOS ENOTDIR), w1)).
Proof.
  intros Hty Hdec Hmiss w1.
  assert (exec_step L env templateName directoryName home s st w =
          if below_file (fs w) (patch_File patch)
          then (Err (ErrOS ENOTDIR), w1) else (Val st, w1)) as E.
  { unfold exec_step. rewrite Hty.
    rewrite (decide_False (P := "patch" = "npm")) by discriminate.
    rewrite (decide_True (P := "patch" = "patch")) by reflexivity.
    unfold exec_patch. rewrite Hdec. unfold os_ReadFile. munfold.
    rewrite Hmiss. unfold missing_error.
    destruct (below_file (fs w) (patch_File patch)); reflexivity. }
  split; intros Hb; rewrite Hb in E; (split; [exact E |]);
    rewrite run_steps_cons, E; reflexivity.
Qed.

Lemma patch_missing_file_skipped_witness :
  (exec_step skip_libs skip_env "t" "app" "home" tsconfig_step initial_state (world_of ∅) =
     (Val initial_state, {| fs := ∅; trace := [EvReadFile "tsconfig.json"] |}))
  ∧ (exec_step below_libs skip_env "t" "app" "home" tsconfig_step initial_state below_world =
       (Err (ErrOS ENOTDIR),
        {| fs := fs below_world; trace := [EvReadFile "a.txt/tsconfig.json"] |})).
Proof.
  split.
  - apply (patch_missing_file_skipped skip_libs skip_env "t" "app" "home"
             tsconfig_step tsconfig_patch [] initial_state (world_of ∅));
      reflexivity.
  - apply (patch_missing_file_skipped below_libs skip_env "t" "app" "home"
             tsconfig_step below_patch [] initial_state below_world);
      reflexivity.
Defined.

(** ** Runs that show a defect *)

(** C1. The copy step overwrites a file the user already has: the test
    on the result of [os.Stat] is [os.IsExist], which no result of
    [os.Stat] satisfies, so [os.Create] truncates the file and the
    rendered template replaces its content. *)
Theorem copy_overwrites_existing_file :
  fs copy_world !! "a.txt" = Some (RegularFile "written by the user")
  ∧ ∃ w', Create copy_libs copy_env "t" "home" copy_world = (Val tt, w')
          ∧ fs w' !! "a.txt" = Some (RegularFile "from the template").
Proof.
  split; [reflexivity |].
  exists (Create copy_libs copy_env "t" "home" copy_world).2.
  split; vm_compute; reflexivity.
Qed.

(** C2. Two ignore steps with the same path and different headers are
    both written: each is compared with the content read before the
    loop, which the writes of the loop do not change. *)
Theorem duplicate_ignore_path_written_twice :
  ∃ w' content,
    Create twice_libs twice_env "t" "home" (world_of ∅) = (Val tt, w')
    ∧ fs w' !! ".gitignore" = Some (RegularFile content)
    ∧ occurrences "node_modules" content = 2.
Proof.
  exists (Create twice_libs twice_env "t" "home" (world_of ∅)).2.
  eexists. split; [| split]; vm_compute; reflexivity.
Qed.

(** C8. In a patch step a failed write of the patched text goes
    unnoticed: [Create] returns nil and the file is left truncated. *)
Theorem patch_write_failure_ignored :
  (∀ w, (File_WriteString patch_env "tsconfig.json" "{ }" w).1 = Val (Some ENOSPC))
  ∧ ∃ w', Create patch_libs patch_env "t" "home" patch_world = (Val tt, w')
          ∧ last (trace (run_steps patch_libs patch_env "t" "/work/app" "home"
                           [tsconfig_step] initial_state patch_world).2)
              = Some (EvWriteString "tsconfig.json" "{ }")
          ∧ fs w' !! "tsconfig.json" = Some (RegularFile "").
Proof.
  split; [intros w; reflexivity |].
  exists (Create patch_libs patch_env "t" "home" patch_world).2.
  split; [| split]; vm_compute; reflexivity.
Qed.

(** ** A preset without steps *)

(** C5 as stated fails: with a preset without steps and no marker file,
    but an ignore file that already contains [.sst], [Create] returns nil
    and writes nothing to the ignore file, so the default section is not
    written once. *)
Lemma zero_steps_nothing_written_counterexample :
  fs ignored_world !! "sst.config.ts" = None
  ∧ json_Unmarshal_preset empty_libs "preset" = Some []
  ∧ ¬ (∀ w', Create empty_libs empty_env "t" "home" ignored_world = (Val tt, w') →
             length (gitignore_writes (trace w')) = 1).
Proof.
  split; [reflexivity |]. split; [reflexivity |].
  intros H.
  specialize (H (Create empty_libs empty_env "t" "home" ignored_world).2).
  assert (length (gitignore_writes
                    (trace (Create empty_libs empty_env "t" "home" ignored_world).2)) = 0)
    as N by (vm_compute; reflexivity).
  rewrite H in N; [discriminate | vm_compute; reflexivity].
Qed.

(** In an empty directory the ignore file such a preset leaves is the
    default section, whose first line is empty: the header is on the
    second line. *)
Lemma zero_steps_first_line_empty :
  ∃ w', Create empty_libs empty_env "t" "home" (world_of ∅) = (Val tt, w')
        ∧ fs w' !! ".gitignore" = Some (RegularFile default_section)
        ∧ gitignore_writes (trace w') = [default_section]
        ∧ strings_HasPrefix default_section "# sst" = false
        ∧ strings_HasPrefix default_section (LF +:+ "# sst" +:+ LF) = true.
Proof.
  exists (Create empty_libs empty_env "t" "home" (world_of ∅)).2.
  repeat split; vm_compute; reflexivity.
Qed.

Lemma File_WriteString_ok (env : Env) (h data old : string) (w : World) :
  h ∉ wfault env →
  node_at (fs w) h = Some (RegularFile old) →
  File_WriteString env h data w =
    (Val None, {| fs := <[h := RegularFile (old +:+ data)]> (fs w);
                  trace := trace w ++ [EvWriteString h data] |}).
Proof.
  intros Hf Hn. unfold File_WriteString. munfold.
  rewrite decide_False by exact Hf. rewrite Hn. reflexivity.
Qed.

Lemma string_app_assoc (a b c : string) : (a +:+ b) +:+ c = a +:+ b +:+ c.
Proof.
  induction a as [|x a IH]; [reflexivity |].
  change (String x ((a +:+ b) +:+ c) = String x (a +:+ b +:+ c)). rewrite IH. reflexivity.
Qed.

(** The flush of the default section through an open handle. *)
Lemma write_gitignore_default (env : Env) (content : string) (w : World) :
  ".gitignore" ∉ wfault env →
  fs w !! ".gitignore" = Some (RegularFile content) →
  ∃ w', write_gitignore env ".gitignore" content initial_gitignoreSteps w = (Val tt, w')
        ∧ fs w' = <[".gitignore" := RegularFile (with_default_section content)]> (fs w)
        ∧ trace w' = trace w ++ default_section_events content.
Proof.
  intros Hf Hc. unfold initial_gitignoreSteps, with_default_section, default_section_events.
  cbn [write_gitignore gi_Path gi_Name].
  destruct (strings_Contains content ".sst") eqn:Hcont; cbn [negb].
  - eexists. split; [reflexivity |]. split; [| rewrite app_nil_r; reflexivity].
    symmetry. apply insert_id. exact Hc.
  - destruct (negb (String.eqb content "") && negb (strings_HasSuffix content LF)) eqn:Hsep.
    + unfold bind at 1. unfold bind at 1.
      rewrite (File_WriteString_ok env _ _ content) by (rewrite ?node_at_gitignore; done).
      unfold ret at 1. unfold bind at 1.
      rewrite (File_WriteString_ok env _ _ (content +:+ LF))
        by (rewrite ?node_at_gitignore; cbn [fs]; rewrite ?lookup_insert_eq; done).
      cbn [fs trace]. eexists. split; [reflexivity |]. cbn [fs trace].
      rewrite insert_insert_eq, string_app_assoc, <- app_assoc. split; reflexivity.
    + unfold bind at 1. unfold ret at 1. unfold bind at 1.
      rewrite (File_WriteString_ok env _ _ content) by (rewrite ?node_at_gitignore; done).
      eexists. split; [reflexivity |]. split; reflexivity.
Qed.

(** C5, amended. With no marker file, a working directory that can be
    determined, a preset that decodes to no steps and an ignore file
    that can be opened and written, [Create] returns nil and changes
    nothing but the ignore file.  When the old content does not contain
    [.sst], the default section is written once, as a newline, the
    header line and the path line, after one more newline when the old
    content is not empty and does not end in one; a file that was empty
    or missing becomes exactly that text, with no further newline before
    it.  When the old content contains [.sst], nothing is written. *)
Theorem zero_steps_default_section (L : Libs) (env : Env) (templateName home : string)
    (w : World) (d presetBytes content : string) (T : Template) :
  fs w !! "sst.config.ts" = None →
  cwd env = Some d →
  Templates env !! templateName = Some T →
  preset_json T = Some presetBytes →
  json_Unmarshal_preset L presetBytes = Some [] →
  ".gitignore" ∉ wfault env →
  gitignore_content w = Some content →
  ∃ w', Create L env templateName home w = (Val tt, w')
        ∧ fs w' = <[".gitignore" := RegularFile (with_default_section content)]> (fs w)
        ∧ trace w' = trace w
                     ++ [EvStat "sst.config.ts"; EvGetwd;
                         EvTemplatesReadFile (filepath_Join3 "templates" templateName "preset.json");
                         EvOpenFile ".gitignore"; EvReadAll ".gitignore"]
                     ++ default_section_events content
        ∧ (content = "" → fs w' !! ".gitignore" = Some (RegularFile default_section)).
Proof.
  intros Hm Hc HT Hp Hdec Hf Hg.
  assert (∃ w', Create L env templateName home w = (Val tt, w')
        ∧ fs w' = <[".gitignore" := RegularFile (with_default_section content)]> (fs w)
        ∧ trace w' = trace w
                     ++ [EvStat "sst.config.ts"; EvGetwd;
                         EvTemplatesReadFile (filepath_Join3 "templates" templateName "preset.json");
                         EvOpenFile ".gitignore"; EvReadAll ".gitignore"]
                     ++ default_section_events content)
    as (w' & E & Hfs & Htr).
  { unfold Create, os_Stat, os_Getwd, Templates_ReadFile_preset. munfold.
    rewrite node_at_marker, Hm, Hc, HT. destruct T as [pj fl]. cbn in Hp. subst pj.
    rewrite Hdec. cbn [run_steps]. munfold.
    unfold flush_packageJsons. rewrite map_to_list_empty. cbn [write_packageJsons]. munfold.
    unfold flush_gitignore, os_OpenFile_RDWR_CREATE, File_read. munfold.
    rewrite node_at_gitignore. unfold gitignore_content in Hg.
    destruct (fs w !! ".gitignore") as [[c|]|] eqn:Hgi; [| discriminate |].
    - injection Hg as ->. munfold. rewrite node_at_gitignore, Hgi.
      match goal with |- context [write_gitignore env _ _ _ ?w0] =>
        destruct (write_gitignore_default env content w0 Hf) as (w' & E & Hfs & Htr);
          [exact Hgi |] end.
      exists w'. split; [exact E |]. split; [exact Hfs |].
      rewrite Htr. cbn [trace]. rewrite <- !app_assoc. reflexivity.
    - injection Hg as <-. munfold. rewrite node_at_gitignore, lookup_insert_eq.
      match goal with |- context [write_gitignore env _ _ _ ?w0] =>
        destruct (write_gitignore_default env "" w0 Hf) as (w' & E & Hfs & Htr);
          [cbn [fs]; apply lookup_insert_eq |] end.
      exists w'. split; [exact E |]. split.
      + rewrite Hfs. cbn [fs]. apply insert_insert_eq.
      + rewrite Htr. cbn [trace]. rewrite <- !app_assoc. reflexivity. }
  exists w'. split; [exact E |]. split; [exact Hfs |]. split; [exact Htr |].
  intros ->. rewrite Hfs, lookup_insert_eq. reflexivity.
Qed.

Lemma zero_steps_default_section_witness :
  ∃ w', Create empty_libs empty_env "t" "home" (world_of ∅) = (Val tt, w')
        ∧ fs w' = <[".gitignore" := RegularFile (with_default_section "")]> ∅
        ∧ trace w' = []
                     ++ [EvStat "sst.config.ts"; EvGetwd;
                         EvTemplatesReadFile (filepath_Join3 "templates" "t" "preset.json");
                         EvOpenFile ".gitignore"; EvReadAll ".gitignore"]
                     ++ default_section_events ""
        ∧ ("" = "" → fs w' !! ".gitignore" = Some (RegularFile default_section)).
Proof.
  apply (zero_steps_default_section empty_libs empty_env "t" "home" (world_of ∅)
           "/work/app" "preset" ""
           {| preset_json := Some "preset"; files := None |});
    try reflexivity.
  apply (bool_decide_unpack _). vm_compute. exact I.
Defined.

(** ** What a computation adds to the trace *)

Lemma emits_ret {A} (P : event → Prop) (a : A) : emits P (ret a).
Proof. intros w r w' [= <- <-]. exists []. rewrite app_nil_r. split; [reflexivity | constructor]. Qed.

Lemma emits_fail {A} (P : event → Prop) (e : error) : emits P (@fail A e).
Proof. intros w r w' [= <- <-]. exists []. rewrite app_nil_r. split; [reflexivity | constructor]. Qed.

Lemma emits_panic {A} (P : event → Prop) : emits P (@panic A).
Proof. intros w r w' [= <- <-]. exists []. rewrite app_nil_r. split; [reflexivity | constructor]. Qed.

Lemma emits_lift {A} (P : event → Prop) (x : result A) : emits P (lift x).
Proof. intros w r w' [= <- <-]. exists []. rewrite app_nil_r. split; [reflexivity | constructor]. Qed.

Lemma emits_get_fs (P : event → Prop) : emits P get_fs.
Proof. intros w r w' [= <- <-]. exists []. rewrite app_nil_r. split; [reflexivity | constructor]. Qed.

Lemma emits_put_fs (P : event → Prop) (f : gmap string node) : emits P (put_fs f).
Proof. intros w r w' [= <- <-]. exists []. cbn. rewrite app_nil_r. split; [reflexivity | constructor]. Qed.

Lemma emits_emit (P : event → Prop) (e : event) : P e → emits P (emit e).
Proof. intros He w r w' [= <- <-]. exists [e]. split; [reflexivity | repeat constructor; exact He]. Qed.

Lemma emits_bind {A B} (P : event → Prop) (m : M A) (k : A → M B) :
  emits P m → (∀ a, emits P (k a)) → emits P (bind m k).
Proof.
  intros Hm Hk w r w' H. unfold bind in H.
  destruct (m w) as [[a|e|] w1] eqn:E; destruct (Hm _ _ _ E) as (evs & Ht & Hf).
  - destruct (Hk a _ _ _ H) as (evs' & Ht' & Hf').
    exists (evs ++ evs'). rewrite Ht', Ht, app_assoc.
    split; [reflexivity | apply Forall_app; split; assumption].
  - injection H as <- <-. exists evs. split; assumption.
  - injection H as <- <-. exists evs. split; assumption.
Qed.

(** Walk through a computation built from [bind], [match] and [if]. *)
Ltac emits_step :=
  first
    [ apply emits_ret | apply emits_fail | apply emits_panic | apply emits_lift
    | apply emits_get_fs | apply emits_put_fs
    | apply emits_emit; solve [exact I | eexists; reflexivity | eauto]
    | apply emits_bind; [| intros ?]
    | match goal with
      | |- emits _ (match ?x with _ => _ end) => destruct x
      | |- emits _ (if ?b then _ else _) => destruct b
      end ].

Ltac emits_auto := cbv zeta; repeat emits_step.

Lemma emits_walkDir (P : event → Prop) (fn : string → etree → M unit) :
  (∀ path d, emits P (fn path d)) →
  ∀ d path, emits P (walkDir fn path d).
Proof.
  intros Hfn. fix IH 1. intros [data | entries] path; cbn [walkDir].
  - apply emits_bind; [apply Hfn | intros _; apply emits_ret].
  - apply emits_bind; [apply Hfn | intros _].
    induction entries as [| [name child] es IHes].
    + apply emits_ret.
    + apply emits_bind; [apply IH | intros _; exact IHes].
Qed.

Lemma exec_step_emits (L : Libs) (env : Env) (templateName directoryName home : string)
    (s : step) (st : LoopState) :
  emits is_step_event (exec_step L env templateName directoryName home s st).
Proof.
  unfold exec_step. repeat case_decide.
  - unfold exec_npm, load_packageJson, resolve_version, http_Get, os_Open, File_read.
    emits_auto.
  - unfold exec_patch, os_ReadFile, os_Create, File_WriteString. emits_auto.
  - unfold exec_copy. emits_auto. apply emits_walkDir. intros path d.
    unfold copy_visit, os_MkdirAll, os_Stat, os_Create, File_WriteString. emits_auto.
  - unfold exec_gitignore. emits_auto.
  - emits_auto.
Qed.

Lemma run_steps_emits (L : Libs) (env : Env) (templateName directoryName home : string)
    (steps : list step) :
  ∀ st, emits is_step_event (run_steps L env templateName directoryName home steps st).
Proof.
  induction steps as [| s rest IH]; intros st; cbn [run_steps].
  - apply emits_ret.
  - apply emits_bind; [apply exec_step_emits | intros st'; apply IH].
Qed.

(** ** The order of the flushes *)

Lemma os_WriteFile_trace (env : Env) (path data : string) (w w' : World)
    (r : result (option oserr)) :
  os_WriteFile env path data w = (r, w') →
  trace w' = trace w ++ [EvWriteFile path data].
Proof.
  unfold os_WriteFile. munfold.
  destruct (node_at (fs w) path) as [[?|]|]; try case_decide; intros [= _ <-]; reflexivity.
Qed.

Lemma write_packageJsons_trace (L : Libs) (env : Env) (docs : list (string * KeyValuePairs)) :
  ∀ w w', write_packageJsons L env docs w = (Val tt, w') →
  ∃ T, trace w' = trace w ++ T ∧ Forall2 (is_config_write L) docs T.
Proof.
  induction docs as [| [file content] rest IH]; intros w w' H; cbn [write_packageJsons] in H.
  - injection H as <-. exists []. rewrite app_nil_r. split; [reflexivity | constructor].
  - destruct (json_MarshalIndent L content "" "  ") as [bytes|] eqn:Hm; [| discriminate].
    apply bind_Val_inv in H as (err & w1 & Hw & H).
    destruct err as [e|]; [discriminate |].
    apply IH in H as (T & Ht & HT). apply os_WriteFile_trace in Hw.
    exists (EvWriteFile file bytes :: T). rewrite Ht, Hw, <- app_assoc.
    split; [reflexivity |]. constructor; [| exact HT].
    exists bytes. split; [exact Hm | reflexivity].
Qed.

Lemma write_gitignore_emits (env : Env) (content : string) (steps : list gitignoreStep) :
  emits is_gitignore_write (write_gitignore env ".gitignore" content steps).
Proof.
  induction steps as [| step rest IH]; cbn [write_gitignore].
  - apply emits_ret.
  - unfold File_WriteString.
    destruct (negb (strings_Contains content (gi_Path step))); [| exact IH].
    apply emits_bind; [emits_auto | intros _].
    apply emits_bind; [emits_auto | intros [e|]; [apply emits_fail | exact IH]].
Qed.

Lemma flush_gitignore_trace (env : Env) (steps : list gitignoreStep) (w w' : World) :
  flush_gitignore env steps w = (Val tt, w') →
  ∃ T, trace w' = trace w ++ EvOpenFile ".gitignore" :: EvReadAll ".gitignore" :: T
       ∧ Forall is_gitignore_write T.
Proof.
  unfold flush_gitignore, os_OpenFile_RDWR_CREATE, File_read. munfold.
  destruct (node_at (fs w) ".gitignore") as [[c|]|] eqn:Hn; munfold.
  - rewrite Hn. intros H.
    destruct (write_gitignore_emits env c steps _ _ _ H) as (T & Ht & HT).
    exists T. rewrite Ht. cbn [trace]. rewrite <- !app_assoc. split; [reflexivity | exact HT].
  - discriminate.
  - rewrite node_at_gitignore, lookup_insert_eq. intros H.
    destruct (write_gitignore_emits env "" steps _ _ _ H) as (T & Ht & HT).
    exists T. rewrite Ht. cbn [trace]. rewrite <- !app_assoc. split; [reflexivity | exact HT].
Qed.

(** What a successful [Create] consists of: the three calls before the
    loop, the loop over the decoded steps, the flush of the documents
    it accumulated and the flush of the ignore sections. *)
Lemma Create_Val_inv (L : Libs) (env : Env) (templateName home : string) (w w' : World) :
  Create L env templateName home w = (Val tt, w') →
  fs w !! "sst.config.ts" = None
  ∧ (cwd env = None
     ∨ ∃ d T presetBytes steps st w1 w2,
         cwd env = Some d
         ∧ Templates env !! templateName = Some T
         ∧ preset_json T = Some presetBytes
         ∧ json_Unmarshal_preset L presetBytes = Some steps
         ∧ run_steps L env templateName (strings_ToLower L (filepath_Base L d)) home steps
             initial_state
             {| fs := fs w;
                trace := trace w ++ [EvStat "sst.config.ts"; EvGetwd;
                           EvTemplatesReadFile (filepath_Join3 "templates" templateName "preset.json")] |}
           = (Val st, w1)
         ∧ flush_packageJsons L env (packageJsons st) w1 = (Val tt, w2)
         ∧ flush_gitignore env (gitignoreSteps st) w2 = (Val tt, w')).
Proof.
  intros H. unfold Create, os_Stat, os_Getwd, Templates_ReadFile_preset in H.
  munfold_in H. rewrite node_at_marker in H.
  destruct (fs w !! "sst.config.ts") as [n|] eqn:Hm; [discriminate |].
  split; [reflexivity |].
  destruct (cwd env) as [d|] eqn:Hc; [right | left; reflexivity].
  destruct (Templates env !! templateName) as [[[pb|] fl]|] eqn:HT; try discriminate.
  destruct (json_Unmarshal_preset L pb) as [steps|] eqn:Hd; [| discriminate].
  cbn [fs trace] in H. rewrite <- !app_assoc in H. cbn [app] in H.
  match type of H with context [run_steps ?a ?b ?c ?d ?e ?f ?g ?h] =>
    destruct (run_steps a b c d e f g h) as [[st| |] w1] eqn:Hrun; try discriminate end.
  destruct (flush_packageJsons L env (packageJsons st) w1) as [[[]| |] w2] eqn:Hfl;
    try discriminate.
  exists d, {| preset_json := Some pb; files := fl |}, pb, steps, st, w1, w2.
  repeat split; try reflexivity; assumption.
Qed.

(** C7. In every run that returns nil after the working directory was
    found, the trace is ([flushes_in_order]): the three calls before the loop, then events of
    the steps only (none of them a flush call), then one [os.WriteFile]
    per accumulated document with the text [json.MarshalIndent] gives
    for it with a two-space indent, then the opening and reading of the
    ignore file followed by writes to it only.  So every write of a
    document comes after all steps and before the ignore file is
    touched.  (A run that returns nil because the working directory was
    not found flushes nothing.) *)
Theorem flushes_follow_steps_in_order (L : Libs) (env : Env) (templateName home : string)
    (w w' : World) :
  Create L env templateName home w = (Val tt, w') →
  flushes_in_order L env templateName home w w'.
Proof.
  intros H. unfold flushes_in_order.
  destruct (Create_Val_inv _ _ _ _ _ _ H) as [Hm [Hc | Hrun]].
  - left. split; [exact Hc |].
    rewrite (Create_no_cwd L env templateName home w Hm Hc) in H.
    injection H as <-. reflexivity.
  - right. destruct Hrun as (d & T & pb & steps & st & w1 & w2 & Hc & _ & _ & Hd & Hrun & Hf1 & Hf2).
    destruct (run_steps_emits _ _ _ _ _ _ _ _ _ _ Hrun) as (Ts & Hts & HTs).
    destruct (write_packageJsons_trace _ _ _ _ _ Hf1) as (Tc & Htc & HTc).
    destruct (flush_gitignore_trace _ _ _ _ Hf2) as (Ti & Hti & HTi).
    exists d, pb, steps, st, w1, Ts, Tc, Ti.
    cbn [trace] in Hts.
    repeat split; try assumption.
    + rewrite Hts, <- app_assoc. reflexivity.
    + rewrite Hti, Htc, <- app_assoc. reflexivity.
Qed.

Lemma flushes_follow_steps_in_order_witness :
  flushes_in_order deps_libs deps_env "t" "home" deps_world
    (Create deps_libs deps_env "t" "home" deps_world).2.
Proof.
  apply (flushes_follow_steps_in_order deps_libs deps_env "t" "home" deps_world).
  vm_compute. reflexivity.
Defined.

(** ** Dependency steps *)

Lemma find_target_app (field : string) (doc doc' : KeyValuePairs) :
  ∀ i t,
    find_target field (doc ++ doc') i t =
    match find_target field doc i t with
    | Val t' => find_target field doc' (i + length doc) t'
    | Err e => Err e
    | Panic => Panic
    end.
Proof.
  induction doc as [| [k v] rest IH]; intros i t; cbn [find_target app length].
  - rewrite Nat.add_0_r. reflexivity.
  - rewrite Nat.add_succ_r.
    case_decide; [destruct v |]; try reflexivity; apply IH.
Qed.

Lemma find_target_lookup (field : string) (doc : KeyValuePairs) :
  ∀ i t j,
    find_target field doc i t = Val (Some j) →
    t = Some j ∨ ∃ m, (i ≤ j)%nat ∧ doc !! (j - i)%nat = Some (field, JObject m).
Proof.
  induction doc as [| [k v] rest IH]; intros i t j H; cbn [find_target] in H.
  - left. congruence.
  - case_decide as Hk.
    + destruct v as [| | | | |m0]; try discriminate.
      destruct (IH _ _ _ H) as [[= <-] | (m & Hle & Hl)]; right.
      * exists m0. rewrite Nat.sub_diag, Hk. split; [lia | reflexivity].
      * exists m. split; [lia |].
        replace (j - i) with (S (j - S i)) by lia. exact Hl.
    + destruct (IH _ _ _ H) as [-> | (m & Hle & Hl)]; [left; reflexivity | right].
      exists m. split; [lia |].
      replace (j - i) with (S (j - S i)) by lia. exact Hl.
Qed.

Lemma find_target_insert (field : string) (doc : KeyValuePairs) :
  ∀ j key m m' i t,
    doc !! j = Some (key, JObject m) →
    find_target field (<[j := (key, JObject m')]> doc) i t = find_target field doc i t.
Proof.
  induction doc as [| [k v] rest IH]; intros j key m m' i t Hl; [discriminate |].
  destruct j as [| j]; cbn in Hl |- *.
  - injection Hl as -> ->. reflexivity.
  - case_decide; [destruct v |]; try reflexivity; eapply IH; exact Hl.
Qed.

Lemma field_map_found (field : string) (doc : KeyValuePairs) (i : nat) :
  find_target field doc 0 None = Val (Some i) →
  ∃ m, doc !! i = Some (field, JObject m) ∧ field_map field doc = Some m.
Proof.
  intros H. destruct (find_target_lookup _ _ _ _ _ H) as [? | (m & _ & Hl)]; [discriminate |].
  rewrite Nat.sub_0_r in Hl. exists m. split; [exact Hl |].
  unfold field_map. rewrite H, Hl. reflexivity.
Qed.

Lemma field_map_insert_other (field field' : string) (doc : KeyValuePairs) (i : nat)
    (m m' : gmap string jvalue) :
  doc !! i = Some (field, JObject m) →
  field' ≠ field →
  field_map field' (<[i := (field, JObject m')]> doc) = field_map field' doc.
Proof.
  intros Hl Hne. unfold field_map. rewrite (find_target_insert _ _ _ _ _ _ _ _ Hl).
  destruct (find_target field' doc 0 None) as [[j|]| |] eqn:E; try reflexivity.
  destruct (find_target_lookup _ _ _ _ _ E) as [? | (mj & _ & Hj)]; [discriminate |].
  rewrite Nat.sub_0_r in Hj.
  rewrite list_lookup_insert_ne; [reflexivity |].
  intros ->. rewrite Hl in Hj. congruence.
Qed.

Lemma field_map_app_other (field field' : string) (doc : KeyValuePairs) (v : jvalue) :
  field' ≠ field →
  field_map field' (doc ++ [(field, v)]) = field_map field' doc.
Proof.
  intros Hne. unfold field_map. rewrite find_target_app.
  destruct (find_target field' doc 0 None) as [[j|]| |] eqn:E; try reflexivity;
    cbn [find_target]; rewrite decide_False by congruence; [| reflexivity].
  destruct (find_target_lookup _ _ _ _ _ E) as [? | (mj & _ & Hj)]; [discriminate |].
  rewrite Nat.sub_0_r in Hj.
  rewrite lookup_app_l by (eapply lookup_lt_Some; exact Hj). reflexivity.
Qed.

(** The assignment through the target, for a target the loop found. *)
Lemma map_assign_found (field package version : string) (doc : KeyValuePairs) (i : nat) :
  find_target field doc 0 None = Val (Some i) →
  ∃ m, field_map field doc = Some m
       ∧ field_map field (map_assign doc i package (JString version))
         = Some (<[package := JString version]> m)
       ∧ (map_assign doc i package (JString version)).*1 = doc.*1
       ∧ map_assign doc i package (JString version) ≠ []
       ∧ ∀ field', field' ≠ field →
           field_map field' (map_assign doc i package (JString version)) = field_map field' doc.
Proof.
  intros H. destruct (field_map_found _ _ _ H) as (m & Hl & Hf).
  exists m. split; [exact Hf |].
  unfold map_assign. rewrite Hl.
  assert (i < length doc) as Hi by (eapply lookup_lt_Some; exact Hl).
  split; [| split; [| split; [| intros field' Hne; eapply field_map_insert_other; eassumption]]].
  - unfold field_map.
    rewrite (find_target_insert _ _ _ _ _ _ _ _ Hl), H.
    rewrite list_lookup_insert_eq by exact Hi. reflexivity.
  - rewrite list_fmap_insert. cbn [fst].
    apply list_insert_id. rewrite list_lookup_fmap, Hl. reflexivity.
  - intros E. apply (f_equal length) in E. rewrite length_insert in E.
    cbn in E. lia.
Qed.

(** Lines 116-148 on a loaded document: however the target is found,
    the document ends up with the package set under the field. *)
Lemma npm_assign_dep_set (field package version : string) (doc0 : KeyValuePairs)
    (found : option nat) :
  find_target field doc0 0 None = Val found →
  let appended :=
    match found with
    | Some i => (doc0, i)
    | None => (doc0 ++ [(field, JObject ∅)], length doc0)
    end in
  let doc := map_assign appended.1 appended.2 package (JString version) in
  dep_set field package version doc0 doc ∧ doc ≠ [].
Proof.
  intros H. destruct found as [i|]; cbn [fst snd].
  - destruct (map_assign_found field package version _ _ H) as (m & Hf & Hf' & Hk & Hne & Ho).
    split; [| exact Hne]. unfold dep_set. rewrite Hf, Hf', Hk, app_nil_r.
    split; [reflexivity | split; [reflexivity | exact Ho]].
  - assert (find_target field (doc0 ++ [(field, JObject ∅)]) 0 None
            = Val (Some (length doc0))) as H'.
    { rewrite find_target_app, H. cbn [find_target].
      rewrite decide_True by reflexivity. reflexivity. }
    destruct (map_assign_found field package version _ _ H') as (m & Hf & Hf' & Hk & Hne & Ho).
    split; [| exact Hne]. unfold dep_set.
    assert (field_map field doc0 = None) as Hn by (unfold field_map; rewrite H; reflexivity).
    rewrite Hn, Hf', Hk, fmap_app. cbn [default fmap list_fmap fst].
    split; [| split; [reflexivity |]];
      [| intros field' Hfne; rewrite (Ho _ Hfne); apply field_map_app_other; exact Hfne].
    assert (m = ∅) as ->; [| reflexivity].
    destruct (field_map_found _ _ _ H') as (m' & Hl & Hfm).
    rewrite lookup_app_r in Hl by lia. rewrite Nat.sub_diag in Hl.
    cbn in Hl. rewrite Hf in Hfm. congruence.
Qed.

Lemma resolve_version_Val (L : Libs) (env : Env) (npm : npmStep) (w w' : World) (v : string) :
  resolve_version L env npm w = (Val v, w') →
  version_of L env npm = Some v ∧ fs w' = fs w.
Proof.
  unfold resolve_version, version_of, http_Get. case_decide; munfold.
  - destruct (registry env !! _) as [body|]; [| discriminate]. cbn [mbind option_bind].
    destruct (json_Decode_version L body); intros [= <- <-]; split; reflexivity.
  - intros [= <- <-]. split; reflexivity.
Qed.

Lemma load_packageJson_Val (L : Libs) (file : string) (pjs pjs' : gmap string KeyValuePairs)
    (doc : KeyValuePairs) (w w' : World) :
  load_packageJson L file pjs w = (Val (doc, pjs'), w') →
  fs w' = fs w
  ∧ ((pjs !! file = Some doc ∧ doc ≠ [] ∧ pjs' = pjs)
     ∨ (default [] (pjs !! file) = []
        ∧ ∃ data, node_at (fs w) file = Some (RegularFile data)
                  ∧ json_Decode_KeyValuePairs L data = Some doc
                  ∧ pjs' = <[file := doc]> pjs)).
Proof.
  unfold load_packageJson.
  destruct (default [] (pjs !! file)) as [| kv rest] eqn:Hd.
  - unfold os_Open, File_read. munfold.
    destruct (node_at (fs w) file) as [[data|]|] eqn:Hn; munfold;
      rewrite ?Hn; try discriminate.
    destruct (json_Decode_KeyValuePairs L data) as [doc'|] eqn:Hj; [| discriminate].
    intros [= <- <- <-]. split; [reflexivity | right].
    split; [reflexivity |]. exists data. repeat split; assumption.
  - intros [= <- <- <-]. split; [reflexivity | left].
    destruct (pjs !! file) as [doc'|]; cbn in Hd; [| discriminate]. subst doc'.
    repeat split; discriminate.
Qed.

(** What a dependency step that returns has done. *)
Lemma exec_npm_Val (L : Libs) (env : Env) (properties : RawMessage) (npm : npmStep)
    (st st' : LoopState) (w w' : World) :
  json_Unmarshal_npm L properties = Some npm →
  exec_npm L env properties st w = (Val st', w') →
  ∃ doc0 doc v,
    fs w' = fs w
    ∧ ((packageJsons st !! npm_File npm = Some doc0 ∧ doc0 ≠ [])
       ∨ (default [] (packageJsons st !! npm_File npm) = []
          ∧ ∃ data, node_at (fs w) (npm_File npm) = Some (RegularFile data)
                    ∧ json_Decode_KeyValuePairs L data = Some doc0))
    ∧ version_of L env npm = Some v
    ∧ dep_set (npm_field npm) (npm_Package npm) v doc0 doc
    ∧ doc ≠ []
    ∧ packageJsons st' = <[npm_File npm := doc]> (packageJsons st)
    ∧ gitignoreSteps st' = gitignoreSteps st.
Proof.
  intros Hdec H. unfold exec_npm in H. rewrite Hdec in H. cbv zeta in H.
  apply bind_Val_inv in H as ([doc0 pjs1] & w1 & Hload & H).
  apply bind_Val_inv in H as (found & w2 & Hfind & H).
  apply bind_Val_inv in H as (v & w3 & Hver & H).
  unfold lift in Hfind. cbn [fst snd] in Hfind. injection Hfind as Hfind <-.
  unfold ret in H. injection H as <- <-.
  apply resolve_version_Val in Hver as [Hver Hfs3].
  apply load_packageJson_Val in Hload as [Hfs1 Hload].
  pose proof (npm_assign_dep_set (npm_field npm) (npm_Package npm) v doc0 found Hfind)
    as [Hset Hne].
  exists doc0. eexists. exists v.
  split; [congruence |].
  split; [destruct Hload as [(? & ? & ?) | (? & data & ? & ? & ?)];
          [left; split; assumption | right; split; [assumption | exists data; split; assumption]] |].
  split; [exact Hver |].
  split; [exact Hset |]. split; [exact Hne |].
  cbn [packageJsons gitignoreSteps fst snd]. split; [| reflexivity].
  assert (pjs1 = packageJsons st ∨ pjs1 = <[npm_File npm := doc0]> (packageJsons st)) as Hp
    by (destruct Hload as [(? & ? & ?) | (? & data & ? & ? & ?)]; [left | right]; assumption).
  destruct found as [i|]; cbn [fst snd]; destruct Hp as [-> | ->];
    rewrite ?insert_insert_eq; reflexivity.
Qed.

Lemma exec_step_npm (L : Libs) (env : Env) (templateName directoryName home : string)
    (s : step) (st : LoopState) :
  step_Type s = "npm" →
  exec_step L env templateName directoryName home s st = exec_npm L env (step_Properties s) st.
Proof. intros H. unfold exec_step. rewrite H. reflexivity. Qed.

(** ** The files the flushes leave *)

Lemma os_WriteFile_ok (env : Env) (path data : string) (w w' : World) :
  os_WriteFile env path data w = (Val None, w') →
  fs w' = <[path := RegularFile data]> (fs w).
Proof.
  unfold os_WriteFile. munfold.
  destruct (node_at (fs w) path) as [[?|]|]; try case_decide; intros [= <-]; reflexivity.
Qed.

Lemma File_WriteString_other (env : Env) (h data : string) (w w' : World)
    (r : result (option oserr)) (p : string) :
  File_WriteString env h data w = (r, w') → p ≠ h → fs w' !! p = fs w !! p.
Proof.
  unfold File_WriteString. munfold. intros H Hp.
  case_decide; [injection H as <- <-; reflexivity |].
  destruct (node_at (fs w) h) as [[old|]|]; injection H as <- <-; cbn [fs];
    rewrite ?lookup_insert_ne by congruence; reflexivity.
Qed.

Lemma write_gitignore_other (env : Env) (content : string) (steps : list gitignoreStep)
    (p : string) :
  p ≠ ".gitignore" →
  ∀ w w', write_gitignore env ".gitignore" content steps w = (Val tt, w') →
          fs w' !! p = fs w !! p.
Proof.
  intros Hp. induction steps as [| step rest IH]; intros w w' H; cbn [write_gitignore] in H.
  - injection H as <-. reflexivity.
  - destruct (negb (strings_Contains content (gi_Path step))); [| apply IH; exact H].
    apply bind_Val_inv in H as ([] & w1 & Hsep & H).
    apply bind_Val_inv in H as (err & w2 & Hw & H).
    destruct err as [e|]; [discriminate |].
    rewrite (IH _ _ H), (File_WriteString_other _ _ _ _ _ _ _ Hw Hp).
    destruct (negb (content =? "") && negb (strings_HasSuffix content LF)).
    + apply bind_Val_inv in Hsep as (err & w0 & Hw0 & Hsep). injection Hsep as <-.
      apply (File_WriteString_other _ _ _ _ _ _ _ Hw0 Hp).
    + injection Hsep as <-. reflexivity.
Qed.

Lemma flush_gitignore_other (env : Env) (steps : list gitignoreStep) (p : string)
    (w w' : World) :
  p ≠ ".gitignore" →
  flush_gitignore env steps w = (Val tt, w') →
  fs w' !! p = fs w !! p.
Proof.
  intros Hp. unfold flush_gitignore, os_OpenFile_RDWR_CREATE, File_read. munfold.
  destruct (node_at (fs w) ".gitignore") as [[c|]|] eqn:Hn; munfold.
  - rewrite Hn. intros H. rewrite (write_gitignore_other _ _ _ _ Hp _ _ H). reflexivity.
  - discriminate.
  - rewrite node_at_gitignore, lookup_insert_eq. intros H.
    rewrite (write_gitignore_other _ _ _ _ Hp _ _ H). cbn [fs].
    apply lookup_insert_ne. congruence.
Qed.

(** ** The last write wins, in any pipeline *)

Lemma field_map_nonempty (field : string) (doc : KeyValuePairs) (m : gmap string jvalue) :
  field_map field doc = Some m → doc ≠ [].
Proof. intros H ->. discriminate. Qed.

(** Only dependency steps change the accumulated documents. *)
Lemma exec_step_other_Val (L : Libs) (env : Env) (templateName directoryName home : string)
    (s : step) (st st' : LoopState) (w w' : World) :
  step_Type s ≠ "npm" →
  exec_step L env templateName directoryName home s st w = (Val st', w') →
  packageJsons st' = packageJsons st.
Proof.
  intros Hty. unfold exec_step. rewrite decide_False by exact Hty.
  repeat case_decide; intros Hex.
  - apply bind_Val_inv in Hex as (? & ? & _ & [= <- _]). reflexivity.
  - apply bind_Val_inv in Hex as (? & ? & _ & [= <- _]). reflexivity.
  - unfold exec_gitignore in Hex.
    destruct (json_Unmarshal_gitignore L (step_Properties s)); [| discriminate].
    injection Hex as <- _. reflexivity.
  - injection Hex as <- _. reflexivity.
Qed.

(** A step that does not register the package leaves its entry. *)
Lemma exec_step_dep_at_other (L : Libs) (env : Env) (templateName directoryName home : string)
    (s : step) (st st' : LoopState) (w w' : World) (file field package : string) (x : jvalue) :
  exec_step L env templateName directoryName home s st w = (Val st', w') →
  ¬ targets L s file field package →
  dep_at (packageJsons st) file field package = Some x →
  dep_at (packageJsons st') file field package = Some x.
Proof.
  intros H Hnt Hx.
  destruct (decide (step_Type s = "npm")) as [Hty | Hty];
    [| rewrite (exec_step_other_Val _ _ _ _ _ _ _ _ _ _ Hty H); exact Hx].
  rewrite exec_step_npm in H by exact Hty.
  destruct (json_Unmarshal_npm L (step_Properties s)) as [npm|] eqn:Hdec;
    [| unfold exec_npm in H; rewrite Hdec in H; discriminate].
  apply (exec_npm_Val _ _ _ _ _ _ _ _ Hdec) in H
    as (doc0 & doc & v & _ & Hload & _ & (Hm & _ & Ho) & _ & Hp & _).
  unfold dep_at in Hx |- *. rewrite Hp.
  destruct (decide (npm_File npm = file)) as [<- | Hf];
    [| rewrite lookup_insert_ne by exact Hf; exact Hx].
  rewrite lookup_insert_eq.
  destruct (packageJsons st !! npm_File npm) as [docX|] eqn:HX; [| discriminate].
  destruct (field_map field docX) as [m|] eqn:Hfm; [| discriminate].
  assert (doc0 = docX) as ->.
  { destruct Hload as [[[= ->] _] | [Hd _]]; [reflexivity |].
    cbn in Hd. subst docX. discriminate. }
  destruct (decide (field = npm_field npm)) as [-> | Hfield].
  - rewrite Hm, Hfm. cbn [default].
    rewrite lookup_insert_ne; [exact Hx |].
    intros Hpk. apply Hnt. split; [exact Hty |]. exists npm. repeat split; assumption.
  - rewrite (Ho _ Hfield), Hfm. exact Hx.
Qed.

Lemma run_steps_dep_at_other (L : Libs) (env : Env) (templateName directoryName home : string)
    (file field package : string) (x : jvalue) (steps : list step) :
  Forall (λ s, ¬ targets L s file field package) steps →
  ∀ st st' w w',
    run_steps L env templateName directoryName home steps st w = (Val st', w') →
    dep_at (packageJsons st) file field package = Some x →
    dep_at (packageJsons st') file field package = Some x.
Proof.
  induction 1 as [| s rest Hs _ IH]; intros st st' w w' H Hx; cbn [run_steps] in H.
  - injection H as <- _. exact Hx.
  - apply bind_Val_inv in H as (st1 & w1 & H1 & H).
    apply (IH _ _ _ _ H). eapply exec_step_dep_at_other; eassumption.
Qed.

Lemma run_steps_app_Val (L : Libs) (env : Env) (templateName directoryName home : string)
    (pre post : list step) :
  ∀ st st' w w',
    run_steps L env templateName directoryName home (pre ++ post) st w = (Val st', w') →
    ∃ st1 w1,
      run_steps L env templateName directoryName home pre st w = (Val st1, w1)
      ∧ run_steps L env templateName directoryName home post st1 w1 = (Val st', w').
Proof.
  induction pre as [| a pre IH]; intros st st' w w' H.
  - exists st, w. split; [reflexivity | exact H].
  - rewrite <- app_comm_cons in H. cbn [run_steps] in H |- *.
    apply bind_Val_inv in H as (sta & wa & Ha & H).
    destruct (IH _ _ _ _ H) as (st1 & w1 & Hpre & Hpost).
    exists st1, w1. split; [| exact Hpost].
    rewrite (bind_eq _ _ _ _ _ Ha). exact Hpre.
Qed.

(** X8. The last write wins: line 148 assigns into the map the earlier
    steps assigned into, so when the loop returns, the entry of a
    dependency step no later step registers again holds the version of
    that step, whatever steps ran before and after it. *)
Theorem last_write_wins (L : Libs) (env : Env) (templateName directoryName home : string)
    (pre post : list step) (s : step) (npm : npmStep) (st st' : LoopState) (w w' : World) :
  step_Type s = "npm" →
  json_Unmarshal_npm L (step_Properties s) = Some npm →
  Forall (λ s', ¬ targets L s' (npm_File npm) (npm_field npm) (npm_Package npm)) post →
  run_steps L env templateName directoryName home (pre ++ s :: post) st w = (Val st', w') →
  ∃ v, version_of L env npm = Some v
       ∧ dep_at (packageJsons st') (npm_File npm) (npm_field npm) (npm_Package npm)
         = Some (JString v).
Proof.
  intros Hty Hdec Hpost H.
  apply run_steps_app_Val in H as (st1 & w1 & _ & H). cbn [run_steps] in H.
  apply bind_Val_inv in H as (st2 & w2 & Hs & H).
  rewrite exec_step_npm in Hs by exact Hty.
  apply (exec_npm_Val _ _ _ _ _ _ _ _ Hdec) in Hs
    as (doc0 & doc & v & _ & _ & Hv & (Hm & _) & _ & Hp & _).
  exists v. split; [exact Hv |].
  apply (run_steps_dep_at_other _ _ _ _ _ _ _ _ _ _ Hpost _ _ _ _ H).
  unfold dep_at. rewrite Hp, lookup_insert_eq, Hm. apply lookup_insert_eq.
Qed.

(** Every accumulated document is written by a run that returns nil. *)
Lemma Create_writes_documents (L : Libs) (env : Env) (templateName home d : string)
    (w w' : World) :
  cwd env = Some d →
  Create L env templateName home w = (Val tt, w') →
  ∃ presetBytes steps st w1,
    json_Unmarshal_preset L presetBytes = Some steps
    ∧ (∃ T, Templates env !! templateName = Some T ∧ preset_json T = Some presetBytes)
    ∧ run_steps L env templateName (strings_ToLower L (filepath_Base L d)) home steps
        initial_state
        {| fs := fs w;
           trace := trace w ++ [EvStat "sst.config.ts"; EvGetwd;
                      EvTemplatesReadFile (filepath_Join3 "templates" templateName "preset.json")] |}
      = (Val st, w1)
    ∧ ∀ file doc, packageJsons st !! file = Some doc →
        ∃ bytes, json_MarshalIndent L doc "" "  " = Some bytes
                 ∧ EvWriteFile file bytes ∈ trace w'.
Proof.
  intros Hc H.
  destruct (Create_Val_inv _ _ _ _ _ _ H) as [_ [Hc' | Hrun]]; [congruence |].
  destruct Hrun as (d' & T & pb & steps & st & w1 & w2 & Hd' & HT & Hp & Hd & Hrun & Hf1 & Hf2).
  assert (d' = d) as -> by congruence.
  exists pb, steps, st, w1. split; [exact Hd |]. split; [exists T; split; assumption |].
  split; [exact Hrun |].
  intros file doc Hl.
  destruct (write_packageJsons_trace _ _ _ _ _ Hf1) as (Tc & Htc & HTc).
  destruct (flush_gitignore_trace _ _ _ _ Hf2) as (Ti & Hti & _).
  apply elem_of_map_to_list in Hl. apply list_elem_of_lookup in Hl as [i Hi].
  destruct (Forall2_lookup_l _ _ _ _ _ HTc Hi) as (e & He & bytes & Hb & ->).
  exists bytes. split; [exact Hb |]. rewrite Hti, Htc.
  apply elem_of_app. left. apply elem_of_app. right.
  apply list_elem_of_lookup. exists i. exact He.
Qed.

(** ** The three defects, in general *)

Lemma node_at_file (f : gmap string node) (path data : string) :
  node_at f path = Some (RegularFile data) →
  path ≠ "." ∧ f !! path = Some (RegularFile data).
Proof.
  unfold node_at. case_decide; [discriminate |]. intros Hx. split; assumption.
Qed.

Lemma node_at_insert_eq (f : gmap string node) (path : string) (n : node) :
  path ≠ "." → node_at (<[path := n]> f) path = Some n.
Proof.
  intros H. unfold node_at. rewrite decide_False by exact H. apply lookup_insert_eq.
Qed.

(** The visit of a template file whose destination is an existing file
    never takes the early return: the destination is truncated and, the
    template being parsed and the file writable, holds the rendered
    template afterwards. *)
Lemma copy_visit_overwrites (L : Libs) (env : Env)
    (templateFilesPath directoryName home path src old : string)
    (tmpl : template_Template L) (w : World) :
  let name := filepath_Join_dot (strings_TrimPrefix path templateFilesPath) in
  node_at (fs w) name = Some (RegularFile old) →
  template_Parse L path src = Some tmpl →
  name ∉ wfault env →
  ∃ r w', copy_visit L env templateFilesPath directoryName home path (EFile src) w = (r, w')
          ∧ fs w' !! name = Some (RegularFile (template_Execute L tmpl directoryName home).1).
Proof.
  intros name Hn Hp Hf. destruct (node_at_file _ _ _ Hn) as [Hdot _]. subst name.
  destruct (template_Execute L tmpl directoryName home) as [out ok] eqn:Hex; cbn [fst].
  assert (∃ w', copy_visit L env templateFilesPath directoryName home path (EFile src) w
                = (if ok then Val tt else Err ErrTemplate, w')
                ∧ fs w' !! filepath_Join_dot (strings_TrimPrefix path templateFilesPath)
                  = Some (RegularFile out)) as (w' & E & Hw').
  { destruct ok; (eexists; split;
      [ unfold copy_visit, os_Stat, os_Create, File_WriteString; munfold;
        rewrite Hn, Hp; cbn [os_IsExist]; munfold; rewrite Hn; munfold;
        rewrite decide_False by exact Hf;
        rewrite node_at_insert_eq by exact Hdot; rewrite Hex; cbn [fst snd];
        reflexivity
      | cbn [fs]; rewrite insert_insert_eq; apply lookup_insert_eq ]). }
  eexists. exists w'. split; [exact E | exact Hw'].
Qed.

(** A patch step on a file that can be truncated but not written
    returns no error and leaves the file empty. *)
Lemma exec_patch_write_failure (L : Libs) (env : Env) (properties : RawMessage)
    (patch : patchStep) (b packed : string) (value value' : hujson_Value L) (w : World) :
  json_Unmarshal_patch L properties = Some patch →
  node_at (fs w) (patch_File patch) = Some (RegularFile b) →
  hujson_Parse L b = Some value →
  hujson_Patch L value (patch_Patch patch) = Some value' →
  apply_regex L (patch_Regex patch) (hujson_Pack L value') = Val packed →
  patch_File patch ∈ wfault env →
  ∃ w', exec_patch L env properties w = (Val tt, w')
        ∧ fs w' !! patch_File patch = Some (RegularFile "").
Proof.
  intros Hd Hn Hpa Hpt Hre Hf. destruct (node_at_file _ _ _ Hn) as [Hdot _].
  unfold exec_patch, os_ReadFile, os_Create, File_WriteString. rewrite Hd. munfold.
  rewrite Hn. munfold. rewrite Hpa, Hpt, Hre. munfold. rewrite Hn. munfold.
  rewrite decide_True by exact Hf.
  eexists. split; [reflexivity |]. cbn [fs]. apply lookup_insert_eq.
Qed.

(** Two sections with one path that the content read from the ignore
    file does not contain are both appended. *)
Lemma write_gitignore_twice (env : Env) (content old : string) (a b : gitignoreStep)
    (w : World) :
  gi_Path a = gi_Path b →
  strings_Contains content (gi_Path a) = false →
  ".gitignore" ∉ wfault env →
  fs w !! ".gitignore" = Some (RegularFile old) →
  ∃ w' T,
    write_gitignore env ".gitignore" content [a; b] w = (Val tt, w')
    ∧ trace w' = trace w ++ T
    ∧ EvWriteString ".gitignore" (LF +:+ gi_Name a +:+ LF +:+ gi_Path a +:+ LF) ∈ T
    ∧ EvWriteString ".gitignore" (LF +:+ gi_Name b +:+ LF +:+ gi_Path b +:+ LF) ∈ T.
Proof.
  intros Hab Ha Hf Hold.
  assert (∀ (s : gitignoreStep) (rest : list gitignoreStep) (w0 : World) (old0 : string),
            strings_Contains content (gi_Path s) = false →
            fs w0 !! ".gitignore" = Some (RegularFile old0) →
            ∃ w1 old1 T1,
              write_gitignore env ".gitignore" content (s :: rest) w0
                = write_gitignore env ".gitignore" content rest w1
              ∧ fs w1 !! ".gitignore" = Some (RegularFile old1)
              ∧ trace w1 = trace w0 ++ T1
              ∧ EvWriteString ".gitignore" (LF +:+ gi_Name s +:+ LF +:+ gi_Path s +:+ LF) ∈ T1)
    as Hstep.
  { intros s rest w0 old0 Hs H0. cbn [write_gitignore]. rewrite Hs. cbn [negb].
    destruct (negb (content =? "") && negb (strings_HasSuffix content LF)).
    - unfold bind at 1. unfold bind at 1.
      rewrite (File_WriteString_ok env _ _ old0) by (rewrite ?node_at_gitignore; done).
      unfold ret at 1. unfold bind at 1.
      rewrite (File_WriteString_ok env _ _ (old0 +:+ LF))
        by (rewrite ?node_at_gitignore; cbn [fs]; rewrite ?lookup_insert_eq; done).
      cbn [fs trace]. eexists. eexists. eexists.
      split; [reflexivity |]. cbn [fs trace].
      split; [apply lookup_insert_eq |]. split; [rewrite <- app_assoc; reflexivity |].
      set_solver.
    - unfold bind at 1. unfold ret at 1. unfold bind at 1.
      rewrite (File_WriteString_ok env _ _ old0) by (rewrite ?node_at_gitignore; done).
      eexists. eexists. eexists.
      split; [reflexivity |]. cbn [fs trace].
      split; [apply lookup_insert_eq |]. split; [reflexivity |].
      set_solver. }
  destruct (Hstep a [b] w old Ha Hold) as (w1 & old1 & T1 & E1 & H1 & Ht1 & Hin1).
  rewrite Hab in Ha.
  destruct (Hstep b [] w1 old1 Ha H1) as (w2 & old2 & T2 & E2 & H2 & Ht2 & Hin2).
  exists w2, (T1 ++ T2). rewrite E1, E2. cbn [write_gitignore].
  split; [reflexivity |]. split; [rewrite Ht2, Ht1, app_assoc; reflexivity |].
  split; set_solver.
Qed.

(** ** Further properties: inversion of [bind], file-system frames *)

Lemma bind_inv {A B} (m : M A) (k : A → M B) (w w' : World) (r : result B) :
  bind m k w = (r, w') →
  (∃ a w1, m w = (Val a, w1) ∧ k a w1 = (r, w'))
  ∨ (∃ e, m w = (Err e, w') ∧ r = Err e)
  ∨ (m w = (Panic, w') ∧ r = Panic).
Proof.
  unfold bind. destruct (m w) as [[a|e|] w1]; intros H.
  - left. exists a, w1. split; [reflexivity | exact H].
  - right. left. injection H as <- <-. exists e. split; reflexivity.
  - right. right. injection H as <- <-. split; reflexivity.
Qed.

Lemma keeps_fs_ret {A} (a : A) : keeps_fs (ret a).
Proof. intros w r w' [= _ <-]. reflexivity. Qed.

Lemma keeps_fs_fail {A} (e : error) : keeps_fs (@fail A e).
Proof. intros w r w' [= _ <-]. reflexivity. Qed.

Lemma keeps_fs_panic {A} : keeps_fs (@panic A).
Proof. intros w r w' [= _ <-]. reflexivity. Qed.

Lemma keeps_fs_lift {A} (x : result A) : keeps_fs (lift x).
Proof. intros w r w' [= _ <-]. reflexivity. Qed.

Lemma keeps_fs_get_fs : keeps_fs get_fs.
Proof. intros w r w' [= _ <-]. reflexivity. Qed.

Lemma keeps_fs_emit (e : event) : keeps_fs (emit e).
Proof. intros w r w' [= _ <-]. reflexivity. Qed.

Lemma keeps_fs_bind {A B} (m : M A) (k : A → M B) :
  keeps_fs m → (∀ a, keeps_fs (k a)) → keeps_fs (bind m k).
Proof.
  intros Hm Hk w r w' H.
  destruct (bind_inv _ _ _ _ _ H) as [(a & w1 & H1 & H2) | [(e & H1 & _) | [H1 _]]].
  - rewrite (Hk _ _ _ _ H2). exact (Hm _ _ _ H1).
  - exact (Hm _ _ _ H1).
  - exact (Hm _ _ _ H1).
Qed.

Ltac keeps_fs_step :=
  first
    [ apply keeps_fs_ret | apply keeps_fs_fail | apply keeps_fs_panic | apply keeps_fs_lift
    | apply keeps_fs_get_fs | apply keeps_fs_emit
    | apply keeps_fs_bind; [| intros ?]
    | match goal with
      | |- keeps_fs (match ?x with _ => _ end) => destruct x
      | |- keeps_fs (if ?b then _ else _) => destruct b
      end ].

Ltac keeps_fs_auto := cbv zeta; repeat keeps_fs_step.

(** X1. During the loop only patch and copy steps touch the file
    system: a dependency step, an ignore step and a step of an unknown
    type leave every file as it was, whatever they return (the dependency
    step only reads; its write is deferred to the flush). *)
Theorem only_patch_and_copy_touch_files (L : Libs) (env : Env)
    (templateName directoryName home : string) (s : step) (st : LoopState)
    (w w' : World) (r : result LoopState) :
  step_Type s ≠ "patch" →
  step_Type s ≠ "copy" →
  exec_step L env templateName directoryName home s st w = (r, w') →
  fs w' = fs w.
Proof.
  intros Hp Hc. revert w r w'.
  change (keeps_fs (exec_step L env templateName directoryName home s st)).
  unfold exec_step.
  rewrite (decide_False (P := step_Type s = "patch")) by exact Hp.
  rewrite (decide_False (P := step_Type s = "copy")) by exact Hc.
  repeat case_decide.
  - unfold exec_npm, load_packageJson, resolve_version, http_Get, os_Open, File_read.
    keeps_fs_auto.
  - unfold exec_gitignore. keeps_fs_auto.
  - keeps_fs_auto.
Qed.

Lemma only_patch_and_copy_touch_files_witness :
  fs (exec_step deps_libs deps_env "t" "app" "home"
        {| step_Type := "npm"; step_Properties := "n2" |} initial_state deps_world).2
  = fs deps_world.
Proof.
  apply (only_patch_and_copy_touch_files deps_libs deps_env "t" "app" "home"
           {| step_Type := "npm"; step_Properties := "n2" |} initial_state deps_world _
           (exec_step deps_libs deps_env "t" "app" "home"
              {| step_Type := "npm"; step_Properties := "n2" |} initial_state deps_world).1);
    [discriminate | discriminate |].
  destruct (exec_step deps_libs deps_env "t" "app" "home"
              {| step_Type := "npm"; step_Properties := "n2" |} initial_state deps_world);
    reflexivity.
Defined.

(** ** Further properties: the flush of the ignore sections *)

Lemma string_app_empty_r (s : string) : s +:+ "" = s.
Proof.
  induction s as [|c s IH]; [reflexivity |].
  change (String c (s +:+ "") = String c s). rewrite IH. reflexivity.
Qed.

Lemma strings_HasPrefix_app_l (p s t : string) :
  strings_HasPrefix s p = true → strings_HasPrefix (s +:+ t) p = true.
Proof.
  revert s. induction p as [|c p IH]; intros s H; [destruct (s +:+ t); reflexivity |].
  destruct s as [|d s]; [discriminate |].
  change (strings_HasPrefix (String d (s +:+ t)) (String c p) = true).
  cbn [strings_HasPrefix] in H |- *.
  destruct (Ascii.eqb c d); [apply IH; exact H | discriminate].
Qed.

Lemma strings_HasPrefix_refl (p : string) : strings_HasPrefix p p = true.
Proof.
  induction p as [|c p IH]; [reflexivity |].
  cbn [strings_HasPrefix]. rewrite Ascii.eqb_refl. exact IH.
Qed.

Lemma strings_Contains_HasPrefix (s p : string) :
  strings_HasPrefix s p = true → strings_Contains s p = true.
Proof. intros H. destruct s; cbn [strings_Contains]; rewrite H; reflexivity. Qed.

Lemma strings_Contains_app_l (s t p : string) :
  strings_Contains s p = true → strings_Contains (s +:+ t) p = true.
Proof.
  induction s as [|c s IH]; intros H.
  - apply strings_Contains_HasPrefix.
    cbn [strings_Contains] in H.
    destruct (strings_HasPrefix "" p) eqn:E; [| discriminate].
    apply strings_HasPrefix_app_l. exact E.
  - change (strings_Contains (String c (s +:+ t)) p = true).
    cbn [strings_Contains] in H |- *.
    destruct (strings_HasPrefix (String c s) p) eqn:E.
    + change (String c (s +:+ t)) with (String c s +:+ t).
      rewrite (strings_HasPrefix_app_l _ _ _ E). reflexivity.
    + destruct (strings_HasPrefix (String c (s +:+ t)) p); [reflexivity | apply IH; exact H].
Qed.

Lemma strings_Contains_app_r (s t p : string) :
  strings_Contains t p = true → strings_Contains (s +:+ t) p = true.
Proof.
  intros H. induction s as [|c s IH]; [exact H |].
  change (strings_Contains (String c (s +:+ t)) p = true).
  cbn [strings_Contains].
  destruct (strings_HasPrefix (String c (s +:+ t)) p); [reflexivity | exact IH].
Qed.

Lemma gitignore_section_Contains (step : gitignoreStep) :
  strings_Contains (gitignore_section step) (gi_Path step) = true.
Proof.
  unfold gitignore_section.
  do 3 apply strings_Contains_app_r.
  apply strings_Contains_HasPrefix, strings_HasPrefix_app_l, strings_HasPrefix_refl.
Qed.

(** A write through a handle on a regular file: it fails on a faulty
    path and appends otherwise. *)
Lemma File_WriteString_cases (env : Env) (h data cur : string) (w : World) :
  node_at (fs w) h = Some (RegularFile cur) →
  File_WriteString env h data w =
    (Val (if decide (h ∈ wfault env) then Some ENOSPC else None),
     {| fs := if decide (h ∈ wfault env) then fs w
              else <[h := RegularFile (cur +:+ data)]> (fs w);
        trace := trace w ++ [EvWriteString h data] |}).
Proof.
  intros Hn. unfold File_WriteString. munfold.
  destruct (decide (h ∈ wfault env)) as [Hf | Hf].
  - rewrite decide_True by exact Hf. reflexivity.
  - rewrite decide_False by exact Hf. rewrite Hn. reflexivity.
Qed.

(** The loop of lines 280-290 with the ignore file holding [cur]. *)
Lemma write_gitignore_appends (env : Env) (content : string) (steps : list gitignoreStep) :
  ∀ (cur : string) (w w' : World) (r : result unit),
    fs w !! ".gitignore" = Some (RegularFile cur) →
    write_gitignore env ".gitignore" content steps w = (r, w') →
    ∃ x, fs w' = <[".gitignore" := RegularFile (cur +:+ x)]> (fs w)
         ∧ (r = Val tt →
            Forall (λ s, strings_Contains content (gi_Path s) = true
                         ∨ strings_Contains x (gi_Path s) = true) steps)
         ∧ (".gitignore" ∉ wfault env →
            r = Val tt ∧ x = gitignore_appended content steps).
Proof.
  induction steps as [| step rest IH]; intros cur w w' r Hcur H;
    cbn [write_gitignore gitignore_appended] in H |- *.
  - injection H as <- <-. exists "". rewrite string_app_empty_r.
    split; [symmetry; apply insert_id; exact Hcur |].
    split; [intros _; constructor | intros _; split; reflexivity].
  - destruct (strings_Contains content (gi_Path step)) eqn:Hc; cbn [negb] in H.
    + destruct (IH _ _ _ _ Hcur H) as (x & Hfs & Hall & Hok).
      exists x. split; [exact Hfs |].
      split; [intros Hr; constructor; [left; exact Hc | exact (Hall Hr)] | exact Hok].
    + assert (∃ w1, (if negb (content =? "") && negb (strings_HasSuffix content LF)
                     then let* _ := File_WriteString env ".gitignore" LF in ret tt
                     else ret tt) w
                    = (Val tt, w1)
                    ∧ fs w1 = (if decide (".gitignore" ∈ wfault env) then fs w
                               else <[".gitignore" :=
                                      RegularFile (cur +:+ gitignore_separator content)]> (fs w)))
        as (w1 & Hsep & Hfs1).
      { unfold gitignore_separator.
        destruct (negb (content =? "") && negb (strings_HasSuffix content LF)).
        - unfold bind. rewrite (File_WriteString_cases env _ _ cur)
            by (rewrite node_at_gitignore; exact Hcur).
          eexists. split; [reflexivity |]. reflexivity.
        - exists w. split; [reflexivity |]. rewrite string_app_empty_r.
          case_decide; [reflexivity |]. symmetry. apply insert_id. exact Hcur. }
      rewrite (bind_eq _ _ _ _ _ Hsep) in H.
      destruct (decide (".gitignore" ∈ wfault env)) as [Hf | Hf].
      * unfold bind in H.
        rewrite (File_WriteString_cases env _ _ cur) in H
          by (rewrite node_at_gitignore, Hfs1; exact Hcur).
        rewrite !decide_True in H by exact Hf. injection H as <- <-.
        cbn [fs]. exists "". rewrite string_app_empty_r, Hfs1.
        split; [symmetry; apply insert_id; exact Hcur |].
        split; [discriminate | intros Hnf; contradiction].
      * unfold bind in H.
        rewrite (File_WriteString_cases env _ _ (cur +:+ gitignore_separator content)) in H
          by (rewrite node_at_gitignore, Hfs1; apply lookup_insert_eq).
        rewrite !decide_False in H by exact Hf.
        match type of H with write_gitignore _ _ _ _ ?w2 = _ =>
          destruct (IH ((cur +:+ gitignore_separator content) +:+ gitignore_section step)
                       w2 w' r) as (x & Hfs & Hall & Hok);
            [cbn [fs]; apply lookup_insert_eq | exact H |] end.
        cbn [fs] in Hfs. rewrite Hfs1, !insert_insert_eq in Hfs.
        exists (gitignore_separator content +:+ gitignore_section step +:+ x).
        split; [rewrite Hfs, !string_app_assoc; reflexivity |].
        split.
        -- intros Hr. constructor.
           ++ right. apply strings_Contains_app_r, strings_Contains_app_l,
                gitignore_section_Contains.
           ++ eapply Forall_impl; [exact (Hall Hr) |].
              intros s [Hs | Hs]; [left; exact Hs | right].
              do 2 apply strings_Contains_app_r. exact Hs.
        -- intros _. destruct (Hok Hf) as [-> ->]. split; reflexivity.
Qed.

(** Opening and reading the ignore file, lines 269-278. *)
Lemma flush_gitignore_open (env : Env) (steps : list gitignoreStep) (content : string)
    (w : World) :
  gitignore_content w = Some content →
  flush_gitignore env steps w =
    write_gitignore env ".gitignore" content steps
      {| fs := <[".gitignore" := RegularFile content]> (fs w);
         trace := trace w ++ [EvOpenFile ".gitignore"; EvReadAll ".gitignore"] |}.
Proof.
  unfold gitignore_content, flush_gitignore, os_OpenFile_RDWR_CREATE, File_read. munfold.
  rewrite node_at_gitignore.
  destruct (fs w !! ".gitignore") as [[c|]|] eqn:Hg; intros [= <-]; munfold.
  - rewrite node_at_gitignore, Hg, <- app_assoc, (insert_id _ _ _ Hg). reflexivity.
  - rewrite node_at_gitignore, lookup_insert_eq, <- app_assoc. reflexivity.
Qed.

Lemma flush_gitignore_Val_content (env : Env) (steps : list gitignoreStep) (w w' : World) :
  flush_gitignore env steps w = (Val tt, w') →
  ∃ content, gitignore_content w = Some content.
Proof.
  unfold gitignore_content, flush_gitignore, os_OpenFile_RDWR_CREATE. munfold.
  rewrite node_at_gitignore.
  destruct (fs w !! ".gitignore") as [[c|]|]; [eexists; reflexivity | discriminate |
                                                eexists; reflexivity].
Qed.

Lemma flush_gitignore_Val_lists (env : Env) (steps : list gitignoreStep) (w w' : World) :
  flush_gitignore env steps w = (Val tt, w') →
  ∃ c, fs w' !! ".gitignore" = Some (RegularFile c)
       ∧ Forall (λ s, strings_Contains c (gi_Path s) = true) steps.
Proof.
  intros H. destruct (flush_gitignore_Val_content _ _ _ _ H) as (content & Hc).
  rewrite (flush_gitignore_open _ _ _ _ Hc) in H.
  apply (write_gitignore_appends _ _ _ content) in H as (x & Hfs & Hall & _);
    [| cbn [fs]; apply lookup_insert_eq].
  exists (content +:+ x). split; [rewrite Hfs; apply lookup_insert_eq |].
  eapply Forall_impl; [exact (Hall eq_refl) |].
  intros s [Hs | Hs]; [apply strings_Contains_app_l | apply strings_Contains_app_r]; exact Hs.
Qed.

Lemma write_gitignore_all_contained (env : Env) (h content : string)
    (steps : list gitignoreStep) (w : World) :
  Forall (λ s, strings_Contains content (gi_Path s) = true) steps →
  write_gitignore env h content steps w = (Val tt, w).
Proof.
  induction 1 as [| step rest Hs _ IH]; cbn [write_gitignore]; [reflexivity |].
  rewrite Hs. exact IH.
Qed.

(** X2. What the flush of the ignore sections leaves when the ignore
    file can be written: the old content followed, for each section in
    order whose path the old content does not contain, by the separator
    newline (when the old content is not empty and does not end in a
    newline) and the section.  Every section is compared with the old
    content, so the separator is repeated before each. *)
Theorem flush_gitignore_content (env : Env) (steps : list gitignoreStep) (content : string)
    (w : World) :
  ".gitignore" ∉ wfault env →
  gitignore_content w = Some content →
  ∃ w', flush_gitignore env steps w = (Val tt, w')
        ∧ fs w' = <[".gitignore" :=
                    RegularFile (content +:+ gitignore_appended content steps)]> (fs w).
Proof.
  intros Hf Hc. rewrite (flush_gitignore_open _ _ _ _ Hc).
  match goal with |- context [write_gitignore ?e ?h ?c ?s ?w0] =>
    destruct (write_gitignore e h c s w0) as [r w'] eqn:H end.
  apply (write_gitignore_appends _ _ _ content) in H as (x & Hfs & _ & Hok);
    [| cbn [fs]; apply lookup_insert_eq].
  destruct (Hok Hf) as [-> ->]. exists w'. split; [reflexivity |].
  rewrite Hfs. cbn [fs]. apply insert_insert_eq.
Qed.

Lemma flush_gitignore_content_witness :
  ∃ w', flush_gitignore twice_env twice_sections unterminated_world = (Val tt, w')
        ∧ fs w' = <[".gitignore" :=
                    RegularFile ("dist" +:+ gitignore_appended "dist" twice_sections)]>
                    (fs unterminated_world).
Proof.
  apply (flush_gitignore_content twice_env twice_sections "dist" unterminated_world);
    [| reflexivity].
  apply (bool_decide_unpack _). vm_compute. exact I.
Defined.

(** X3. After a flush that returns nil the ignore file is a regular
    file whose content contains the path of every section, the default
    [.sst] included when it is in the list. *)
Theorem flush_gitignore_lists_every_path (env : Env) (steps : list gitignoreStep)
    (w w' : World) :
  flush_gitignore env steps w = (Val tt, w') →
  ∃ c, fs w' !! ".gitignore" = Some (RegularFile c)
       ∧ Forall (λ s, strings_Contains c (gi_Path s) = true) steps.
Proof. apply flush_gitignore_Val_lists. Qed.

Lemma flush_gitignore_lists_every_path_witness :
  ∃ c, fs (flush_gitignore twice_env twice_sections unterminated_world).2 !! ".gitignore"
       = Some (RegularFile c)
       ∧ Forall (λ s, strings_Contains c (gi_Path s) = true) twice_sections.
Proof.
  apply (flush_gitignore_lists_every_path twice_env twice_sections unterminated_world).
  vm_compute. reflexivity.
Defined.

(** X4. The flush only appends to the ignore file: whatever it returns,
    also when a write fails, the old content is still the beginning of
    the file and no other path has changed. *)
Theorem flush_gitignore_appends_only (env : Env) (steps : list gitignoreStep)
    (content : string) (w w' : World) (r : result unit) :
  gitignore_content w = Some content →
  flush_gitignore env steps w = (r, w') →
  ∃ x, fs w' = <[".gitignore" := RegularFile (content +:+ x)]> (fs w).
Proof.
  intros Hc H. rewrite (flush_gitignore_open _ _ _ _ Hc) in H.
  apply (write_gitignore_appends _ _ _ content) in H as (x & Hfs & _);
    [| cbn [fs]; apply lookup_insert_eq].
  exists x. rewrite Hfs. cbn [fs]. apply insert_insert_eq.
Qed.

Lemma flush_gitignore_appends_only_witness :
  ∃ x, fs (flush_gitignore patch_env twice_sections unterminated_world).2
       = <[".gitignore" := RegularFile ("dist" +:+ x)]> (fs unterminated_world).
Proof.
  apply (flush_gitignore_appends_only patch_env twice_sections "dist" unterminated_world _
           (flush_gitignore patch_env twice_sections unterminated_world).1);
    [reflexivity |].
  destruct (flush_gitignore patch_env twice_sections unterminated_world); reflexivity.
Defined.

(** X5. Flushing the same sections again changes nothing: after a
    flush that returned nil, a second one returns nil and leaves the
    file system as the first left it. *)
Theorem flush_gitignore_idempotent (env : Env) (steps : list gitignoreStep)
    (w w1 : World) :
  flush_gitignore env steps w = (Val tt, w1) →
  ∃ w2, flush_gitignore env steps w1 = (Val tt, w2) ∧ fs w2 = fs w1.
Proof.
  intros H. destruct (flush_gitignore_Val_lists _ _ _ _ H) as (c & Hc & Hall).
  assert (gitignore_content w1 = Some c) as Hg
    by (unfold gitignore_content; rewrite Hc; reflexivity).
  rewrite (flush_gitignore_open _ _ _ _ Hg), (write_gitignore_all_contained _ _ _ _ _ Hall).
  eexists. split; [reflexivity |]. cbn [fs]. apply insert_id. exact Hc.
Qed.

Lemma flush_gitignore_idempotent_witness :
  ∃ w2, flush_gitignore twice_env twice_sections
          (flush_gitignore twice_env twice_sections unterminated_world).2 = (Val tt, w2)
        ∧ fs w2 = fs (flush_gitignore twice_env twice_sections unterminated_world).2.
Proof.
  apply (flush_gitignore_idempotent twice_env twice_sections unterminated_world).
  vm_compute. reflexivity.
Defined.

(** ** Further properties: the sections a pipeline registers *)

Lemma exec_step_gitignoreSteps (L : Libs) (env : Env)
    (templateName directoryName home : string)
    (s : step) (st st' : LoopState) (w w' : World) :
  exec_step L env templateName directoryName home s st w = (Val st', w') →
  gitignoreSteps st' = gitignoreSteps st ++ registered_sections L [s].
Proof.
  unfold registered_sections. cbn [omap list_omap]. unfold exec_step.
  destruct (decide (step_Type s = "npm")) as [Hn | Hn].
  - rewrite decide_False by (rewrite Hn; discriminate). rewrite app_nil_r.
    destruct (json_Unmarshal_npm L (step_Properties s)) as [npm|] eqn:Hdec;
      [| unfold exec_npm; rewrite Hdec; discriminate].
    intros Hex.
    apply (exec_npm_Val _ _ _ _ _ _ _ _ Hdec) in Hex as (_ & _ & _ & _ & _ & _ & _ & _ & _ & Hg).
    exact Hg.
  - destruct (decide (step_Type s = "patch")) as [Hp | Hp].
    + rewrite decide_False by (rewrite Hp; discriminate). rewrite app_nil_r.
      intros Hex. apply bind_Val_inv in Hex as (? & ? & _ & [= <- _]). reflexivity.
    + destruct (decide (step_Type s = "copy")) as [Hc | Hc].
      * rewrite decide_False by (rewrite Hc; discriminate). rewrite app_nil_r.
        intros Hex. apply bind_Val_inv in Hex as (? & ? & _ & [= <- _]). reflexivity.
      * destruct (decide (step_Type s = "gitignore")) as [Hg | Hg].
        -- unfold exec_gitignore.
           destruct (json_Unmarshal_gitignore L (step_Properties s)); [| discriminate].
           intros [= <- _]. reflexivity.
        -- rewrite app_nil_r. intros [= <- _]. reflexivity.
Qed.

Lemma registered_sections_cons (L : Libs) (s : step) (rest : list step) :
  registered_sections L (s :: rest) = registered_sections L [s] ++ registered_sections L rest.
Proof.
  unfold registered_sections. cbn [omap list_omap].
  destruct (if decide (step_Type s = "gitignore")
            then json_Unmarshal_gitignore L (step_Properties s) else None); reflexivity.
Qed.

Lemma run_steps_gitignoreSteps (L : Libs) (env : Env)
    (templateName directoryName home : string) (steps : list step) :
  ∀ st st' w w',
    run_steps L env templateName directoryName home steps st w = (Val st', w') →
    gitignoreSteps st' = gitignoreSteps st ++ registered_sections L steps.
Proof.
  induction steps as [| s rest IH]; intros st st' w w' H; cbn [run_steps] in H.
  - injection H as <- _. rewrite app_nil_r. reflexivity.
  - apply bind_Val_inv in H as (st1 & w1 & H1 & H).
    rewrite (registered_sections_cons L s rest), app_assoc.
    rewrite (IH _ _ _ _ H), (exec_step_gitignoreSteps _ _ _ _ _ _ _ _ _ _ H1). reflexivity.
Qed.

(** X6. The loop registers the ignore sections in pipeline order: when
    it returns, the list of sections is the one it started with, then
    the payload of every gitignore step in the order of the steps; no
    other kind of step adds or removes a section. *)
Theorem sections_registered_in_order (L : Libs) (env : Env)
    (templateName directoryName home : string) (steps : list step)
    (st st' : LoopState) (w w' : World) :
  run_steps L env templateName directoryName home steps st w = (Val st', w') →
  gitignoreSteps st' = gitignoreSteps st ++ registered_sections L steps.
Proof. apply run_steps_gitignoreSteps. Qed.

Lemma sections_registered_in_order_witness :
  gitignoreSteps (match (run_steps twice_libs twice_env "t" "app" "home"
                           [ {| step_Type := "gitignore"; step_Properties := "g1" |};
                             {| step_Type := "yarn"; step_Properties := "g2" |};
                             {| step_Type := "gitignore"; step_Properties := "g2" |} ]
                           initial_state (world_of ∅)).1 with
                  | Val st' => st'
                  | _ => initial_state
                  end)
  = gitignoreSteps initial_state
    ++ registered_sections twice_libs
         [ {| step_Type := "gitignore"; step_Properties := "g1" |};
           {| step_Type := "yarn"; step_Properties := "g2" |};
           {| step_Type := "gitignore"; step_Properties := "g2" |} ].
Proof.
  apply (sections_registered_in_order twice_libs twice_env "t" "app" "home" _ initial_state _
           (world_of ∅)
           (run_steps twice_libs twice_env "t" "app" "home"
              [ {| step_Type := "gitignore"; step_Properties := "g1" |};
                {| step_Type := "yarn"; step_Properties := "g2" |};
                {| step_Type := "gitignore"; step_Properties := "g2" |} ]
              initial_state (world_of ∅)).2).
  vm_compute. reflexivity.
Defined.

(** X7. After a [Create] that found its working directory and returned
    nil, the ignore file is a regular file that contains [.sst] and the
    path of every gitignore step of the preset. *)
Theorem Create_ignore_file_lists_sections (L : Libs) (env : Env)
    (templateName home d presetBytes : string) (T : Template) (steps : list step)
    (w w' : World) :
  cwd env = Some d →
  Templates env !! templateName = Some T →
  preset_json T = Some presetBytes →
  json_Unmarshal_preset L presetBytes = Some steps →
  Create L env templateName home w = (Val tt, w') →
  ∃ c, fs w' !! ".gitignore" = Some (RegularFile c)
       ∧ strings_Contains c ".sst" = true
       ∧ Forall (λ g, strings_Contains c (gi_Path g) = true) (registered_sections L steps).
Proof.
  intros Hc HT Hp Hd H.
  destruct (Create_Val_inv _ _ _ _ _ _ H) as [_ [Hc' | Hrun]]; [congruence |].
  destruct Hrun as (d' & T' & pb & steps' & st & w1 & w2 & _ & HT' & Hp' & Hd' & Hrun & _ & Hf2).
  assert (steps' = steps) as -> by congruence.
  apply run_steps_gitignoreSteps in Hrun. cbn [gitignoreSteps initial_state] in Hrun.
  destruct (flush_gitignore_Val_lists _ _ _ _ Hf2) as (c & Hfile & Hall).
  rewrite Hrun in Hall. apply Forall_app in Hall as [Hdef Hreg].
  exists c. split; [exact Hfile |]. split; [| exact Hreg].
  unfold initial_gitignoreSteps in Hdef. apply Forall_cons in Hdef as [Hsst _]. exact Hsst.
Qed.

Lemma Create_ignore_file_lists_sections_witness :
  ∃ c, fs (Create twice_libs twice_env "t" "home" unterminated_world).2 !! ".gitignore"
       = Some (RegularFile c)
       ∧ strings_Contains c ".sst" = true
       ∧ Forall (λ g, strings_Contains c (gi_Path g) = true)
           (registered_sections twice_libs
              [ {| step_Type := "gitignore"; step_Properties := "g1" |};
                {| step_Type := "gitignore"; step_Properties := "g2" |} ]).
Proof.
  apply (Create_ignore_file_lists_sections twice_libs twice_env "t" "home" "/work/app" "preset"
           {| preset_json := Some "preset"; files := None |} _ unterminated_world);
    try reflexivity.
Defined.

(** ** Further properties: dependency steps *)

Lemma last_write_wins_witness :
  ∃ v, version_of deps_libs deps_env deps_npm2 = Some v
       ∧ dep_at (packageJsons
                   (state_of (run_steps deps_libs deps_env "t" "app" "home"
                                ([deps_step1] ++ deps_step2 :: []) initial_state deps_world)))
           "package.json" "dependencies" "sst"
         = Some (JString v).
Proof.
  apply (last_write_wins deps_libs deps_env "t" "app" "home" [deps_step1] [] deps_step2
           deps_npm2 initial_state _ deps_world
           (run_steps deps_libs deps_env "t" "app" "home"
              ([deps_step1] ++ deps_step2 :: []) initial_state deps_world).2);
    [reflexivity | reflexivity | constructor | vm_compute; reflexivity].
Defined.

(** X9. A dependency step without a version takes the one the registry
    answers: when the request to the package's [latest] URL gives a body
    that decodes to a version, a step that returns has set the package
    to that version under its field of the document of its file. *)
Theorem latest_version_registered (L : Libs) (env : Env)
    (templateName directoryName home : string) (s : step) (npm : npmStep)
    (body v : string) (st st' : LoopState) (w w' : World) :
  step_Type s = "npm" →
  json_Unmarshal_npm L (step_Properties s) = Some npm →
  npm_Version npm = "" →
  registry env !! ("https://registry.npmjs.org/" +:+ npm_Package npm +:+ "/latest") = Some body →
  json_Decode_version L body = Some v →
  exec_step L env templateName directoryName home s st w = (Val st', w') →
  dep_at (packageJsons st') (npm_File npm) (npm_field npm) (npm_Package npm)
    = Some (JString v).
Proof.
  intros Hty Hdec Hver Hreg Hbody H.
  rewrite exec_step_npm in H by exact Hty.
  apply (exec_npm_Val _ _ _ _ _ _ _ _ Hdec) in H
    as (doc0 & doc & v' & _ & _ & Hv & (Hm & _) & _ & Hp & _).
  unfold version_of in Hv. rewrite decide_True in Hv by exact Hver.
  rewrite Hreg in Hv. cbn in Hv. rewrite Hbody in Hv. injection Hv as <-.
  unfold dep_at. rewrite Hp, lookup_insert_eq, Hm. apply lookup_insert_eq.
Qed.

Lemma latest_version_registered_witness :
  dep_at (packageJsons
            (state_of (exec_step deps_libs deps_env "t" "app" "home" deps_step2
                         initial_state deps_world)))
    "package.json" "dependencies" "sst"
  = Some (JString "3.0.1").
Proof.
  apply (latest_version_registered deps_libs deps_env "t" "app" "home" deps_step2 deps_npm2
           "3.0.1" "3.0.1" initial_state _ deps_world
           (exec_step deps_libs deps_env "t" "app" "home" deps_step2
              initial_state deps_world).2);
    reflexivity.
Defined.

Lemma run_steps_Val_each (L : Libs) (env : Env) (templateName directoryName home : string)
    (s : step) (steps : list step) :
  s ∈ steps →
  ∀ st st' w w',
    run_steps L env templateName directoryName home steps st w = (Val st', w') →
    ∃ st0 st1 w0 w1,
      exec_step L env templateName directoryName home s st0 w0 = (Val st1, w1).
Proof.
  induction 1 as [s rest | a s rest _ IH]; intros st st' w w' H; cbn [run_steps] in H;
    apply bind_Val_inv in H as (st1 & w1 & H1 & H).
  - exists st, st1, w, w1. exact H1.
  - exact (IH _ _ _ _ H).
Qed.

(** X10. A version that cannot be resolved aborts the whole run: when
    the preset has a dependency step without a version whose registry
    request fails or whose answer does not decode, a [Create] that found
    its working directory does not return nil. *)
Theorem unresolved_version_aborts (L : Libs) (env : Env)
    (templateName home d presetBytes : string) (T : Template) (steps : list step)
    (s : step) (npm : npmStep) (w w' : World) :
  cwd env = Some d →
  Templates env !! templateName = Some T →
  preset_json T = Some presetBytes →
  json_Unmarshal_preset L presetBytes = Some steps →
  s ∈ steps →
  step_Type s = "npm" →
  json_Unmarshal_npm L (step_Properties s) = Some npm →
  version_of L env npm = None →
  Create L env templateName home w ≠ (Val tt, w').
Proof.
  intros Hc HT Hp Hd Hin Hty Hdec Hv H.
  destruct (Create_Val_inv _ _ _ _ _ _ H) as [_ [Hc' | Hrun]]; [congruence |].
  destruct Hrun as (d' & T' & pb & steps' & st & w1 & w2 & _ & HT' & Hp' & Hd' & Hrun & _).
  assert (steps' = steps) as -> by congruence.
  destruct (run_steps_Val_each _ _ _ _ _ _ _ Hin _ _ _ _ Hrun) as (st0 & st1 & w0 & w1' & Hs).
  rewrite exec_step_npm in Hs by exact Hty.
  apply (exec_npm_Val _ _ _ _ _ _ _ _ Hdec) in Hs as (_ & _ & v & _ & _ & Hv' & _).
  congruence.
Qed.

Lemma unresolved_version_aborts_witness :
  Create deps_libs offline_env "t" "home" deps_world
  ≠ (Val tt, (Create deps_libs offline_env "t" "home" deps_world).2).
Proof.
  apply (unresolved_version_aborts deps_libs offline_env "t" "home" "/work/app" "preset"
           {| preset_json := Some "preset"; files := None |} [deps_step1; deps_step2]
           deps_step2 deps_npm2 deps_world);
    try reflexivity.
  apply list_elem_of_further, list_elem_of_here.
Defined.

Lemma find_target_not_object (field : string) (v : jvalue) (doc : KeyValuePairs) :
  (field, v) ∈ doc →
  is_object v = false →
  ∀ i t, find_target field doc i t = Panic.
Proof.
  intros Hin Hv. induction doc as [| [k x] rest IH]; intros i t.
  - apply elem_of_nil in Hin. contradiction.
  - cbn [find_target]. apply elem_of_cons in Hin as [[= <- <-] | Hin].
    + rewrite decide_True by reflexivity. destruct v; try reflexivity. discriminate.
    + case_decide; [destruct x |]; try reflexivity; apply IH; exact Hin.
Qed.

(** X11. A field that is not a JSON object makes the dependency step
    panic: when the document read for the step holds, under
    [dependencies] (or [devDependencies] for a dev step), anything but an
    object, the type assertion of line 119 panics after the file was
    opened and read; nothing has been written. *)
Theorem npm_field_not_object_panics (L : Libs) (env : Env)
    (templateName directoryName home : string) (s : step) (npm : npmStep)
    (data : string) (doc : KeyValuePairs) (v : jvalue) (st : LoopState) (w : World) :
  step_Type s = "npm" →
  json_Unmarshal_npm L (step_Properties s) = Some npm →
  packageJsons st !! npm_File npm = None →
  node_at (fs w) (npm_File npm) = Some (RegularFile data) →
  json_Decode_KeyValuePairs L data = Some doc →
  (npm_field npm, v) ∈ doc →
  is_object v = false →
  exec_step L env templateName directoryName home s st w
  = (Panic, {| fs := fs w;
               trace := trace w ++ [EvOpen (npm_File npm); EvRead (npm_File npm)] |}).
Proof.
  intros Hty Hdec Hnone Hnode Hdoc Hin Hv.
  rewrite exec_step_npm by exact Hty.
  unfold exec_npm. rewrite Hdec. cbv zeta.
  unfold load_packageJson. rewrite Hnone. cbn [default].
  unfold os_Open, File_read. munfold. rewrite Hnode. munfold. rewrite Hnode. munfold.
  rewrite Hdoc. munfold.
  rewrite (find_target_not_object _ _ _ Hin Hv), <- app_assoc. reflexivity.
Qed.

Lemma npm_field_not_object_panics_witness :
  exec_step badfield_libs deps_env "t" "app" "home" deps_step1 initial_state deps_world
  = (Panic, {| fs := fs deps_world;
               trace := [EvOpen "package.json"; EvRead "package.json"] |}).
Proof.
  apply (npm_field_not_object_panics badfield_libs deps_env "t" "app" "home" deps_step1
           deps_npm1 "{ name: app }"
           [("name", JString "app"); ("dependencies", JString "none")]
           (JString "none") initial_state deps_world);
    try reflexivity.
  apply list_elem_of_further, list_elem_of_here.
Defined.

(** The target the loop of lines 117-121 leaves is the last pair with
    the field as its key. *)
Lemma find_target_last (field : string) (doc : KeyValuePairs) :
  ∀ i t j,
    find_target field doc i t = Val (Some j) →
    (t = Some j ∧ Forall (λ kv, kv.1 ≠ field) doc)
    ∨ ∃ m, (i ≤ j)%nat
           ∧ doc !! (j - i)%nat = Some (field, JObject m)
           ∧ ∀ k kv, (j - i < k)%nat → doc !! k = Some kv → kv.1 ≠ field.
Proof.
  induction doc as [| [key value] rest IH]; intros i t j H; cbn [find_target] in H.
  - left. split; [congruence | constructor].
  - case_decide as Hk.
    + destruct value as [| | | | |m]; try discriminate. subst key.
      right. destruct (IH _ _ _ H) as [[[= ->] Hall] | (m' & Hle & Hl & Hlast)].
      * exists m. split; [lia |]. rewrite Nat.sub_diag. split; [reflexivity |].
        intros k kv Hlt Hkv. destruct k as [| k]; [lia |]. cbn in Hkv.
        apply list_elem_of_lookup_2 in Hkv.
        exact (proj1 (Forall_forall _ _) Hall _ Hkv).
      * exists m'. split; [lia |].
        replace (j - i)%nat with (S (j - S i)) by lia. split; [exact Hl |].
        intros k kv Hlt Hkv. destruct k as [| k]; [lia |]. cbn in Hkv.
        apply (Hlast k kv); [lia | exact Hkv].
    + destruct (IH _ _ _ H) as [[-> Hall] | (m' & Hle & Hl & Hlast)].
      * left. split; [reflexivity |]. constructor; [exact Hk | exact Hall].
      * right. exists m'. split; [lia |].
        replace (j - i)%nat with (S (j - S i)) by lia. split; [exact Hl |].
        intros k kv Hlt Hkv. destruct k as [| k]; [lia |]. cbn in Hkv.
        apply (Hlast k kv); [lia | exact Hkv].
Qed.

(** A target, once found, is not lost. *)
Lemma find_target_Some_stays (field : string) (doc : KeyValuePairs) :
  ∀ i j r, find_target field doc i (Some j) = Val r → is_Some r.
Proof.
  induction doc as [| [key value] rest IH]; intros i j r H; cbn [find_target] in H.
  - injection H as <-. eexists; reflexivity.
  - case_decide.
    + destruct value; try discriminate. exact (IH _ _ _ H).
    + exact (IH _ _ _ H).
Qed.

(** No target is left when no pair has the field as its key. *)
Lemma find_target_None_keys (field : string) (doc : KeyValuePairs) :
  ∀ i, find_target field doc i None = Val None → Forall (λ kv, kv.1 ≠ field) doc.
Proof.
  induction doc as [| [key value] rest IH]; intros i H; cbn [find_target] in H;
    [constructor |].
  case_decide as Hk.
  - destruct value; try discriminate.
    destruct (find_target_Some_stays _ _ _ _ _ H) as [x Hx]. discriminate.
  - constructor; [exact Hk | exact (IH _ H)].
Qed.

(** Lines 116-126 and 148, pair by pair. *)
Lemma npm_assign_dep_pairs (field package version : string) (doc0 : KeyValuePairs)
    (found : option nat) :
  find_target field doc0 0 None = Val found →
  let appended :=
    match found with
    | Some i => (doc0, i)
    | None => (doc0 ++ [(field, JObject ∅)], length doc0)
    end in
  dep_pairs field package version doc0
    (map_assign appended.1 appended.2 package (JString version)).
Proof.
  intros Hfind. destruct found as [i|]; cbn [fst snd].
  - left. destruct (find_target_last _ _ _ _ _ Hfind) as [[[=] _] | (m & _ & Hl & Hlast)].
    rewrite Nat.sub_0_r in Hl, Hlast.
    exists i, m. split; [exact Hl |]. split; [exact Hlast |].
    unfold map_assign. rewrite Hl. reflexivity.
  - right. split; [exact (find_target_None_keys _ _ _ Hfind) |].
    unfold map_assign. rewrite lookup_app_r by lia. rewrite Nat.sub_diag. cbn [lookup].
    cbn. rewrite insert_app_r_alt by lia. rewrite Nat.sub_diag. reflexivity.
Qed.

(** A pair with another key is, after the step, the pair it was, at
    the place it had. *)
Lemma dep_pairs_other (field package version : string) (doc0 doc : KeyValuePairs) :
  dep_pairs field package version doc0 doc →
  ∀ j kv, doc0 !! j = Some kv → kv.1 ≠ field → doc !! j = Some kv.
Proof.
  intros [(i & m & Hi & _ & ->) | (_ & ->)] j kv Hj Hk.
  - rewrite list_lookup_insert_ne; [exact Hj |].
    intros ->. rewrite Hi in Hj. injection Hj as <-. apply Hk. reflexivity.
  - rewrite lookup_app_l; [exact Hj |]. apply lookup_lt_is_Some. eexists; exact Hj.
Qed.

(** What a dependency step that returns did, pair by pair. *)
Lemma exec_npm_Val_pairs (L : Libs) (env : Env) (properties : RawMessage) (npm : npmStep)
    (st st' : LoopState) (w w' : World) :
  json_Unmarshal_npm L properties = Some npm →
  exec_npm L env properties st w = (Val st', w') →
  ∃ doc0 doc v,
    ((packageJsons st !! npm_File npm = Some doc0 ∧ doc0 ≠ [])
     ∨ (default [] (packageJsons st !! npm_File npm) = []
        ∧ ∃ data, node_at (fs w) (npm_File npm) = Some (RegularFile data)
                  ∧ json_Decode_KeyValuePairs L data = Some doc0))
    ∧ version_of L env npm = Some v
    ∧ dep_pairs (npm_field npm) (npm_Package npm) v doc0 doc
    ∧ dep_set (npm_field npm) (npm_Package npm) v doc0 doc
    ∧ packageJsons st' = <[npm_File npm := doc]> (packageJsons st).
Proof.
  intros Hdec H. unfold exec_npm in H. rewrite Hdec in H. cbv zeta in H.
  apply bind_Val_inv in H as ([doc0 pjs1] & w1 & Hload & H).
  apply bind_Val_inv in H as (found & w2 & Hfind & H).
  apply bind_Val_inv in H as (v & w3 & Hver & H).
  unfold lift in Hfind. cbn [fst snd] in Hfind. injection Hfind as Hfind <-.
  unfold ret in H. injection H as <- <-.
  apply resolve_version_Val in Hver as [Hver Hfs3].
  apply load_packageJson_Val in Hload as [Hfs1 Hload].
  pose proof (npm_assign_dep_set (npm_field npm) (npm_Package npm) v doc0 found Hfind)
    as [Hset Hne].
  pose proof (npm_assign_dep_pairs (npm_field npm) (npm_Package npm) v doc0 found Hfind)
    as Hpairs.
  exists doc0. eexists. exists v.
  split; [destruct Hload as [(? & ? & ?) | (? & data & ? & ? & ?)];
          [left; split; assumption | right; split; [assumption | exists data; split; assumption]] |].
  split; [exact Hver |].
  split; [exact Hpairs |]. split; [exact Hset |].
  cbn [packageJsons fst snd].
  assert (pjs1 = packageJsons st ∨ pjs1 = <[npm_File npm := doc0]> (packageJsons st)) as Hp
    by (destruct Hload as [(? & ? & ?) | (? & data & ? & ? & ?)]; [left | right]; assumption).
  destruct found as [i|]; cbn [fst snd]; destruct Hp as [-> | ->];
    rewrite ?insert_insert_eq; reflexivity.
Qed.

(** X12. A dependency step that returns changes one document only, and
    in it one pair only: the documents of the other files are as they
    were; in the document of its file (the accumulated one, or the one
    decoded from the file when there was none) the object of the last
    pair with the field as key takes the entry, or, no pair having that
    key, a pair with the one entry is appended (lines 116-126 and 148).
    Every pair with another key, whatever its value, stays the pair it
    was at the place it had, so the keys keep their order. *)
Theorem npm_step_keeps_documents (L : Libs) (env : Env)
    (templateName directoryName home : string) (s : step) (npm : npmStep)
    (st st' : LoopState) (w w' : World) :
  step_Type s = "npm" →
  json_Unmarshal_npm L (step_Properties s) = Some npm →
  exec_step L env templateName directoryName home s st w = (Val st', w') →
  (∀ file, file ≠ npm_File npm → packageJsons st' !! file = packageJsons st !! file)
  ∧ ∃ doc0 doc v,
      ((packageJsons st !! npm_File npm = Some doc0 ∧ doc0 ≠ [])
       ∨ (default [] (packageJsons st !! npm_File npm) = []
          ∧ ∃ data, node_at (fs w) (npm_File npm) = Some (RegularFile data)
                    ∧ json_Decode_KeyValuePairs L data = Some doc0))
      ∧ version_of L env npm = Some v
      ∧ packageJsons st' !! npm_File npm = Some doc
      ∧ dep_pairs (npm_field npm) (npm_Package npm) v doc0 doc
      ∧ (∀ j kv, doc0 !! j = Some kv → kv.1 ≠ npm_field npm → doc !! j = Some kv)
      ∧ doc.*1 = doc0.*1 ++ match field_map (npm_field npm) doc0 with
                            | Some _ => []
                            | None => [npm_field npm]
                            end
      ∧ ∀ field', field' ≠ npm_field npm → field_map field' doc = field_map field' doc0.
Proof.
  intros Hty Hdec H. rewrite exec_step_npm in H by exact Hty.
  apply (exec_npm_Val_pairs _ _ _ _ _ _ _ _ Hdec) in H
    as (doc0 & doc & v & Hload & Hv & Hpairs & (_ & Hk & Ho) & Hp).
  split.
  - intros file Hne. rewrite Hp. apply lookup_insert_ne. congruence.
  - exists doc0, doc, v. split; [exact Hload |]. split; [exact Hv |].
    split; [rewrite Hp; apply lookup_insert_eq |]. split; [exact Hpairs |].
    split; [exact (dep_pairs_other _ _ _ _ _ Hpairs) |].
    split; [exact Hk | exact Ho].
Qed.

Lemma npm_step_keeps_documents_witness :
  (∀ file, file ≠ "package.json" →
     packageJsons (state_of (exec_step deps_libs deps_env "t" "app" "home" deps_step1
                               initial_state deps_world)) !! file
     = packageJsons initial_state !! file)
  ∧ ∃ doc0 doc v,
      ((packageJsons initial_state !! "package.json" = Some doc0 ∧ doc0 ≠ [])
       ∨ (default [] (packageJsons initial_state !! "package.json") = []
          ∧ ∃ data, node_at (fs deps_world) "package.json" = Some (RegularFile data)
                    ∧ json_Decode_KeyValuePairs deps_libs data = Some doc0))
      ∧ version_of deps_libs deps_env deps_npm1 = Some v
      ∧ packageJsons (state_of (exec_step deps_libs deps_env "t" "app" "home" deps_step1
                                  initial_state deps_world)) !! "package.json" = Some doc
      ∧ dep_pairs "dependencies" "sst" v doc0 doc
      ∧ (∀ j kv, doc0 !! j = Some kv → kv.1 ≠ "dependencies" → doc !! j = Some kv)
      ∧ doc.*1 = doc0.*1 ++ match field_map "dependencies" doc0 with
                            | Some _ => []
                            | None => ["dependencies"]
                            end
      ∧ ∀ field', field' ≠ "dependencies" → field_map field' doc = field_map field' doc0.
Proof.
  apply (npm_step_keeps_documents deps_libs deps_env "t" "app" "home" deps_step1 deps_npm1
           initial_state _ deps_world
           (exec_step deps_libs deps_env "t" "app" "home" deps_step1
              initial_state deps_world).2);
    reflexivity.
Defined.

(** ** Further properties: a document is read once *)

Lemma opened_not_open (T : list event) : Forall is_not_open T → opened T = [].
Proof.
  induction 1 as [| e T He _ IH]; [reflexivity |].
  unfold opened in *. cbn [omap list_omap]. destruct e; try exact IH. contradiction.
Qed.

Lemma opened_app (T1 T2 : list event) : opened (T1 ++ T2) = opened T1 ++ opened T2.
Proof.
  induction T1 as [| e T1 IH]; [reflexivity |].
  unfold opened in *. cbn [omap list_omap app].
  destruct e; try exact IH. cbn [omap list_omap app]. rewrite IH. reflexivity.
Qed.

Lemma load_packageJson_opens (L : Libs) (file : string) (pjs : gmap string KeyValuePairs)
    (w w' : World) (r : result (KeyValuePairs * gmap string KeyValuePairs)) :
  load_packageJson L file pjs w = (r, w') →
  ∃ T, trace w' = trace w ++ T
       ∧ ((default [] (pjs !! file) ≠ [] ∧ T = [])
          ∨ (default [] (pjs !! file) = [] ∧ opened T = [file])).
Proof.
  unfold load_packageJson.
  destruct (default [] (pjs !! file)) as [| kv rest] eqn:Hd.
  - unfold os_Open, File_read. munfold.
    destruct (node_at (fs w) file) as [[data|]|] eqn:Hn; munfold; rewrite ?Hn.
    + destruct (json_Decode_KeyValuePairs L data); intros [= _ <-]; cbn [trace];
        rewrite <- app_assoc; eexists; (split; [reflexivity |]); right;
        split; reflexivity.
    + intros [= _ <-]. cbn [trace]. rewrite <- app_assoc. eexists.
      split; [reflexivity |]. right. split; reflexivity.
    + intros [= _ <-]. cbn [trace]. eexists.
      split; [reflexivity |]. right. split; reflexivity.
  - intros [= _ <-]. exists []. rewrite app_nil_r. split; [reflexivity |].
    left. split; [discriminate | reflexivity].
Qed.

Lemma exec_npm_opens (L : Libs) (env : Env) (properties : RawMessage) (npm : npmStep)
    (st : LoopState) (w w' : World) (r : result LoopState) :
  json_Unmarshal_npm L properties = Some npm →
  exec_npm L env properties st w = (r, w') →
  ∃ T, trace w' = trace w ++ T
       ∧ ((default [] (packageJsons st !! npm_File npm) ≠ [] ∧ opened T = [])
          ∨ (default [] (packageJsons st !! npm_File npm) = []
             ∧ opened T = [npm_File npm])).
Proof.
  intros Hdec H. unfold exec_npm in H. rewrite Hdec in H. cbv zeta in H.
  destruct (bind_inv _ _ _ _ _ H) as [(a & w1 & H1 & H2) | [(e & H1 & _) | [H1 _]]].
  - destruct (load_packageJson_opens _ _ _ _ _ _ H1) as (T1 & Ht1 & Hcase).
    assert (∃ T2, trace w' = trace w1 ++ T2 ∧ Forall is_not_open T2) as (T2 & Ht2 & HT2).
    { revert H2. generalize w1 r w'.
      match goal with |- ∀ w0 r0 w0', ?m w0 = (r0, w0') → _ =>
        change (emits is_not_open m) end.
      unfold resolve_version, http_Get. emits_auto. }
    exists (T1 ++ T2). rewrite Ht2, Ht1, app_assoc. split; [reflexivity |].
    rewrite opened_app, (opened_not_open _ HT2), app_nil_r.
    destruct Hcase as [[Hd ->] | [Hd Ho]]; [left | right]; split; assumption || reflexivity.
  - destruct (load_packageJson_opens _ _ _ _ _ _ H1) as (T1 & Ht1 & Hcase).
    exists T1. split; [exact Ht1 |].
    destruct Hcase as [[Hd ->] | [Hd Ho]]; [left | right]; split; assumption || reflexivity.
  - destruct (load_packageJson_opens _ _ _ _ _ _ H1) as (T1 & Ht1 & Hcase).
    exists T1. split; [exact Ht1 |].
    destruct Hcase as [[Hd ->] | [Hd Ho]]; [left | right]; split; assumption || reflexivity.
Qed.

Lemma exec_step_not_npm_emits (L : Libs) (env : Env)
    (templateName directoryName home : string) (s : step) (st : LoopState) :
  step_Type s ≠ "npm" →
  emits is_not_open (exec_step L env templateName directoryName home s st).
Proof.
  intros Hty. unfold exec_step. rewrite decide_False by exact Hty. repeat case_decide.
  - unfold exec_patch, os_ReadFile, os_Create, File_WriteString. emits_auto.
  - unfold exec_copy. emits_auto. apply emits_walkDir. intros path d.
    unfold copy_visit, os_MkdirAll, os_Stat, os_Create, File_WriteString. emits_auto.
  - unfold exec_gitignore. emits_auto.
  - emits_auto.
Qed.

Lemma exec_step_opens (L : Libs) (env : Env) (templateName directoryName home : string)
    (s : step) (st : LoopState) (w w' : World) (r : result LoopState) :
  exec_step L env templateName directoryName home s st w = (r, w') →
  ∃ T, trace w' = trace w ++ T
       ∧ (opened T = []
          ∨ ∃ npm, step_Type s = "npm"
                   ∧ json_Unmarshal_npm L (step_Properties s) = Some npm
                   ∧ opened T = [npm_File npm]
                   ∧ default [] (packageJsons st !! npm_File npm) = []).
Proof.
  intros H. destruct (decide (step_Type s = "npm")) as [Hty | Hty].
  - rewrite exec_step_npm in H by exact Hty.
    destruct (json_Unmarshal_npm L (step_Properties s)) as [npm|] eqn:Hdec.
    + destruct (exec_npm_opens _ _ _ _ _ _ _ _ Hdec H) as (T & Ht & [[_ Ho] | [Hd Ho]]).
      * exists T. split; [exact Ht | left; exact Ho].
      * exists T. split; [exact Ht | right]. exists npm. repeat split; assumption.
    + unfold exec_npm in H. rewrite Hdec in H. injection H as _ <-.
      exists []. rewrite app_nil_r. split; [reflexivity | left; reflexivity].
  - destruct (exec_step_not_npm_emits _ _ _ _ _ _ _ Hty _ _ _ H) as (T & Ht & HT).
    exists T. split; [exact Ht | left; apply opened_not_open; exact HT].
Qed.

(** The accumulated documents after a step that returned. *)
Lemma exec_step_Val_docs (L : Libs) (env : Env) (templateName directoryName home : string)
    (s : step) (st st' : LoopState) (w w' : World) :
  exec_step L env templateName directoryName home s st w = (Val st', w') →
  (step_Type s ≠ "npm" ∧ packageJsons st' = packageJsons st)
  ∨ ∃ npm doc, step_Type s = "npm"
               ∧ json_Unmarshal_npm L (step_Properties s) = Some npm
               ∧ doc ≠ []
               ∧ packageJsons st' = <[npm_File npm := doc]> (packageJsons st).
Proof.
  intros H. destruct (decide (step_Type s = "npm")) as [Hty | Hty].
  - right. rewrite exec_step_npm in H by exact Hty.
    destruct (json_Unmarshal_npm L (step_Properties s)) as [npm|] eqn:Hdec;
      [| unfold exec_npm in H; rewrite Hdec in H; discriminate].
    apply (exec_npm_Val _ _ _ _ _ _ _ _ Hdec) in H
      as (doc0 & doc & v & _ & _ & _ & _ & Hne & Hp & _).
    exists npm, doc. repeat split; assumption.
  - left. split; [exact Hty |]. eapply exec_step_other_Val; eassumption.
Qed.

Lemma run_steps_opens (L : Libs) (env : Env) (templateName directoryName home : string)
    (steps : list step) :
  ∀ st w w' r,
    docs_nonempty (packageJsons st) →
    run_steps L env templateName directoryName home steps st w = (r, w') →
    ∃ T, trace w' = trace w ++ T
         ∧ NoDup (opened T)
         ∧ ∀ file, file ∈ opened T → packageJsons st !! file = None.
Proof.
  induction steps as [| s rest IH]; intros st w w' r Hne H; cbn [run_steps] in H.
  - injection H as _ <-. exists []. rewrite app_nil_r.
    split; [reflexivity |]. split; [constructor |]. intros file Hin.
    apply elem_of_nil in Hin. contradiction.
  - assert (∀ T1, (opened T1 = []
                   ∨ ∃ npm, step_Type s = "npm"
                            ∧ json_Unmarshal_npm L (step_Properties s) = Some npm
                            ∧ opened T1 = [npm_File npm]
                            ∧ default [] (packageJsons st !! npm_File npm) = []) →
                  NoDup (opened T1)
                  ∧ ∀ file, file ∈ opened T1 → packageJsons st !! file = None) as Hone.
    { intros T1 [-> | (npm & _ & _ & -> & Hd)].
      - split; [constructor |]. intros file Hin. apply elem_of_nil in Hin. contradiction.
      - split; [apply NoDup_singleton |]. intros file Hin.
        apply list_elem_of_singleton in Hin as ->.
        destruct (packageJsons st !! npm_File npm) as [doc|] eqn:Hl; [| reflexivity].
        cbn in Hd. subst doc. exfalso. exact (Hne _ _ Hl eq_refl). }
    destruct (bind_inv _ _ _ _ _ H) as [(st1 & w1 & H1 & H2) | [(e & H1 & _) | [H1 _]]].
    + destruct (exec_step_opens _ _ _ _ _ _ _ _ _ _ H1) as (T1 & Ht1 & Hcase).
      destruct (Hone _ Hcase) as [Hnd1 Hnone1].
      pose proof (exec_step_Val_docs _ _ _ _ _ _ _ _ _ _ H1) as Hdocs.
      assert (docs_nonempty (packageJsons st1)) as Hne1.
      { destruct Hdocs as [[_ ->] | (npm & doc & _ & _ & Hd & ->)]; [exact Hne |].
        intros file doc' Hl. destruct (decide (npm_File npm = file)) as [<- | Hf].
        - rewrite lookup_insert_eq in Hl. congruence.
        - rewrite lookup_insert_ne in Hl by exact Hf. exact (Hne _ _ Hl). }
      assert (∀ file, packageJsons st1 !! file = None → packageJsons st !! file = None)
        as Hmono.
      { destruct Hdocs as [[_ ->] | (npm & doc & _ & _ & _ & ->)]; [tauto |].
        intros file Hl. destruct (decide (npm_File npm = file)) as [<- | Hf].
        - rewrite lookup_insert_eq in Hl. discriminate.
        - rewrite lookup_insert_ne in Hl by exact Hf. exact Hl. }
      destruct (IH _ _ _ _ Hne1 H2) as (T2 & Ht2 & Hnd2 & Hnone2).
      exists (T1 ++ T2). rewrite Ht2, Ht1, app_assoc. split; [reflexivity |].
      rewrite opened_app. split.
      * apply NoDup_app. split; [exact Hnd1 |]. split; [| exact Hnd2].
        intros file Hin1 Hin2.
        destruct Hcase as [Ho | (npm & Hty & Hdec & Ho & _)];
          rewrite Ho in Hin1; [apply elem_of_nil in Hin1; contradiction |].
        apply list_elem_of_singleton in Hin1 as ->.
        pose proof (Hnone2 _ Hin2) as Hl.
        destruct Hdocs as [[Hty' _] | (npm' & doc & _ & Hdec' & _ & Hp)]; [contradiction |].
        rewrite Hdec in Hdec'. injection Hdec' as <-.
        rewrite Hp, lookup_insert_eq in Hl. discriminate.
      * intros file Hin. apply elem_of_app in Hin as [Hin | Hin];
          [exact (Hnone1 _ Hin) | exact (Hmono _ (Hnone2 _ Hin))].
    + destruct (exec_step_opens _ _ _ _ _ _ _ _ _ _ H1) as (T1 & Ht1 & Hcase).
      exists T1. split; [exact Ht1 | exact (Hone _ Hcase)].
    + destruct (exec_step_opens _ _ _ _ _ _ _ _ _ _ H1) as (T1 & Ht1 & Hcase).
      exists T1. split; [exact Ht1 | exact (Hone _ Hcase)].
Qed.

(** X13. In one run of the loop a configuration file is read at most
    once: starting from documents none of which is the empty slice (as
    [Create] does, from none at all), whatever the loop returns, no path
    is opened twice, and a path that is opened had no accumulated
    document. *)
Theorem each_document_read_once (L : Libs) (env : Env)
    (templateName directoryName home : string) (steps : list step)
    (st : LoopState) (w w' : World) (r : result LoopState) :
  docs_nonempty (packageJsons st) →
  run_steps L env templateName directoryName home steps st w = (r, w') →
  ∃ T, trace w' = trace w ++ T
       ∧ NoDup (opened T)
       ∧ ∀ file, file ∈ opened T → packageJsons st !! file = None.
Proof. apply run_steps_opens. Qed.

Lemma each_document_read_once_witness :
  ∃ T, trace (run_steps deps_libs deps_env "t" "app" "home" [deps_step1; deps_step2]
                initial_state deps_world).2
       = trace deps_world ++ T
       ∧ NoDup (opened T)
       ∧ ∀ file, file ∈ opened T → packageJsons initial_state !! file = None.
Proof.
  apply (each_document_read_once deps_libs deps_env "t" "app" "home" [deps_step1; deps_step2]
           initial_state deps_world _
           (run_steps deps_libs deps_env "t" "app" "home" [deps_step1; deps_step2]
              initial_state deps_world).1).
  - intros file doc Hl. vm_compute in Hl. discriminate.
  - destruct (run_steps deps_libs deps_env "t" "app" "home" [deps_step1; deps_step2]
                initial_state deps_world); reflexivity.
Defined.

(** ** Further properties: how failures end a run *)

Lemma emits_weaken {A} (P Q : event → Prop) (m : M A) :
  (∀ e, P e → Q e) → emits P m → emits Q m.
Proof.
  intros HPQ Hm w r w' H. destruct (Hm _ _ _ H) as (T & Ht & HT).
  exists T. split; [exact Ht |]. eapply Forall_impl; [exact HT | exact HPQ].
Qed.

(** [Create] past its three first calls. *)
Lemma Create_body (L : Libs) (env : Env) (templateName home d presetBytes : string)
    (T : Template) (steps : list step) (w : World) :
  fs w !! "sst.config.ts" = None →
  cwd env = Some d →
  Templates env !! templateName = Some T →
  preset_json T = Some presetBytes →
  json_Unmarshal_preset L presetBytes = Some steps →
  Create L env templateName home w =
    bind (run_steps L env templateName (strings_ToLower L (filepath_Base L d)) home steps
            initial_state)
         (λ st, bind (flush_packageJsons L env (packageJsons st))
                     (λ _, flush_gitignore env (gitignoreSteps st)))
         (after_prelude templateName w).
Proof.
  intros Hm Hc HT Hp Hd. destruct T as [pj fl]. cbn in Hp. subst pj.
  unfold Create, os_Stat, os_Getwd, Templates_ReadFile_preset, after_prelude. munfold.
  rewrite node_at_marker, Hm, Hc, HT, Hd. cbn [fs trace].
  rewrite <- !app_assoc. reflexivity.
Qed.

(** X14. The first step that returns an error ends the loop: the steps
    after it are not run, the error is the loop's result, and the world
    is the one the failing step left, so what the earlier steps wrote
    stays written. *)
Theorem step_error_aborts_pipeline (L : Libs) (env : Env)
    (templateName directoryName home : string) (pre post : list step) (s : step)
    (st st1 : LoopState) (w w1 w2 : World) (e : error) :
  run_steps L env templateName directoryName home pre st w = (Val st1, w1) →
  exec_step L env templateName directoryName home s st1 w1 = (Err e, w2) →
  run_steps L env templateName directoryName home (pre ++ s :: post) st w = (Err e, w2).
Proof.
  revert st w. induction pre as [| a pre IH]; intros st w Hpre Hs.
  - injection Hpre as <- <-. cbn [app run_steps]. unfold bind. rewrite Hs. reflexivity.
  - cbn [run_steps] in Hpre. apply bind_Val_inv in Hpre as (sta & wa & Ha & Hpre).
    rewrite <- app_comm_cons. cbn [run_steps]. rewrite (bind_eq _ _ _ _ _ Ha).
    exact (IH _ _ Hpre Hs).
Qed.

Lemma step_error_aborts_pipeline_witness :
  run_steps deps_libs offline_env "t" "app" "home" ([deps_step1] ++ deps_step2 :: [yarn_step])
    initial_state deps_world
  = (Err ErrHTTP,
     (exec_step deps_libs offline_env "t" "app" "home" deps_step2
        (state_of (run_steps deps_libs offline_env "t" "app" "home" [deps_step1]
                     initial_state deps_world))
        (run_steps deps_libs offline_env "t" "app" "home" [deps_step1]
           initial_state deps_world).2).2).
Proof.
  apply (step_error_aborts_pipeline deps_libs offline_env "t" "app" "home"
           [deps_step1] [yarn_step] deps_step2 initial_state
           (state_of (run_steps deps_libs offline_env "t" "app" "home" [deps_step1]
                        initial_state deps_world))
           deps_world
           (run_steps deps_libs offline_env "t" "app" "home" [deps_step1]
              initial_state deps_world).2);
    vm_compute; reflexivity.
Defined.

(** X15. When the loop fails, [Create] fails the same way and flushes
    nothing: it returns the error of the loop (or panics as the loop
    did) in the world the loop left, whose new events are events of the
    steps only, so no accumulated document has been written and the
    ignore file has not been opened. *)
Theorem Create_loop_failure (L : Libs) (env : Env) (templateName home d presetBytes : string)
    (T : Template) (steps : list step) (w w1 : World) (r : result LoopState) :
  fs w !! "sst.config.ts" = None →
  cwd env = Some d →
  Templates env !! templateName = Some T →
  preset_json T = Some presetBytes →
  json_Unmarshal_preset L presetBytes = Some steps →
  run_steps L env templateName (strings_ToLower L (filepath_Base L d)) home steps
    initial_state (after_prelude templateName w) = (r, w1) →
  (∀ st, r ≠ Val st) →
  ((∃ e, r = Err e ∧ Create L env templateName home w = (Err e, w1))
   ∨ (r = Panic ∧ Create L env templateName home w = (Panic, w1)))
  ∧ ∃ Ts, trace w1 = trace (after_prelude templateName w) ++ Ts ∧ Forall is_step_event Ts.
Proof.
  intros Hm Hc HT Hp Hd Hrun Hr.
  split; [| exact (run_steps_emits _ _ _ _ _ _ _ _ _ _ Hrun)].
  rewrite (Create_body _ _ _ _ _ _ _ _ _ Hm Hc HT Hp Hd).
  destruct r as [st | e |]; [exfalso; exact (Hr st eq_refl) | left | right].
  - exists e. split; [reflexivity |]. unfold bind at 1. rewrite Hrun. reflexivity.
  - split; [reflexivity |]. unfold bind at 1. rewrite Hrun. reflexivity.
Qed.

Lemma Create_loop_failure_witness :
  ((∃ e, @Err LoopState ErrHTTP = Err e
         ∧ Create deps_libs offline_env "t" "home" deps_world
           = (Err e, (run_steps deps_libs offline_env "t" "/work/app" "home"
                        [deps_step1; deps_step2] initial_state
                        (after_prelude "t" deps_world)).2))
   ∨ (@Err LoopState ErrHTTP = Panic
      ∧ Create deps_libs offline_env "t" "home" deps_world
        = (Panic, (run_steps deps_libs offline_env "t" "/work/app" "home"
                     [deps_step1; deps_step2] initial_state
                     (after_prelude "t" deps_world)).2)))
  ∧ ∃ Ts, trace (run_steps deps_libs offline_env "t" "/work/app" "home"
                   [deps_step1; deps_step2] initial_state
                   (after_prelude "t" deps_world)).2
          = trace (after_prelude "t" deps_world) ++ Ts
          ∧ Forall is_step_event Ts.
Proof.
  apply (Create_loop_failure deps_libs offline_env "t" "home" "/work/app" "preset"
           {| preset_json := Some "preset"; files := None |}
           [deps_step1; deps_step2] deps_world);
    try reflexivity.
  intros st. discriminate.
Defined.

Lemma write_packageJsons_emits (L : Libs) (env : Env) (docs : list (string * KeyValuePairs)) :
  emits is_WriteFile (write_packageJsons L env docs).
Proof.
  induction docs as [| [file content] rest IH]; cbn [write_packageJsons].
  - apply emits_ret.
  - destruct (json_MarshalIndent L content "" "  "); [| apply emits_fail].
    apply emits_bind; [unfold os_WriteFile; emits_auto |].
    intros [e|]; [apply emits_fail | exact IH].
Qed.

(** X16. When the flush of the documents fails, the ignore file is not
    touched: [Create] returns the error of that flush, and after the
    loop the only calls made are [os.WriteFile] calls. *)
Theorem Create_config_flush_failure (L : Libs) (env : Env)
    (templateName home d presetBytes : string) (T : Template) (steps : list step)
    (st : LoopState) (w w1 w2 : World) (e : error) :
  fs w !! "sst.config.ts" = None →
  cwd env = Some d →
  Templates env !! templateName = Some T →
  preset_json T = Some presetBytes →
  json_Unmarshal_preset L presetBytes = Some steps →
  run_steps L env templateName (strings_ToLower L (filepath_Base L d)) home steps
    initial_state (after_prelude templateName w) = (Val st, w1) →
  flush_packageJsons L env (packageJsons st) w1 = (Err e, w2) →
  Create L env templateName home w = (Err e, w2)
  ∧ ∃ Tw, trace w2 = trace w1 ++ Tw ∧ Forall is_WriteFile Tw.
Proof.
  intros Hm Hc HT Hp Hd Hrun Hfl.
  split; [| exact (write_packageJsons_emits _ _ _ _ _ _ Hfl)].
  rewrite (Create_body _ _ _ _ _ _ _ _ _ Hm Hc HT Hp Hd). unfold bind at 1. rewrite Hrun.
  unfold bind. rewrite Hfl. reflexivity.
Qed.

Lemma Create_config_flush_failure_witness :
  Create pinned_libs readonly_deps_env "t" "home" deps_world
  = (Err (ErrOS ENOSPC),
     (flush_packageJsons pinned_libs readonly_deps_env
        (packageJsons (state_of (run_steps pinned_libs readonly_deps_env "t" "/work/app" "home"
                                   [deps_step1] initial_state (after_prelude "t" deps_world))))
        (run_steps pinned_libs readonly_deps_env "t" "/work/app" "home"
           [deps_step1] initial_state (after_prelude "t" deps_world)).2).2)
  ∧ ∃ Tw, trace (flush_packageJsons pinned_libs readonly_deps_env
                   (packageJsons (state_of (run_steps pinned_libs readonly_deps_env "t"
                                              "/work/app" "home" [deps_step1] initial_state
                                              (after_prelude "t" deps_world))))
                   (run_steps pinned_libs readonly_deps_env "t" "/work/app" "home"
                      [deps_step1] initial_state (after_prelude "t" deps_world)).2).2
          = trace (run_steps pinned_libs readonly_deps_env "t" "/work/app" "home"
                     [deps_step1] initial_state (after_prelude "t" deps_world)).2 ++ Tw
          ∧ Forall is_WriteFile Tw.
Proof.
  apply (Create_config_flush_failure pinned_libs readonly_deps_env "t" "home" "/work/app"
           "preset" {| preset_json := Some "preset"; files := None |} [deps_step1]
           (state_of (run_steps pinned_libs readonly_deps_env "t" "/work/app" "home"
                        [deps_step1] initial_state (after_prelude "t" deps_world)))
           deps_world);
    vm_compute; reflexivity.
Defined.

(** X17. A preset that cannot be read or decoded ends [Create] before
    any step: with the marker absent and the working directory found, a
    template that is not in the store or has no [preset.json] gives the
    wrapped read error, a [preset.json] that does not decode gives the
    decoder's error; the file system is unchanged either way. *)
Theorem Create_preset_failure (L : Libs) (env : Env) (templateName home d : string)
    (w : World) :
  fs w !! "sst.config.ts" = None →
  cwd env = Some d →
  ((Templates env !! templateName ≫= preset_json) = None →
   Create L env templateName home w
   = (Err (ErrReadPreset ENOENT), after_prelude templateName w))
  ∧ (∀ presetBytes,
       (Templates env !! templateName ≫= preset_json) = Some presetBytes →
       json_Unmarshal_preset L presetBytes = None →
       Create L env templateName home w = (Err ErrJSON, after_prelude templateName w)).
Proof.
  intros Hm Hc. unfold Create, os_Stat, os_Getwd, Templates_ReadFile_preset, after_prelude.
  munfold. rewrite node_at_marker, Hm, Hc. cbn [fs trace]. rewrite <- !app_assoc.
  split.
  - destruct (Templates env !! templateName) as [[[pb|] fl]|]; cbn; [discriminate | |];
      intros _; reflexivity.
  - intros pb. destruct (Templates env !! templateName) as [[[pb'|] fl]|]; cbn;
      try discriminate.
    intros [= ->] Hd. rewrite Hd. reflexivity.
Qed.

Lemma Create_preset_failure_witness :
  ((Templates empty_env !! "missing" ≫= preset_json) = None →
   Create malformed_libs empty_env "missing" "home" (world_of ∅)
   = (Err (ErrReadPreset ENOENT), after_prelude "missing" (world_of ∅)))
  ∧ (∀ presetBytes,
       (Templates empty_env !! "missing" ≫= preset_json) = Some presetBytes →
       json_Unmarshal_preset malformed_libs presetBytes = None →
       Create malformed_libs empty_env "missing" "home" (world_of ∅)
       = (Err ErrJSON, after_prelude "missing" (world_of ∅))).
Proof.
  apply (Create_preset_failure malformed_libs empty_env "missing" "home" "/work/app"
           (world_of ∅)); reflexivity.
Defined.

(** ** Further properties: the registry and the flush of the documents *)

Lemma resolve_version_pinned_emits (L : Libs) (env : Env) (npm : npmStep) :
  npm_Version npm ≠ "" → emits is_not_request (resolve_version L env npm).
Proof.
  intros Hv. unfold resolve_version. rewrite decide_False by exact Hv. apply emits_ret.
Qed.

Lemma exec_step_pinned_emits (L : Libs) (env : Env)
    (templateName directoryName home : string) (s : step) (st : LoopState) :
  pinned L s →
  emits is_not_request (exec_step L env templateName directoryName home s st).
Proof.
  intros Hpin. unfold exec_step. repeat case_decide.
  - unfold exec_npm.
    destruct (json_Unmarshal_npm L (step_Properties s)) as [npm|] eqn:Hdec;
      [| apply emits_fail].
    cbv zeta. apply emits_bind;
      [unfold load_packageJson, os_Open, File_read; emits_auto | intros loaded].
    apply emits_bind; [apply emits_lift | intros found].
    apply emits_bind; [| intros v; apply emits_ret].
    apply resolve_version_pinned_emits. eapply Hpin; eassumption.
  - unfold exec_patch, os_ReadFile, os_Create, File_WriteString. emits_auto.
  - unfold exec_copy. emits_auto. apply emits_walkDir. intros path d.
    unfold copy_visit, os_MkdirAll, os_Stat, os_Create, File_WriteString. emits_auto.
  - unfold exec_gitignore. emits_auto.
  - emits_auto.
Qed.

Lemma run_steps_pinned_emits (L : Libs) (env : Env)
    (templateName directoryName home : string) (steps : list step) :
  Forall (pinned L) steps →
  ∀ st, emits is_not_request (run_steps L env templateName directoryName home steps st).
Proof.
  induction 1 as [| s rest Hs _ IH]; intros st; cbn [run_steps].
  - apply emits_ret.
  - apply emits_bind; [apply exec_step_pinned_emits; exact Hs | intros st'; apply IH].
Qed.

Lemma flush_gitignore_emits (env : Env) (steps : list gitignoreStep) (P : event → Prop) :
  P (EvOpenFile ".gitignore") →
  P (EvReadAll ".gitignore") →
  (∀ data, P (EvWriteString ".gitignore" data)) →
  emits P (flush_gitignore env steps).
Proof.
  intros Ho Hr Hw w r w' H.
  unfold flush_gitignore, os_OpenFile_RDWR_CREATE, File_read in H. munfold_in H.
  assert (∀ c w0, write_gitignore env ".gitignore" c steps
                    {| fs := w0; trace := (trace w ++ [EvOpenFile ".gitignore"])
                                          ++ [EvReadAll ".gitignore"] |} = (r, w') →
                  ∃ evs, trace w' = trace w ++ evs ∧ Forall P evs) as Hloop.
  { intros c w0 Hwg. destruct (write_gitignore_emits _ _ _ _ _ _ Hwg) as (T & Ht & HT).
    exists (EvOpenFile ".gitignore" :: EvReadAll ".gitignore" :: T).
    rewrite Ht. cbn [trace]. rewrite <- !app_assoc. split; [reflexivity |].
    constructor; [exact Ho |]. constructor; [exact Hr |].
    eapply Forall_impl; [exact HT |]. intros e [data ->]. apply Hw. }
  destruct (node_at (fs w) ".gitignore") as [[c|]|] eqn:Hn; munfold_in H.
  - rewrite Hn in H. exact (Hloop _ _ H).
  - injection H as _ <-. eexists. split; [reflexivity |]. repeat constructor. exact Ho.
  - rewrite node_at_gitignore, lookup_insert_eq in H. exact (Hloop _ _ H).
Qed.

(** X18. A run whose dependency steps all name their version sends no
    request: whatever [Create] returns, none of the calls it makes is an
    [http.Get]. *)
Theorem pinned_versions_send_no_request (L : Libs) (env : Env)
    (templateName home presetBytes : string) (T : Template) (steps : list step)
    (w w' : World) (r : result unit) :
  Templates env !! templateName = Some T →
  preset_json T = Some presetBytes →
  json_Unmarshal_preset L presetBytes = Some steps →
  Forall (pinned L) steps →
  Create L env templateName home w = (r, w') →
  ∃ Tr, trace w' = trace w ++ Tr ∧ Forall is_not_request Tr.
Proof.
  intros HT Hp Hd Hpin H.
  destruct (fs w !! "sst.config.ts") as [n|] eqn:Hm.
  - unfold Create, os_Stat in H. munfold_in H. rewrite node_at_marker, Hm in H.
    injection H as _ <-. eexists. split; [reflexivity |]. repeat constructor.
  - destruct (cwd env) as [d|] eqn:Hc.
    + rewrite (Create_body _ _ _ _ _ _ _ _ _ Hm Hc HT Hp Hd) in H.
      assert (emits is_not_request
                (bind (run_steps L env templateName (strings_ToLower L (filepath_Base L d))
                         home steps initial_state)
                      (λ st, bind (flush_packageJsons L env (packageJsons st))
                                  (λ _, flush_gitignore env (gitignoreSteps st)))))
        as Hem.
      { apply emits_bind; [apply run_steps_pinned_emits; exact Hpin | intros st].
        apply emits_bind.
        - eapply emits_weaken; [| apply write_packageJsons_emits].
          intros [] He; try contradiction; exact I.
        - intros _. apply flush_gitignore_emits; [exact I | exact I | intros; exact I]. }
      destruct (Hem _ _ _ H) as (Tr & Htr & HTr).
      exists ([EvStat "sst.config.ts"; EvGetwd;
               EvTemplatesReadFile (filepath_Join3 "templates" templateName "preset.json")]
              ++ Tr).
      rewrite Htr. unfold after_prelude. cbn [trace]. rewrite <- !app_assoc.
      split; [reflexivity |]. repeat constructor. exact HTr.
    + rewrite (Create_no_cwd _ _ _ _ _ Hm Hc) in H. injection H as _ <-.
      eexists. split; [reflexivity |]. repeat constructor.
Qed.

Lemma pinned_versions_send_no_request_witness :
  ∃ Tr, trace (Create pinned_libs deps_env "t" "home" deps_world).2 = trace deps_world ++ Tr
        ∧ Forall is_not_request Tr.
Proof.
  apply (pinned_versions_send_no_request pinned_libs deps_env "t" "home" "preset"
           {| preset_json := Some "preset"; files := None |} [deps_step1] deps_world _
           (Create pinned_libs deps_env "t" "home" deps_world).1);
    [reflexivity | reflexivity | reflexivity | |].
  - constructor; [| constructor]. intros _ npm Hdec.
    vm_compute in Hdec. injection Hdec as <-. discriminate.
  - destruct (Create pinned_libs deps_env "t" "home" deps_world); reflexivity.
Defined.

Lemma write_packageJsons_files (L : Libs) (env : Env) (docs : list (string * KeyValuePairs)) :
  NoDup docs.*1 →
  ∀ w w',
    write_packageJsons L env docs w = (Val tt, w') →
    (∀ file doc, (file, doc) ∈ docs →
       ∃ bytes, json_MarshalIndent L doc "" "  " = Some bytes
                ∧ fs w' !! file = Some (RegularFile bytes))
    ∧ (∀ path, path ∉ docs.*1 → fs w' !! path = fs w !! path).
Proof.
  induction docs as [| [file content] rest IH]; intros Hnd w w' H;
    cbn [write_packageJsons] in H.
  - injection H as <-. split; [| reflexivity].
    intros file doc Hin. apply elem_of_nil in Hin. contradiction.
  - cbn [fmap list_fmap fst] in Hnd. apply NoDup_cons in Hnd as [Hnotin Hnd].
    destruct (json_MarshalIndent L content "" "  ") as [bytes|] eqn:Hb; [| discriminate].
    apply bind_Val_inv in H as (err & w1 & Hw & H).
    destruct err as [e|]; [discriminate |].
    apply os_WriteFile_ok in Hw. destruct (IH Hnd _ _ H) as [Hall Hother].
    split.
    + intros f doc Hin. apply elem_of_cons in Hin as [[= -> ->] | Hin].
      * exists bytes. split; [exact Hb |].
        rewrite (Hother _ Hnotin), Hw. apply lookup_insert_eq.
      * exact (Hall _ _ Hin).
    + intros path Hpath. cbn [fmap list_fmap fst] in Hpath.
      apply not_elem_of_cons in Hpath as [Hne Hpath].
      rewrite (Hother _ Hpath), Hw. apply lookup_insert_ne. congruence.
Qed.

(** X19. A flush of the documents that returns nil has written each of
    them: every path with an accumulated document holds the text
    [json.MarshalIndent] gives for that document with a two-space
    indent, and every other path is as it was. *)
Theorem flush_packageJsons_writes_each (L : Libs) (env : Env)
    (pjs : gmap string KeyValuePairs) (w w' : World) :
  flush_packageJsons L env pjs w = (Val tt, w') →
  (∀ file doc, pjs !! file = Some doc →
     ∃ bytes, json_MarshalIndent L doc "" "  " = Some bytes
              ∧ fs w' !! file = Some (RegularFile bytes))
  ∧ (∀ path, pjs !! path = None → fs w' !! path = fs w !! path).
Proof.
  intros H. unfold flush_packageJsons in H.
  destruct (write_packageJsons_files _ _ _ (NoDup_fst_map_to_list pjs) _ _ H)
    as [Hall Hother].
  split.
  - intros file doc Hl. apply Hall, elem_of_map_to_list. exact Hl.
  - intros path Hl. apply Hother. intros Hin.
    apply list_elem_of_fmap in Hin as ([f doc] & -> & Hin).
    apply elem_of_map_to_list in Hin. cbn in Hl. congruence.
Qed.

Lemma flush_packageJsons_writes_each_witness :
  (∀ file doc, ({[ "package.json" := [("name", JString "app")];
                   "tsconfig.json" := [("strict", JString "yes")] ]}
                : gmap string KeyValuePairs) !! file = Some doc →
     ∃ bytes, json_MarshalIndent deps_libs doc "" "  " = Some bytes
              ∧ fs (flush_packageJsons deps_libs deps_env
                      {[ "package.json" := [("name", JString "app")];
                         "tsconfig.json" := [("strict", JString "yes")] ]}
                      deps_world).2 !! file = Some (RegularFile bytes))
  ∧ (∀ path, ({[ "package.json" := [("name", JString "app")];
                 "tsconfig.json" := [("strict", JString "yes")] ]}
              : gmap string KeyValuePairs) !! path = None →
       fs (flush_packageJsons deps_libs deps_env
             {[ "package.json" := [("name", JString "app")];
                "tsconfig.json" := [("strict", JString "yes")] ]}
             deps_world).2 !! path = fs deps_world !! path).
Proof.
  apply (flush_packageJsons_writes_each deps_libs deps_env
           {[ "package.json" := [("name", JString "app")];
              "tsconfig.json" := [("strict", JString "yes")] ]}
           deps_world).
  vm_compute. reflexivity.
Defined.

(** ** Further properties: the patch step *)

Lemma apply_regex_Panic (L : Libs) (patterns : list (string * string))
    (find replace : string) :
  (find, replace) ∈ patterns →
  regexp_Compile L find = None →
  ∀ packed, apply_regex L patterns packed = Panic.
Proof.
  intros Hin Hc. induction patterns as [| [f r] rest IH]; intros packed.
  - apply elem_of_nil in Hin. contradiction.
  - cbn [apply_regex]. apply elem_of_cons in Hin as [[= <- <-] | Hin].
    + rewrite Hc. reflexivity.
    + destruct (regexp_Compile L f); [apply IH; exact Hin | reflexivity].
Qed.

(** X20. A patch step on an existing, writable file replaces its
    content by the patched document after the substitutions: when the
    file parses, the patch applies and every pattern compiles, the step
    returns nil, the file holds the text the substitutions give from the
    packed document, and the calls are the read, the create and one
    write. *)
Theorem patch_step_rewrites_file (L : Libs) (env : Env) (properties : RawMessage)
    (patch : patchStep) (b packed : string) (value value' : hujson_Value L) (w : World) :
  json_Unmarshal_patch L properties = Some patch →
  node_at (fs w) (patch_File patch) = Some (RegularFile b) →
  hujson_Parse L b = Some value →
  hujson_Patch L value (patch_Patch patch) = Some value' →
  apply_regex L (patch_Regex patch) (hujson_Pack L value') = Val packed →
  patch_File patch ∉ wfault env →
  exec_patch L env properties w
  = (Val tt,
     {| fs := <[patch_File patch := RegularFile packed]> (fs w);
        trace := trace w ++ [EvReadFile (patch_File patch); EvCreate (patch_File patch);
                             EvWriteString (patch_File patch) packed] |}).
Proof.
  intros Hd Hn Hpa Hpt Hre Hf. destruct (node_at_file _ _ _ Hn) as [Hdot _].
  unfold exec_patch, os_ReadFile, os_Create, File_WriteString. rewrite Hd. munfold.
  rewrite Hn. munfold. rewrite Hpa, Hpt, Hre. munfold. rewrite Hn. munfold.
  rewrite decide_False by exact Hf.
  rewrite node_at_insert_eq by exact Hdot. cbn [fs trace].
  rewrite insert_insert_eq, <- !app_assoc. reflexivity.
Qed.

Lemma patch_step_rewrites_file_witness :
  exec_patch skip_libs skip_env "p" tsconfig_world
  = (Val tt,
     {| fs := <["tsconfig.json" := RegularFile "{ strict }"]> (fs tsconfig_world);
        trace := [EvReadFile "tsconfig.json"; EvCreate "tsconfig.json";
                  EvWriteString "tsconfig.json" "{ strict }"] |}).
Proof.
  apply (patch_step_rewrites_file skip_libs skip_env "p" tsconfig_patch "{ strict }"
           "{ strict }" "{ strict }" "{ strict }" tsconfig_world);
    try reflexivity.
  apply (bool_decide_unpack _). vm_compute. exact I.
Defined.

(** X21. A patch step that cannot produce its text leaves the file
    alone: when the file does not parse, or the patch does not apply, or
    one of the patterns does not compile (which panics), the step does
    not return nil and the file system is unchanged; the file is created
    anew only after all of that succeeded. *)
Theorem patch_step_failure_leaves_file (L : Libs) (env : Env) (properties : RawMessage)
    (patch : patchStep) (b : string) (w w' : World) (r : result unit) :
  json_Unmarshal_patch L properties = Some patch →
  node_at (fs w) (patch_File patch) = Some (RegularFile b) →
  (hujson_Parse L b = None
   ∨ (∃ value, hujson_Parse L b = Some value
               ∧ hujson_Patch L value (patch_Patch patch) = None)
   ∨ (∃ find replace, (find, replace) ∈ patch_Regex patch
                      ∧ regexp_Compile L find = None)) →
  exec_patch L env properties w = (r, w') →
  r ≠ Val tt ∧ fs w' = fs w.
Proof.
  intros Hd Hn Hcase. unfold exec_patch, os_ReadFile. rewrite Hd. munfold.
  rewrite Hn. munfold.
  destruct Hcase as [Hpa | [(value & Hpa & Hpt) | (find & replace & Hin & Hc)]].
  - rewrite Hpa. intros [= <- <-]. split; [discriminate | reflexivity].
  - rewrite Hpa, Hpt. intros [= <- <-]. split; [discriminate | reflexivity].
  - destruct (hujson_Parse L b) as [value|];
      [| intros [= <- <-]; split; [discriminate | reflexivity]].
    destruct (hujson_Patch L value (patch_Patch patch)) as [value'|];
      [| intros [= <- <-]; split; [discriminate | reflexivity]].
    rewrite (apply_regex_Panic _ _ _ _ Hin Hc). munfold.
    intros [= <- <-]. split; [discriminate | reflexivity].
Qed.

Lemma patch_step_failure_leaves_file_witness :
  (exec_patch badregex_libs skip_env "p" tsconfig_world).1 ≠ Val tt
  ∧ fs (exec_patch badregex_libs skip_env "p" tsconfig_world).2 = fs tsconfig_world.
Proof.
  apply (patch_step_failure_leaves_file badregex_libs skip_env "p" regex_patch "{ strict }"
           tsconfig_world).
  - reflexivity.
  - reflexivity.
  - right. right. exists "(", "". split; [| reflexivity].
    apply list_elem_of_further, list_elem_of_here.
  - destruct (exec_patch badregex_libs skip_env "p" tsconfig_world); reflexivity.
Defined.

(** ** Further properties: the copy step *)

Lemma string_drop_app (p s : string) : string_drop (String.length p) (p +:+ s) = s.
Proof. induction p as [|c p IH]; [destruct s; reflexivity | exact IH]. Qed.

Lemma strings_TrimPrefix_app (p s : string) : strings_TrimPrefix (p +:+ s) p = s.
Proof.
  unfold strings_TrimPrefix.
  rewrite (strings_HasPrefix_app_l p p s (strings_HasPrefix_refl p)).
  apply string_drop_app.
Qed.

(** The destination of [<root>/<rel>] is [<rel>]. *)
Lemma copy_dest_rel (root rel : string) (c : ascii) (rest : string) :
  rel = String c rest →
  c ≠ "/"%char →
  copy_dest root (root +:+ "/" +:+ rel) = rel.
Proof.
  intros -> Hc. unfold copy_dest. rewrite strings_TrimPrefix_app.
  unfold filepath_Join_dot.
  change ("/" +:+ String c rest) with (String "/"%char (String c rest)).
  cbn [strip_slashes].
  destruct c as [[] [] [] [] [] [] [] []]; try reflexivity. contradiction.
Qed.

Lemma copy_dest_root (root : string) : copy_dest root root = ".".
Proof.
  unfold copy_dest.
  rewrite <- (string_app_empty_r root) at 1. rewrite strings_TrimPrefix_app. reflexivity.
Qed.

(** X22. A template file [<files>/<rel>] is rendered into [<rel>]: when
    its text parses and renders, and the destination is not a directory
    and can be written, the visit returns nil and the destination, made
    or truncated by [os.Create] whether or not it was there, holds the
    rendered text; nothing else changes. *)
Theorem copy_file_rendered_at_relative_path (L : Libs) (env : Env)
    (templateFilesPath directoryName home rel src out : string) (c : ascii) (rest : string)
    (tmpl : template_Template L) (w : World) :
  rel = String c rest →
  c ≠ "/"%char →
  template_Parse L (templateFilesPath +:+ "/" +:+ rel) src = Some tmpl →
  template_Execute L tmpl directoryName home = (out, true) →
  node_at (fs w) rel ≠ Some Directory →
  rel ∉ wfault env →
  ∃ w', copy_visit L env templateFilesPath directoryName home
          (templateFilesPath +:+ "/" +:+ rel) (EFile src) w = (Val tt, w')
        ∧ fs w' = <[rel := RegularFile out]> (fs w).
Proof.
  intros Hrel Hc Hp Hex Hn Hf.
  assert (rel ≠ ".") as Hdot
    by (intros ->; apply Hn; unfold node_at; rewrite decide_True; reflexivity).
  unfold copy_visit. fold (copy_dest templateFilesPath (templateFilesPath +:+ "/" +:+ rel)).
  rewrite (copy_dest_rel _ _ _ _ Hrel Hc), Hp.
  unfold os_Stat, os_Create, File_WriteString. munfold.
  destruct (node_at (fs w) rel) as [[old|]|] eqn:Hnode; [| contradiction |];
    rewrite ?os_IsExist_missing; cbn [os_IsExist]; munfold; rewrite Hnode; munfold;
    rewrite decide_False by exact Hf;
    rewrite node_at_insert_eq by exact Hdot; rewrite Hex; cbn [fst snd]; munfold;
    eexists; (split; [reflexivity |]); cbn [fs]; apply insert_insert_eq.
Qed.

Lemma copy_file_rendered_at_relative_path_witness :
  ∃ w', copy_visit copy_libs copy_env "templates/t/files" "app" "home"
          ("templates/t/files" +:+ "/" +:+ "a.txt") (EFile "from the template") copy_world
        = (Val tt, w')
        ∧ fs w' = <["a.txt" := RegularFile "from the template"]> (fs copy_world).
Proof.
  apply (copy_file_rendered_at_relative_path copy_libs copy_env "templates/t/files" "app"
           "home" "a.txt" "from the template" "from the template" "a"%char ".txt"%string
           "from the template" copy_world).
  - reflexivity.
  - discriminate.
  - reflexivity.
  - reflexivity.
  - vm_compute. discriminate.
  - apply (bool_decide_unpack _). vm_compute. exact I.
Defined.

(** X23. A template file that does not parse costs the destination its
    content: the error of [template.Parse] is dropped, the destination
    is created or truncated, and executing the nil template then panics,
    leaving the destination empty. *)
Theorem copy_unparsable_template_truncates (L : Libs) (env : Env)
    (templateFilesPath directoryName home path src : string) (w : World) :
  template_Parse L path src = None →
  node_at (fs w) (copy_dest templateFilesPath path) ≠ Some Directory →
  copy_visit L env templateFilesPath directoryName home path (EFile src) w
  = (Panic,
     {| fs := <[copy_dest templateFilesPath path := RegularFile ""]> (fs w);
        trace := trace w ++ [EvTemplatesReadFile path;
                             EvStat (copy_dest templateFilesPath path);
                             EvCreate (copy_dest templateFilesPath path)] |}).
Proof.
  intros Hp Hn. unfold copy_visit. fold (copy_dest templateFilesPath path). rewrite Hp.
  unfold os_Stat, os_Create. munfold.
  destruct (node_at (fs w) (copy_dest templateFilesPath path)) as [[old|]|] eqn:Hnode;
    [| contradiction |];
    rewrite ?os_IsExist_missing; cbn [os_IsExist]; munfold; rewrite Hnode; munfold;
    cbn [fs trace];
    rewrite <- !app_assoc; reflexivity.
Qed.

Lemma copy_unparsable_template_truncates_witness :
  copy_visit badregex_libs copy_env "templates/t/files" "app" "home"
    "templates/t/files/a.txt" (EFile "{{") copy_world
  = (Panic,
     {| fs := <[copy_dest "templates/t/files" "templates/t/files/a.txt" := RegularFile ""]>
                (fs copy_world);
        trace := [EvTemplatesReadFile "templates/t/files/a.txt";
                  EvStat (copy_dest "templates/t/files" "templates/t/files/a.txt");
                  EvCreate (copy_dest "templates/t/files" "templates/t/files/a.txt")] |}).
Proof.
  apply (copy_unparsable_template_truncates badregex_libs copy_env "templates/t/files" "app"
           "home" "templates/t/files/a.txt" "{{" copy_world);
    [reflexivity | vm_compute; discriminate].
Defined.

Lemma bind_ext {A B} (m : M A) (k k' : A → M B) (w : World) :
  (∀ a w1, k a w1 = k' a w1) → bind m k w = bind m k' w.
Proof.
  intros Hk. unfold bind. destruct (m w) as [[a| |] w1]; [apply Hk | reflexivity | reflexivity].
Qed.

Lemma walkDir_EDir (fn : string → etree → M unit) (path : string)
    (entries : list (string * etree)) (w : World) :
  walkDir fn path (EDir entries) w
  = bind (fn path (EDir entries)) (λ _, walkEntries fn path entries) w.
Proof.
  cbn [walkDir]. apply bind_ext. intros _. clear w.
  induction entries as [| [name child] es IH]; intros w1; [reflexivity |].
  cbn [walkEntries]. apply bind_ext. intros _ w2. apply IH.
Qed.

Lemma tree_files_EDir (path : string) (entries : list (string * etree)) :
  tree_files path (EDir entries) = entries_files path entries.
Proof.
  cbn [tree_files]. induction entries as [| [name child] es IH]; [reflexivity |].
  cbn [entries_files]. rewrite IH. reflexivity.
Qed.

(** The visit of a template file that returns nil. *)
Lemma copy_visit_file_Val (L : Libs) (env : Env)
    (templateFilesPath directoryName home path src : string) (w w' : World) :
  copy_visit L env templateFilesPath directoryName home path (EFile src) w = (Val tt, w') →
  ∃ tmpl, template_Parse L path src = Some tmpl
          ∧ fs w' = <[copy_dest templateFilesPath path :=
                      RegularFile (template_Execute L tmpl directoryName home).1]> (fs w).
Proof.
  unfold copy_visit. fold (copy_dest templateFilesPath path).
  set (name := copy_dest templateFilesPath path).
  unfold os_Stat, os_Create, File_WriteString. munfold.
  assert (∀ n, node_at (fs w) name = n → n ≠ Some Directory → name ≠ ".") as Hdot.
  { intros n <- Hn ->. apply Hn. unfold node_at. rewrite decide_True; reflexivity. }
  destruct (node_at (fs w) name) as [[old|]|] eqn:Hnode;
    rewrite ?os_IsExist_missing; cbn [os_IsExist]; munfold;
    rewrite Hnode; munfold; try discriminate;
    (destruct (template_Parse L path src) as [tmpl|]; [| discriminate]);
    munfold;
    (destruct (decide (name ∈ wfault env)) as [Hf | Hf];
     [rewrite decide_True by exact Hf; discriminate |]);
    rewrite decide_False by exact Hf;
    rewrite node_at_insert_eq by (eapply Hdot; [reflexivity | discriminate]);
    munfold;
    (destruct (template_Execute L tmpl directoryName home) as [out ok] eqn:Hex);
    cbn [fst snd]; (destruct ok; [| discriminate]);
    intros [= <-]; exists tmpl; (split; [reflexivity |]);
    rewrite Hex; cbn [fs fst]; apply insert_insert_eq.
Qed.

(** The visit of a directory that returns nil keeps every file. *)
Lemma copy_visit_dir_Val (L : Libs) (env : Env)
    (templateFilesPath directoryName home path : string) (entries : list (string * etree))
    (w w' : World) :
  copy_visit L env templateFilesPath directoryName home path (EDir entries) w = (Val tt, w') →
  ∀ q data, fs w !! q = Some (RegularFile data) → fs w' !! q = Some (RegularFile data).
Proof.
  unfold copy_visit. fold (copy_dest templateFilesPath path).
  set (dir := copy_dest templateFilesPath path).
  case_decide; [intros [= <-] q data Hq; exact Hq |].
  unfold os_MkdirAll. munfold.
  destruct (node_at (fs w) dir) as [[old|]|] eqn:Hnode; munfold; try discriminate;
    intros [= <-] q data Hq; cbn [fs]; [exact Hq |].
  rewrite lookup_insert_ne; [exact Hq |].
  intros <-. unfold node_at in Hnode. case_decide; [discriminate | congruence].
Qed.

Lemma copy_dests_app (root : string) (a b : list (string * string)) :
  copy_dests root (a ++ b) = copy_dests root a ++ copy_dests root b.
Proof. unfold copy_dests. apply fmap_app. Qed.

Lemma walkDir_copy_files (L : Libs) (env : Env) (root directoryName home : string) :
  ∀ (d : etree) (path : string) (w w' : World),
    walkDir (copy_visit L env root directoryName home) path d w = (Val tt, w') →
    NoDup (copy_dests root (tree_files path d)) →
    (∀ p src, (p, src) ∈ tree_files path d →
       ∃ tmpl, template_Parse L p src = Some tmpl
               ∧ fs w' !! copy_dest root p
                 = Some (RegularFile (template_Execute L tmpl directoryName home).1))
    ∧ (∀ q data, fs w !! q = Some (RegularFile data) →
                 q ∉ copy_dests root (tree_files path d) →
                 fs w' !! q = Some (RegularFile data)).
Proof.
  fix IH 1. intros [src | entries] path w w' H Hnd.
  - cbn [walkDir] in H. apply bind_Val_inv in H as ([] & w1 & Hv & H). injection H as <-.
    destruct (copy_visit_file_Val _ _ _ _ _ _ _ _ _ Hv) as (tmpl & Hp & Hfs).
    cbn [tree_files]. split.
    + intros p s Hin. apply list_elem_of_singleton in Hin as [= -> ->].
      exists tmpl. split; [exact Hp |]. rewrite Hfs. apply lookup_insert_eq.
    + intros q data Hq Hnot. rewrite Hfs. rewrite lookup_insert_ne; [exact Hq |].
      intros <-. apply Hnot. unfold copy_dests. cbn. apply list_elem_of_here.
  - rewrite walkDir_EDir in H. rewrite tree_files_EDir in Hnd |- *.
    apply bind_Val_inv in H as ([] & w1 & Hv & H).
    pose proof (copy_visit_dir_Val _ _ _ _ _ _ _ _ _ Hv) as Hframe0. clear Hv.
    assert ((∀ p src, (p, src) ∈ entries_files path entries →
               ∃ tmpl, template_Parse L p src = Some tmpl
                       ∧ fs w' !! copy_dest root p
                         = Some (RegularFile (template_Execute L tmpl directoryName home).1))
            ∧ (∀ q data, fs w1 !! q = Some (RegularFile data) →
                         q ∉ copy_dests root (entries_files path entries) →
                         fs w' !! q = Some (RegularFile data))) as [Hpost Hframe].
    { clear Hframe0. revert w1 w' H Hnd.
      induction entries as [| [name child] es IHes]; intros w1 w' H Hnd.
      - injection H as <-. split.
        + intros p s Hin. apply elem_of_nil in Hin. contradiction.
        + intros q data Hq _. exact Hq.
      - cbn [walkEntries] in H. cbn [entries_files] in Hnd |- *.
        apply bind_Val_inv in H as ([] & w2 & H1 & H2).
        rewrite copy_dests_app in Hnd. apply NoDup_app in Hnd as (Hnd1 & Hdisj & Hnd2).
        destruct (IH child _ _ _ H1 Hnd1) as [Hp1 Hf1].
        destruct (IHes _ _ H2 Hnd2) as [Hp2 Hf2].
        split.
        + intros p s Hin. apply elem_of_app in Hin as [Hin | Hin]; [| exact (Hp2 _ _ Hin)].
          destruct (Hp1 _ _ Hin) as (tmpl & Hparse & Hfile).
          exists tmpl. split; [exact Hparse |]. apply Hf2; [exact Hfile |].
          apply Hdisj. unfold copy_dests.
          apply (list_elem_of_fmap_2 (λ f, copy_dest root f.1) _ (p, s)). exact Hin.
        + intros q data Hq Hnot. rewrite copy_dests_app in Hnot.
          apply not_elem_of_app in Hnot as [Hn1 Hn2].
          apply Hf2; [| exact Hn2]. apply Hf1; [exact Hq | exact Hn1]. }
    split; [exact Hpost |].
    intros q data Hq Hnot. apply Hframe; [apply Hframe0; exact Hq | exact Hnot].
Qed.

(** X24. A copy step that returns nil has rendered the whole tree: when
    no two files of the template have the same destination, every file
    of [templates/<name>/files] has been parsed, and its destination
    (its path relative to that directory) holds the text it renders to;
    a file of the working directory that is no destination keeps its
    content. *)
Theorem copy_step_renders_every_file (L : Libs) (env : Env)
    (templateName directoryName home : string) (T : Template) (root : etree)
    (w w' : World) :
  let templateFilesPath := filepath_Join3 "templates" templateName "files" in
  Templates env !! templateName = Some T →
  files T = Some root →
  NoDup (copy_dests templateFilesPath (tree_files templateFilesPath root)) →
  exec_copy L env templateName directoryName home w = (Val tt, w') →
  (∀ p src, (p, src) ∈ tree_files templateFilesPath root →
     ∃ tmpl, template_Parse L p src = Some tmpl
             ∧ fs w' !! copy_dest templateFilesPath p
               = Some (RegularFile (template_Execute L tmpl directoryName home).1))
  ∧ (∀ q data, fs w !! q = Some (RegularFile data) →
               q ∉ copy_dests templateFilesPath (tree_files templateFilesPath root) →
               fs w' !! q = Some (RegularFile data)).
Proof.
  intros templateFilesPath HT Hroot Hnd H.
  unfold exec_copy in H. fold templateFilesPath in H.
  apply bind_Val_inv in H as ([] & w1 & He & H).
  rewrite HT in H. destruct T as [pj fl]. cbn in Hroot. subst fl.
  injection He as <-.
  exact (walkDir_copy_files _ _ _ _ _ _ _ _ _ H Hnd).
Qed.

Lemma copy_step_renders_every_file_witness :
  (∀ p src, (p, src) ∈ tree_files (filepath_Join3 "templates" "t" "files") nested_tree →
     ∃ tmpl, template_Parse copy_libs p src = Some tmpl
             ∧ fs (exec_copy copy_libs nested_env "t" "app" "home" copy_world).2
                 !! copy_dest (filepath_Join3 "templates" "t" "files") p
               = Some (RegularFile (template_Execute copy_libs tmpl "app" "home").1))
  ∧ (∀ q data, fs copy_world !! q = Some (RegularFile data) →
               q ∉ copy_dests (filepath_Join3 "templates" "t" "files")
                     (tree_files (filepath_Join3 "templates" "t" "files") nested_tree) →
               fs (exec_copy copy_libs nested_env "t" "app" "home" copy_world).2 !! q
               = Some (RegularFile data)).
Proof.
  apply (copy_step_renders_every_file copy_libs nested_env "t" "app" "home"
           {| preset_json := Some "preset"; files := Some nested_tree |} nested_tree
           copy_world).
  - reflexivity.
  - reflexivity.
  - apply (bool_decide_unpack _). vm_compute. exact I.
  - vm_compute. reflexivity.
Defined.

(** X25. The visit of a template directory makes the directory of the
    same relative path: [<files>/<rel>] gives [os.MkdirAll(<rel>)], which
    adds the directory when nothing is there, changes nothing when it
    exists, and fails when a file is in the way; the root of the walk
    gives [os.MkdirAll(".")], which changes nothing (the test for an
    empty name never holds). *)
Theorem copy_directory_made (L : Libs) (env : Env)
    (templateFilesPath directoryName home rel : string) (c : ascii) (rest : string)
    (entries : list (string * etree)) (w : World) :
  rel = String c rest →
  c ≠ "/"%char →
  copy_visit L env templateFilesPath directoryName home
    (templateFilesPath +:+ "/" +:+ rel) (EDir entries) w
  = (match node_at (fs w) rel with
     | Some (RegularFile _) => Err (ErrOS ENOTDIR)
     | _ => Val tt
     end,
     {| fs := match node_at (fs w) rel with
              | None => <[rel := Directory]> (fs w)
              | _ => fs w
              end;
        trace := trace w ++ [EvMkdirAll rel] |})
  ∧ copy_visit L env templateFilesPath directoryName home templateFilesPath (EDir entries) w
    = (Val tt, {| fs := fs w; trace := trace w ++ [EvMkdirAll "."] |}).
Proof.
  intros Hrel Hc. unfold copy_visit.
  fold (copy_dest templateFilesPath (templateFilesPath +:+ "/" +:+ rel)).
  fold (copy_dest templateFilesPath templateFilesPath).
  rewrite (copy_dest_rel _ _ _ _ Hrel Hc), copy_dest_root.
  rewrite (decide_False (P := rel = "")) by (rewrite Hrel; discriminate).
  rewrite (decide_False (P := "." = "")) by discriminate.
  unfold os_MkdirAll. munfold. split.
  - destruct (node_at (fs w) rel) as [[old|]|]; reflexivity.
  - reflexivity.
Qed.

Lemma copy_directory_made_witness :
  copy_visit copy_libs copy_env "templates/t/files" "app" "home"
    ("templates/t/files" +:+ "/" +:+ "src") (EDir []) copy_world
  = (match node_at (fs copy_world) "src" with
     | Some (RegularFile _) => Err (ErrOS ENOTDIR)
     | _ => Val tt
     end,
     {| fs := match node_at (fs copy_world) "src" with
              | None => <["src" := Directory]> (fs copy_world)
              | _ => fs copy_world
              end;
        trace := trace copy_world ++ [EvMkdirAll "src"] |})
  ∧ copy_visit copy_libs copy_env "templates/t/files" "app" "home" "templates/t/files"
      (EDir []) copy_world
    = (Val tt, {| fs := fs copy_world; trace := trace copy_world ++ [EvMkdirAll "."] |}).
Proof.
  apply (copy_directory_made copy_libs copy_env "templates/t/files" "app" "home" "src"
           "s"%char "rc"%string [] copy_world);
    [reflexivity | discriminate].
Defined.

(** X26. What a [Create] that found its working directory and returned
    nil leaves of the dependency steps: the loop over the steps decoded
    from the preset of the template returned a state, and every file
    with a document accumulated in that state, the ignore file apart,
    holds the text [json.MarshalIndent] gives for its document with a
    two-space indent. *)
Theorem Create_leaves_documents (L : Libs) (env : Env) (templateName home d : string)
    (T : Template) (presetBytes : string) (steps : list step) (w w' : World) :
  cwd env = Some d →
  Templates env !! templateName = Some T →
  preset_json T = Some presetBytes →
  json_Unmarshal_preset L presetBytes = Some steps →
  Create L env templateName home w = (Val tt, w') →
  ∃ st w1,
    run_steps L env templateName (strings_ToLower L (filepath_Base L d)) home steps
      initial_state (after_prelude templateName w) = (Val st, w1)
    ∧ ∀ file doc, packageJsons st !! file = Some doc →
        file ≠ ".gitignore" →
        ∃ bytes, json_MarshalIndent L doc "" "  " = Some bytes
                 ∧ fs w' !! file = Some (RegularFile bytes).
Proof.
  intros Hc HT Hp Hd H.
  destruct (Create_Val_inv _ _ _ _ _ _ H) as [_ [Hc' | Hrun]]; [congruence |].
  destruct Hrun as (d' & T' & pb & steps' & st & w1 & w2 & Hd' & HT' & Hp' & Hdec & Hrun & Hf1 & Hf2).
  assert (d' = d) as -> by congruence.
  assert (steps' = steps) as -> by congruence.
  exists st, w1. split; [exact Hrun |].
  intros file doc Hl Hg. unfold flush_packageJsons in Hf1.
  destruct (write_packageJsons_files _ _ _ (NoDup_fst_map_to_list _) _ _ Hf1) as [Hall _].
  destruct (Hall file doc) as (bytes & Hb & Hfile); [apply elem_of_map_to_list; exact Hl |].
  exists bytes. split; [exact Hb |].
  rewrite (flush_gitignore_other _ _ _ _ _ Hg Hf2). exact Hfile.
Qed.

Lemma Create_leaves_documents_witness :
  ∃ st w1,
    run_steps deps_libs deps_env "t" "/work/app" "home" [deps_step1; deps_step2]
      initial_state (after_prelude "t" deps_world) = (Val st, w1)
    ∧ ∀ file doc, packageJsons st !! file = Some doc →
        file ≠ ".gitignore" →
        ∃ bytes, json_MarshalIndent deps_libs doc "" "  " = Some bytes
                 ∧ fs (Create deps_libs deps_env "t" "home" deps_world).2 !! file
                   = Some (RegularFile bytes).
Proof.
  apply (Create_leaves_documents deps_libs deps_env "t" "home" "/work/app"
           {| preset_json := Some "preset"; files := None |} "preset"
           [deps_step1; deps_step2] deps_world);
    reflexivity.
Defined.

Lemma find_target_no_key (field : string) (doc : KeyValuePairs) :
  Forall (λ kv, kv.1 ≠ field) doc →
  ∀ i t, find_target field doc i t = Val t.
Proof.
  induction 1 as [| [k v] rest Hk _ IH]; intros i t; cbn [find_target]; [reflexivity |].
  rewrite decide_False by exact Hk. apply IH.
Qed.

Lemma find_target_objects (field : string) (doc : KeyValuePairs) :
  Forall (λ kv, kv.1 = field → is_object kv.2 = true) doc →
  ∀ i t, ∃ t', find_target field doc i t = Val t'.
Proof.
  induction 1 as [| [k v] rest Hk _ IH]; intros i t; cbn [find_target];
    [eexists; reflexivity |].
  case_decide as Hkf; [| apply IH].
  specialize (Hk Hkf). destruct v; try discriminate. apply IH.
Qed.

(** X27. When a document holds the field more than once, the last one
    is the target: the loop of lines 117-121 does not stop at the first
    match, so with objects under every earlier occurrence the
    dependencies are read from, and written to, the last pair with the
    key. *)
Theorem duplicate_field_last_wins (field package version : string)
    (before after : KeyValuePairs) (m : gmap string jvalue) :
  Forall (λ kv, kv.1 = field → is_object kv.2 = true) before →
  Forall (λ kv, kv.1 ≠ field) after →
  let doc := before ++ (field, JObject m) :: after in
  find_target field doc 0 None = Val (Some (length before))
  ∧ field_map field doc = Some m
  ∧ map_assign doc (length before) package (JString version)
    = before ++ (field, JObject (<[package := JString version]> m)) :: after.
Proof.
  intros Hb Ha doc.
  assert (find_target field doc 0 None = Val (Some (length before))) as Hf.
  { unfold doc. rewrite find_target_app.
    destruct (find_target_objects _ _ Hb 0 None) as (t' & ->).
    cbn [find_target]. rewrite decide_True by reflexivity.
    apply find_target_no_key. exact Ha. }
  assert (doc !! length before = Some (field, JObject m)) as Hl.
  { unfold doc. rewrite lookup_app_r by lia. rewrite Nat.sub_diag. reflexivity. }
  split; [exact Hf |]. split.
  - unfold field_map. rewrite Hf, Hl. reflexivity.
  - unfold map_assign. rewrite Hl. unfold doc.
    rewrite insert_app_r_alt by lia. rewrite Nat.sub_diag. reflexivity.
Qed.

Lemma duplicate_field_last_wins_witness :
  find_target "dependencies" twice_dependencies 0 None = Val (Some 2)
  ∧ field_map "dependencies" twice_dependencies = Some {[ "sst" := JString "1.0.0" ]}
  ∧ map_assign twice_dependencies 2 "sst" (JString "3.0.1")
    = [ ("dependencies", JObject {[ "old" := JString "0.1.0" ]});
        ("name", JString "app") ]
      ++ ("dependencies",
          JObject (<["sst" := JString "3.0.1"]> {[ "sst" := JString "1.0.0" ]}))
         :: [ ("version", JString "1") ].
Proof.
  apply (duplicate_field_last_wins "dependencies" "sst" "3.0.1"
           [ ("dependencies", JObject {[ "old" := JString "0.1.0" ]});
             ("name", JString "app") ]
           [ ("version", JString "1") ]
           {[ "sst" := JString "1.0.0" ]}).
  - repeat constructor; cbn; intros; reflexivity || discriminate.
  - repeat constructor; cbn; discriminate.
Defined.

(** ** Two dependency steps in any pipeline *)

(** An entry, once registered, is there after every later step. *)
Lemma exec_step_dep_present (L : Libs) (env : Env) (templateName directoryName home : string)
    (s : step) (st st' : LoopState) (w w' : World) (file field package : string) :
  exec_step L env templateName directoryName home s st w = (Val st', w') →
  is_Some (dep_at (packageJsons st) file field package) →
  is_Some (dep_at (packageJsons st') file field package).
Proof.
  intros H [x Hx].
  destruct (decide (step_Type s = "npm")) as [Hty | Hty];
    [| rewrite (exec_step_other_Val _ _ _ _ _ _ _ _ _ _ Hty H); eexists; exact Hx].
  pose proof H as H'. rewrite exec_step_npm in H' by exact Hty.
  destruct (json_Unmarshal_npm L (step_Properties s)) as [npm|] eqn:Hdec;
    [| unfold exec_npm in H'; rewrite Hdec in H'; discriminate].
  destruct (decide (npm_File npm = file ∧ npm_field npm = field ∧ npm_Package npm = package))
    as [(Hf & Hfd & Hpk) | Hn].
  - destruct (exec_npm_Val _ _ _ _ _ _ _ _ Hdec H')
      as (doc0 & doc & v & _ & _ & _ & (Hm & _) & _ & Hp & _).
    exists (JString v). unfold dep_at.
    rewrite Hp, <- Hf, lookup_insert_eq, <- Hfd, Hm, <- Hpk. apply lookup_insert_eq.
  - exists x. eapply exec_step_dep_at_other; [exact H | | exact Hx].
    intros (_ & npm' & Hd' & Hf & Hfd & Hpk). rewrite Hdec in Hd'. injection Hd' as <-.
    apply Hn. repeat split; assumption.
Qed.

Lemma run_steps_dep_present (L : Libs) (env : Env) (templateName directoryName home : string)
    (file field package : string) (steps : list step) :
  ∀ st st' w w',
    run_steps L env templateName directoryName home steps st w = (Val st', w') →
    is_Some (dep_at (packageJsons st) file field package) →
    is_Some (dep_at (packageJsons st') file field package).
Proof.
  induction steps as [| s rest IH]; intros st st' w w' H Hx; cbn [run_steps] in H.
  - injection H as <- _. exact Hx.
  - apply bind_Val_inv in H as (st1 & w1 & H1 & H).
    apply (IH _ _ _ _ H). eapply exec_step_dep_present; eassumption.
Qed.

(** C4. A run that returns nil and has, anywhere among its steps, two
    dependency steps on the same file and field writes to that file a
    document with an entry for both packages under the field.  The
    second step assigns into the mapping the first assigned into (line
    148 after the search of lines 116-121) and adds no pair to the
    document.  Unless a later step registers it again, the package of
    the second step holds the version of the second step, also when the
    first step had given the same package another version; with two
    package names the package of the first step holds the version of
    the first, unless a later step registers it again. *)
Theorem two_npm_steps_last_write_wins (L : Libs) (env : Env) (templateName home d : string)
    (T : Template) (presetBytes : string) (pre mid post : list step) (s1 s2 : step)
    (n1 n2 : npmStep) (w w' : World) :
  cwd env = Some d →
  Templates env !! templateName = Some T →
  preset_json T = Some presetBytes →
  json_Unmarshal_preset L presetBytes = Some (pre ++ s1 :: mid ++ s2 :: post) →
  step_Type s1 = "npm" →
  step_Type s2 = "npm" →
  json_Unmarshal_npm L (step_Properties s1) = Some n1 →
  json_Unmarshal_npm L (step_Properties s2) = Some n2 →
  npm_File n1 = npm_File n2 →
  npm_Dev n1 = npm_Dev n2 →
  Create L env templateName home w = (Val tt, w') →
  two_deps_flushed L env templateName home d pre mid post s1 s2 n1 n2 w w'.
Proof.
  intros Hc HT Hp Hd Ht1 Ht2 Hn1 Hn2 Hfile Hdev H.
  assert (npm_field n2 = npm_field n1) as Hfield
    by (unfold npm_field; rewrite Hdev; reflexivity).
  destruct (Create_Val_inv _ _ _ _ _ _ H) as [_ [Hc' | Hrun]]; [congruence |].
  destruct Hrun
    as (d' & T' & pb & steps & st & w4 & w5 & Hd' & HT' & Hp' & Hdec & Hrun & Hf1 & Hf2).
  assert (d' = d) as -> by congruence.
  assert (steps = pre ++ s1 :: mid ++ s2 :: post) as -> by congruence.
  clear HT' Hp' Hdec Hd'.
  (* the loop, cut at the two steps *)
  apply run_steps_app_Val in Hrun as (st0 & w0 & Hpre & Hrun).
  cbn [run_steps] in Hrun. apply bind_Val_inv in Hrun as (st1 & w1 & H1 & Hrun).
  apply run_steps_app_Val in Hrun as (st2 & w2 & Hmid & Hrun).
  cbn [run_steps] in Hrun. apply bind_Val_inv in Hrun as (st3 & w3 & H2 & Hpost).
  pose proof H1 as E1. pose proof H2 as E2.
  rewrite exec_step_npm in E1 by exact Ht1. rewrite exec_step_npm in E2 by exact Ht2.
  pose proof (exec_npm_Val_pairs _ _ _ _ _ _ _ _ Hn1 E1) as R1.
  pose proof (exec_npm_Val_pairs _ _ _ _ _ _ _ _ Hn2 E2) as R2.
  pose proof R1 as (doc0 & doc1 & v1 & _ & Hv1 & _ & (Hm1 & _) & Hp1).
  pose proof R2 as (doc2' & doc3 & v2 & Hload2 & Hv2 & _ & (Hm2 & Hk2 & _) & Hp2).
  (* the entry of the first step, and what is left of it before the second *)
  assert (dep_at (packageJsons st1) (npm_File n1) (npm_field n1) (npm_Package n1)
          = Some (JString v1)) as D1.
  { unfold dep_at. rewrite Hp1, lookup_insert_eq, Hm1. apply lookup_insert_eq. }
  assert (is_Some (dep_at (packageJsons st2) (npm_File n1) (npm_field n1) (npm_Package n1)))
    as D2 by (eapply run_steps_dep_present; [exact Hmid | eexists; exact D1]).
  pose proof D2 as [x2 D2'].
  unfold dep_at in D2'.
  destruct (packageJsons st2 !! npm_File n1) as [doc2|] eqn:Hdoc2; [| discriminate].
  destruct (field_map (npm_field n1) doc2) as [m2|] eqn:Hfm2; [| discriminate].
  (* the second step works on that document *)
  rewrite <- Hfile, Hdoc2 in Hload2.
  assert (doc2' = doc2) as ->.
  { destruct Hload2 as [[[= ->] _] | [Hd2 _]]; [reflexivity |].
    cbn in Hd2. subst doc2. discriminate. }
  rewrite Hfield, Hfm2 in Hm2, Hk2. cbn [default] in Hm2. rewrite app_nil_r in Hk2.
  rewrite <- Hfile in Hp2.
  assert (dep_at (packageJsons st3) (npm_File n1) (npm_field n1) (npm_Package n2)
          = Some (JString v2)) as D3.
  { unfold dep_at. rewrite Hp2, lookup_insert_eq, Hm2. apply lookup_insert_eq. }
  assert (is_Some (dep_at (packageJsons st3) (npm_File n1) (npm_field n1) (npm_Package n1)))
    as D3' by (eapply exec_step_dep_present; [exact H2 | exact D2]).
  (* what the loop ends with *)
  assert (is_Some (dep_at (packageJsons st) (npm_File n1) (npm_field n1) (npm_Package n1)))
    as [y1 Y1] by (eapply run_steps_dep_present; [exact Hpost | exact D3']).
  assert (is_Some (dep_at (packageJsons st) (npm_File n1) (npm_field n1) (npm_Package n2)))
    as [y2 Y2] by (eapply run_steps_dep_present; [exact Hpost | eexists; exact D3]).
  assert (Forall (λ s, ¬ targets L s (npm_File n1) (npm_field n1) (npm_Package n2)) post →
          dep_at (packageJsons st) (npm_File n1) (npm_field n1) (npm_Package n2)
          = Some (JString v2)) as Z2.
  { intros Hall. exact (run_steps_dep_at_other _ _ _ _ _ _ _ _ _ _ Hall _ _ _ _ Hpost D3). }
  assert (npm_Package n1 ≠ npm_Package n2 →
          Forall (λ s, ¬ targets L s (npm_File n1) (npm_field n1) (npm_Package n1))
                 (mid ++ post) →
          dep_at (packageJsons st) (npm_File n1) (npm_field n1) (npm_Package n1)
          = Some (JString v1)) as Z1.
  { intros Hne Hall. apply Forall_app in Hall as [Hmidall Hpostall].
    apply (run_steps_dep_at_other _ _ _ _ _ _ _ _ _ _ Hpostall _ _ _ _ Hpost).
    apply (exec_step_dep_at_other _ _ _ _ _ _ _ _ _ _ _ _ _ _ H2).
    - intros (_ & npm' & Hd' & _ & _ & Hpk). rewrite Hn2 in Hd'. injection Hd' as <-.
      apply Hne. symmetry. exact Hpk.
    - exact (run_steps_dep_at_other _ _ _ _ _ _ _ _ _ _ Hmidall _ _ _ _ Hmid D1). }
  unfold dep_at in Y1, Y2, Z1, Z2.
  destruct (packageJsons st !! npm_File n1) as [doc|] eqn:Hdoc; [| discriminate].
  destruct (field_map (npm_field n1) doc) as [m|] eqn:Hfm; [| discriminate].
  (* the flush *)
  unfold flush_packageJsons in Hf1.
  destruct (write_packageJsons_files _ _ _ (NoDup_fst_map_to_list _) _ _ Hf1) as [Hall _].
  destruct (Hall (npm_File n1) doc) as (bytes & Hb & Hcontent);
    [apply elem_of_map_to_list; exact Hdoc |].
  destruct (write_packageJsons_trace _ _ _ _ _ Hf1) as (Tc & Htc & HTc).
  destruct (flush_gitignore_trace _ _ _ _ Hf2) as (Ti & Hti & _).
  assert (EvWriteFile (npm_File n1) bytes ∈ trace w') as Hev.
  { pose proof Hdoc as Hl. apply elem_of_map_to_list in Hl.
    apply list_elem_of_lookup in Hl as [i Hi].
    destruct (Forall2_lookup_l _ _ _ _ _ HTc Hi) as (e & He & bytes' & Hb' & ->).
    cbn [fst snd] in Hb'. assert (bytes' = bytes) as -> by congruence.
    rewrite Hti, Htc. apply elem_of_app. left. apply elem_of_app. right.
    apply list_elem_of_lookup. exists i. exact He. }
  exists st0, w0, st1, w1, st2, w2, st3, w3, st, w4.
  split; [exact Hpre |]. split; [exact H1 |]. split; [exact Hmid |].
  split; [exact H2 |]. split; [exact Hpost |].
  split; [exact R1 |]. split; [exact R2 |].
  exists v1, v2, doc2, m2, doc3, doc, bytes, m.
  split; [exact Hv1 |]. split; [exact Hv2 |]. split; [exact Hdoc2 |].
  split; [exact Hfm2 |]. split; [eexists; exact D2' |].
  split; [rewrite Hp2; apply lookup_insert_eq |].
  split; [exact Hm2 |]. split; [exact Hk2 |].
  split; [exact Hdoc |]. split; [exact Hb |]. split; [exact Hev |].
  split.
  { intros Hg. rewrite (flush_gitignore_other _ _ _ _ _ Hg Hf2). exact Hcontent. }
  split; [exact Hfm |]. split; [eexists; exact Y1 |]. split; [eexists; exact Y2 |].
  split; [exact Z2 | exact Z1].
Qed.

Lemma two_npm_steps_last_write_wins_witness :
  two_deps_flushed mixed_libs deps_env "t" "home" "/work/app"
    [yarn_step] [tsconfig_step] [mixed_step3] deps_step1 deps_step2 deps_npm1 deps_npm2
    deps_world (Create mixed_libs deps_env "t" "home" deps_world).2.
Proof.
  apply (two_npm_steps_last_write_wins mixed_libs deps_env "t" "home" "/work/app"
           {| preset_json := Some "preset"; files := None |} "preset");
    reflexivity.
Defined.
